(** * Animation performance monitor and animation queue

    A shallow embedding of [src/lib/animation-queue.ts]: the
    [AnimationPerformanceMonitor] singleton (rolling frame-time samples,
    adaptive quality level, skip decisions), the [AnimationQueue] class
    (priority insertion, per-frame processing under a frame budget,
    execution of animation callbacks) and the two server-side-rendering
    guards [prefersReducedMotion] and [isLowEndDevice].

    Conventions of the embedding.
    - The times and counts of the monitor, the queue and the frame
      counter are exact rationals [Q]: the rounding of IEEE doubles is
      not modelled there, so a frame rate that falls within a rounding
      error of a threshold may be judged differently by the code. A
      division whose divisor can be zero yields a [JsNumber], which also
      has the infinities and [NaN]. The arithmetic helpers [lerp] and
      [mapRange] are modelled on binary64 numbers ([float]), with the
      rounding of every operation.
    - [Set<string>] is [gset string], [Map<string, _>] is [gmap string _];
      only membership and size are observed by the code.
    - The browser (frame callbacks, [performance.now()], the console) is an
      explicit component of the state, see [Browser].
    - User callbacks ([execute], [cleanup], subscribers) are opaque: the
      model records that they are called and how they end (return, throw,
      promise), and assumes they do not call back into the queue. *)

From Stdlib Require Import QArith Qround Qminmax Lqa Sorted Floats.
From stdpp Require Import gmap strings list pretty.

Local Open Scope Q_scope.

(** ** JavaScript numbers *)

Module JS.

Definition Qlt_bool (a b : Q) : bool := negb (Qle_bool b a).

(** Truthiness of a finite number: everything but zero. *)
Definition truthy (x : Q) : bool := negb (Qeq_bool x 0).

(** Truthiness of [number | undefined]. *)
Definition truthy_opt (x : option Q) : bool :=
  match x with
  | Some q => truthy q
  | None => false
  end.

(** [a || b] on an optional number. *)
Definition or_default (x : option Q) (d : Q) : Q :=
  match x with
  | Some q => if truthy q then q else d
  | None => d
  end.

Inductive JsNumber : Type :=
| Finite (q : Q)
| PosInfinity
| NegInfinity
| NaN.

(** [a / b] for finite [a] and [b] (a zero divisor is [+0]). *)
Definition div (a b : Q) : JsNumber :=
  if Qeq_bool b 0 then
    if Qeq_bool a 0 then NaN
    else if Qlt_bool 0 a then PosInfinity else NegInfinity
  else Finite (a / b).

(** [x >= t] and [x < t] against a finite [t]; [NaN] compares false. *)
Definition ge (x : JsNumber) (t : Q) : bool :=
  match x with
  | Finite q => Qle_bool t q
  | PosInfinity => true
  | NegInfinity => false
  | NaN => false
  end.

Definition lt (x : JsNumber) (t : Q) : bool :=
  match x with
  | Finite q => Qlt_bool q t
  | PosInfinity => false
  | NegInfinity => true
  | NaN => false
  end.

(** [Math.round]: the nearest integer, ties towards [+Infinity]. *)
Definition round (x : JsNumber) : JsNumber :=
  match x with
  | Finite q => Finite (inject_Z (Qfloor (q + 0.5)))
  | other => other
  end.

End JS.

(** ** The performance monitor ([AnimationPerformanceMonitor]) *)

Inductive QualityLevel : Type := ultra | high | medium | low | minimal.

#[global] Instance QualityLevel_eq_dec : EqDecision QualityLevel.
Proof. solve_decision. Defined.

(** [enum AnimationPriority]: a numeric enum, so any number is accepted
    where a priority is expected ([staggerAnimations] passes fractions). *)
Module AnimationPriority.
Definition CRITICAL : Q := 0.
Definition HIGH : Q := 1.
Definition MEDIUM : Q := 2.
Definition LOW : Q := 3.
End AnimationPriority.

Record PerformanceMetrics : Type := {
  fps : JS.JsNumber;
  frameTime : Q;
  metricsDroppedFrames : nat;
  memoryUsage : JS.JsNumber;
  animationCount : nat
}.

(** Subscribers of the monitor. The one installed by
    [getGlobalAnimationQueue] adjusts the queue's concurrency; every other
    subscriber is opaque and identified by a tag: it is called and either
    returns or throws. *)
Inductive Subscriber : Type :=
| QueueConcurrencySubscriber
| OpaqueSubscriber (tag : nat)
| ThrowingSubscriber (tag : nat) (error : string).

#[global] Instance Subscriber_eq_dec : EqDecision Subscriber.
Proof. solve_decision. Defined.

Module Monitor.

Record t : Type := {
  frameTimings : list Q;
  lastFrameTime : Q;
  droppedFrames : nat;
  qualityLevel : QualityLevel;
  animationBudget : Q;
  activeAnimations : gset string;
  rafId : option positive;
  callbacks : list Subscriber
}.

Definition set_frameTimings (v : list Q) (m : t) : t :=
  {| frameTimings := v; lastFrameTime := lastFrameTime m;
     droppedFrames := droppedFrames m; qualityLevel := qualityLevel m;
     animationBudget := animationBudget m;
     activeAnimations := activeAnimations m; rafId := rafId m;
     callbacks := callbacks m |}.

Definition set_lastFrameTime (v : Q) (m : t) : t :=
  {| frameTimings := frameTimings m; lastFrameTime := v;
     droppedFrames := droppedFrames m; qualityLevel := qualityLevel m;
     animationBudget := animationBudget m;
     activeAnimations := activeAnimations m; rafId := rafId m;
     callbacks := callbacks m |}.

Definition set_droppedFrames (v : nat) (m : t) : t :=
  {| frameTimings := frameTimings m; lastFrameTime := lastFrameTime m;
     droppedFrames := v; qualityLevel := qualityLevel m;
     animationBudget := animationBudget m;
     activeAnimations := activeAnimations m; rafId := rafId m;
     callbacks := callbacks m |}.

Definition set_quality (l : QualityLevel) (b : Q) (m : t) : t :=
  {| frameTimings := frameTimings m; lastFrameTime := lastFrameTime m;
     droppedFrames := droppedFrames m; qualityLevel := l;
     animationBudget := b;
     activeAnimations := activeAnimations m; rafId := rafId m;
     callbacks := callbacks m |}.

Definition set_activeAnimations (v : gset string) (m : t) : t :=
  {| frameTimings := frameTimings m; lastFrameTime := lastFrameTime m;
     droppedFrames := droppedFrames m; qualityLevel := qualityLevel m;
     animationBudget := animationBudget m;
     activeAnimations := v; rafId := rafId m;
     callbacks := callbacks m |}.

Definition set_rafId (v : option positive) (m : t) : t :=
  {| frameTimings := frameTimings m; lastFrameTime := lastFrameTime m;
     droppedFrames := droppedFrames m; qualityLevel := qualityLevel m;
     animationBudget := animationBudget m;
     activeAnimations := activeAnimations m; rafId := v;
     callbacks := callbacks m |}.

Definition set_callbacks (v : list Subscriber) (m : t) : t :=
  {| frameTimings := frameTimings m; lastFrameTime := lastFrameTime m;
     droppedFrames := droppedFrames m; qualityLevel := qualityLevel m;
     animationBudget := animationBudget m;
     activeAnimations := activeAnimations m; rafId := rafId m;
     callbacks := v |}.

(** Field initialisers of the class. *)
Definition initial : t :=
  {| frameTimings := []; lastFrameTime := 0; droppedFrames := 0;
     qualityLevel := high; animationBudget := 16.67;
     activeAnimations := ∅; rafId := None; callbacks := [] |}.

Definition count (n : nat) : Q := inject_Z (Z.of_nat n).

(** The sum and the quotient are exact, as said in the conventions. *)
Definition getAverageFrameTime (m : t) : Q :=
  if Nat.eqb (length (frameTimings m)) 0 then 16.67
  else foldl Qplus 0 (frameTimings m) / count (length (frameTimings m)).

(** The two quantities [adjustQuality] computes before deciding. *)
Definition windowFps (m : t) : JS.JsNumber :=
  JS.div 1000 (getAverageFrameTime m).

Definition droppedFrameRatio (m : t) : JS.JsNumber :=
  JS.div (count (droppedFrames m)) (count (length (frameTimings m))).

Definition adjustQuality (m : t) : t :=
  let fps := windowFps m in
  let ratio := droppedFrameRatio m in
  let m := set_droppedFrames 0 m in
  if JS.ge fps 55 && JS.lt ratio 0.05 then set_quality ultra 16.67 m
  else if JS.ge fps 50 && JS.lt ratio 0.1 then set_quality high 20 m
  else if JS.ge fps 40 && JS.lt ratio 0.15 then set_quality medium 25 m
  else if JS.ge fps 30 then set_quality low 33.33 m
  else set_quality minimal 50 m.

Definition getCurrentFPS (m : t) : JS.JsNumber :=
  JS.round (JS.div 1000 (getAverageFrameTime m)).

Definition getQualityLevel (m : t) : QualityLevel := qualityLevel m.

Definition getAnimationBudget (m : t) : Q := animationBudget m.

Definition registerAnimation (id : string) (m : t) : t :=
  set_activeAnimations ({[ id ]} ∪ activeAnimations m) m.

Definition unregisterAnimation (id : string) (m : t) : t :=
  set_activeAnimations (activeAnimations m ∖ {[ id ]}) m.

Definition getActiveAnimationCount (m : t) : nat :=
  size (activeAnimations m).

Definition getMaxConcurrentAnimations (m : t) : nat :=
  match qualityLevel m with
  | ultra => 10
  | high => 7
  | medium => 5
  | low => 3
  | minimal => 1
  end.

Definition shouldSkipAnimation (priority : Q) (m : t) : bool :=
  let maxAnimations := getMaxConcurrentAnimations m in
  if Nat.leb maxAnimations (size (activeAnimations m)) then
    Qle_bool AnimationPriority.MEDIUM priority
  else
    match qualityLevel m with
    | minimal => JS.Qlt_bool AnimationPriority.CRITICAL priority
    | low => JS.Qlt_bool AnimationPriority.HIGH priority
    | medium => JS.Qlt_bool AnimationPriority.MEDIUM priority
    | _ => false
    end.

(** [getMemoryUsage] reads [performance.memory] where the browser has
    it: [Some (usedJSHeapSize, jsHeapSizeLimit)]. *)
Definition getMemoryUsage (memory : option (Q * Q)) : JS.JsNumber :=
  match memory with
  | Some (used, limit) => JS.div used limit
  | None => JS.Finite 0
  end.

Definition getMetrics (memory : option (Q * Q)) (m : t)
  : PerformanceMetrics :=
  {| fps := getCurrentFPS m;
     frameTime := getAverageFrameTime m;
     metricsDroppedFrames := droppedFrames m;
     memoryUsage := getMemoryUsage memory;
     animationCount := size (activeAnimations m) |}.

(** [callbacks] is a [Set]: adding a member again changes nothing, and
    iteration follows insertion order. *)
Definition subscribe (s : Subscriber) (m : t) : t :=
  if bool_decide (s ∈ callbacks m) then m
  else set_callbacks (callbacks m ++ [s]) m.

End Monitor.

(** ** The browser *)

Inductive FrameCallback : Type :=
| MeasureCallback   (* [measure] of [startMonitoring] *)
| ProcessCallback.  (* [process] of [processQueue] *)

(** What the outside world can observe of a run. *)
Inductive Event : Type :=
| ExecuteCalled (id : string)
| CleanupCalled (id : string)
| ConsoleError (message : string) (error : string)
| Notified (tag : nat) (metrics : PerformanceMetrics).

Module Browser.

(** [requestAnimationFrame] handles are integers greater than zero (HTML
    Standard, animation frames), hence [positive]: a handle is always
    truthy. [clock] is the sequence of values [performance.now()]
    returns, [clockReads] how many were consumed. *)
Record t : Type := {
  nextHandle : positive;
  frameCallbacks : gmap positive FrameCallback;
  clock : nat -> Q;
  clockReads : nat;
  memory : option (Q * Q);
  trace : list Event
}.

Definition performance_now (b : t) : Q * t :=
  (clock b (clockReads b),
   {| nextHandle := nextHandle b; frameCallbacks := frameCallbacks b;
      clock := clock b; clockReads := S (clockReads b);
      memory := memory b; trace := trace b |}).

Definition requestAnimationFrame (cb : FrameCallback) (b : t)
  : positive * t :=
  (nextHandle b,
   {| nextHandle := Pos.succ (nextHandle b);
      frameCallbacks := <[nextHandle b := cb]> (frameCallbacks b);
      clock := clock b; clockReads := clockReads b;
      memory := memory b; trace := trace b |}).

Definition cancelAnimationFrame (h : positive) (b : t) : t :=
  {| nextHandle := nextHandle b;
     frameCallbacks := delete h (frameCallbacks b);
     clock := clock b; clockReads := clockReads b;
     memory := memory b; trace := trace b |}.

Definition emit (e : Event) (b : t) : t :=
  {| nextHandle := nextHandle b; frameCallbacks := frameCallbacks b;
     clock := clock b; clockReads := clockReads b;
     memory := memory b; trace := trace b ++ [e] |}.

End Browser.

(** ** Queue items *)

(** How a call of [item.execute()] ends. *)
Inductive ExecuteBehaviour : Type :=
| ReturnsVoid
| ThrowsError (error : string)
| ReturnsPromise.

(** How a call of [item.cleanup()] ends. *)
Inductive CleanupBehaviour : Type :=
| CleanupReturns
| CleanupThrows (error : string).

(** How the promise returned by [execute] settles. *)
Inductive Settlement : Type :=
| Fulfilled
| Rejected (error : string).

Module Item.

Record t : Type := {
  id : string;
  priority : Q;
  execute : ExecuteBehaviour;
  cleanup : option CleanupBehaviour;
  duration : option Q;
  timestamp : option Q
}.

Definition set_timestamp (v : option Q) (i : t) : t :=
  {| id := id i; priority := priority i; execute := execute i;
     cleanup := cleanup i; duration := duration i; timestamp := v |}.

End Item.

(** The two [await]s of [executeAnimation]. *)
Inductive AwaitPoint : Type :=
| AwaitResult   (* [await result] *)
| AwaitDelay.   (* [await this.delay(item.duration)] *)

Record QueueOptions : Type := {
  optMaxConcurrent : option Q;
  optAutoStart : option bool;
  optFrameBudget : option Q
}.

Module Queue.

Record t : Type := {
  queue : list Item.t;
  executing : gmap string Item.t;
  maxConcurrent : Q;
  isRunning : bool;
  frameBudget : Q;
  frameStartTime : Q;
  rafId : option positive;
  completedAnimations : gset string
}.

Definition set_queue (v : list Item.t) (q : t) : t :=
  {| queue := v; executing := executing q;
     maxConcurrent := maxConcurrent q; isRunning := isRunning q;
     frameBudget := frameBudget q; frameStartTime := frameStartTime q;
     rafId := rafId q; completedAnimations := completedAnimations q |}.

Definition set_executing (v : gmap string Item.t) (q : t) : t :=
  {| queue := queue q; executing := v;
     maxConcurrent := maxConcurrent q; isRunning := isRunning q;
     frameBudget := frameBudget q; frameStartTime := frameStartTime q;
     rafId := rafId q; completedAnimations := completedAnimations q |}.

Definition set_maxConcurrent (v : Q) (q : t) : t :=
  {| queue := queue q; executing := executing q;
     maxConcurrent := v; isRunning := isRunning q;
     frameBudget := frameBudget q; frameStartTime := frameStartTime q;
     rafId := rafId q; completedAnimations := completedAnimations q |}.

Definition set_isRunning (v : bool) (q : t) : t :=
  {| queue := queue q; executing := executing q;
     maxConcurrent := maxConcurrent q; isRunning := v;
     frameBudget := frameBudget q; frameStartTime := frameStartTime q;
     rafId := rafId q; completedAnimations := completedAnimations q |}.

Definition set_frameStartTime (v : Q) (q : t) : t :=
  {| queue := queue q; executing := executing q;
     maxConcurrent := maxConcurrent q; isRunning := isRunning q;
     frameBudget := frameBudget q; frameStartTime := v;
     rafId := rafId q; completedAnimations := completedAnimations q |}.

Definition set_rafId (v : option positive) (q : t) : t :=
  {| queue := queue q; executing := executing q;
     maxConcurrent := maxConcurrent q; isRunning := isRunning q;
     frameBudget := frameBudget q; frameStartTime := frameStartTime q;
     rafId := v; completedAnimations := completedAnimations q |}.

Definition set_completedAnimations (v : gset string) (q : t) : t :=
  {| queue := queue q; executing := executing q;
     maxConcurrent := maxConcurrent q; isRunning := isRunning q;
     frameBudget := frameBudget q; frameStartTime := frameStartTime q;
     rafId := rafId q; completedAnimations := v |}.

(** Field initialisers and the two assignments of the constructor. *)
Definition fresh (options : QueueOptions) : t :=
  {| queue := []; executing := ∅;
     maxConcurrent := JS.or_default (optMaxConcurrent options) 3;
     isRunning := false;
     frameBudget := JS.or_default (optFrameBudget options) 16.67;
     frameStartTime := 0; rafId := None; completedAnimations := ∅ |}.

End Queue.

(** ** The whole state: the monitor singleton, one queue, the browser and
    the executions of [executeAnimation] suspended at an [await]. *)

Record World : Type := {
  monitor : Monitor.t;
  animationQueue : Queue.t;
  browser : Browser.t;
  suspended : list (Item.t * AwaitPoint)
}.

Definition with_monitor (f : Monitor.t -> Monitor.t) (w : World) : World :=
  {| monitor := f (monitor w); animationQueue := animationQueue w;
     browser := browser w; suspended := suspended w |}.

Definition with_queue (f : Queue.t -> Queue.t) (w : World) : World :=
  {| monitor := monitor w; animationQueue := f (animationQueue w);
     browser := browser w; suspended := suspended w |}.

Definition with_browser (f : Browser.t -> Browser.t) (w : World) : World :=
  {| monitor := monitor w; animationQueue := animationQueue w;
     browser := f (browser w); suspended := suspended w |}.

Definition with_suspended
  (f : list (Item.t * AwaitPoint) -> list (Item.t * AwaitPoint))
  (w : World) : World :=
  {| monitor := monitor w; animationQueue := animationQueue w;
     browser := browser w; suspended := f (suspended w) |}.

Definition performance_now (w : World) : Q * World :=
  let '(now, b) := Browser.performance_now (browser w) in
  (now, with_browser (fun _ => b) w).

Definition requestAnimationFrame (cb : FrameCallback) (w : World)
  : positive * World :=
  let '(h, b) := Browser.requestAnimationFrame cb (browser w) in
  (h, with_browser (fun _ => b) w).

Definition emit (e : Event) (w : World) : World :=
  with_browser (Browser.emit e) w.

(** ** [AnimationQueue] methods *)

Section QueueMethods.

(** [Array.prototype.findIndex]: the first index whose element satisfies
    the predicate, [-1] when there is none. *)
Fixpoint findIndexFrom {A : Type} (f : A -> bool) (l : list A) (i : Z) : Z :=
  match l with
  | [] => (-1)%Z
  | x :: rest => if f x then i else findIndexFrom f rest (i + 1)%Z
  end.

Definition findIndex {A : Type} (f : A -> bool) (l : list A) : Z :=
  findIndexFrom f l 0%Z.

(** [l.splice(i, 0, x)] for [0 <= i <= l.length]. *)
Definition splice_in {A : Type} (i : Z) (x : A) (l : list A) : list A :=
  take (Z.to_nat i) l ++ x :: drop (Z.to_nat i) l.

Definition has_rafId (w : World) : bool :=
  match Queue.rafId (animationQueue w) with
  | Some _ => true
  | None => false
  end.

(** [processQueue]: the closure [process] is the frame callback
    [ProcessCallback], see [process] below. *)
Definition processQueue (w : World) : World :=
  if negb (Queue.isRunning (animationQueue w)) then w
  else if negb (has_rafId w) then
    let '(h, w) := requestAnimationFrame ProcessCallback w in
    with_queue (Queue.set_rafId (Some h)) w
  else w.

(** [add] writes [timestamp] on the caller's object; the queue never
    reads it back, and the model stamps the queued copy. *)
Definition add (item : Item.t) (w : World) : World :=
  let q := animationQueue w in
  if bool_decide (Item.id item ∈ Queue.completedAnimations q)
     || bool_decide (is_Some (Queue.executing q !! Item.id item))
  then w
  else
    let '(now, w) := performance_now w in
    let item := Item.set_timestamp (Some now) item in
    let q := Queue.queue (animationQueue w) in
    let insertIndex :=
      findIndex
        (fun queueItem =>
           JS.Qlt_bool (Item.priority item) (Item.priority queueItem)) q in
    let q :=
      if Z.eqb insertIndex (-1) then q ++ [item]
      else splice_in insertIndex item q in
    let w := with_queue (Queue.set_queue q) w in
    let w := with_monitor (Monitor.registerAnimation (Item.id item)) w in
    if Queue.isRunning (animationQueue w) then processQueue w else w.

(** [items.forEach(item => this.add(item))] *)
Definition addBatch (items : list Item.t) (w : World) : World :=
  foldl (fun w item => add item w) w items.

Definition start (w : World) : World :=
  if Queue.isRunning (animationQueue w) then w
  else processQueue (with_queue (Queue.set_isRunning true) w).

Definition pause (w : World) : World :=
  let w := with_queue (Queue.set_isRunning false) w in
  match Queue.rafId (animationQueue w) with
  | Some h =>
      let w := with_browser (Browser.cancelAnimationFrame h) w in
      with_queue (Queue.set_rafId None) w
  | None => w
  end.

Definition resume (w : World) : World := start w.

Definition unregister_all (items : list Item.t) (m : Monitor.t) : Monitor.t :=
  foldl (fun m item => Monitor.unregisterAnimation (Item.id item) m) m items.

Definition clear (priority : option Q) (w : World) : World :=
  let q := Queue.queue (animationQueue w) in
  match priority with
  | Some p =>
      let matches item := Qeq_bool (Item.priority item) p in
      let w := with_monitor (unregister_all (filter (fun i => matches i = true) q)) w in
      with_queue
        (Queue.set_queue (filter (fun i => matches i = false) q)) w
  | None =>
      let w := with_monitor (unregister_all q) w in
      with_queue (Queue.set_queue []) w
  end.

Definition setMaxConcurrent (max : Q) (w : World) : World :=
  let w := with_queue (Queue.set_maxConcurrent max) w in
  if Queue.isRunning (animationQueue w) then processQueue w else w.

Definition new_AnimationQueue (options : QueueOptions) (w : World) : World :=
  let w := with_queue (fun _ => Queue.fresh options) w in
  match optAutoStart options with
  | Some false => w
  | _ => start w
  end.

(** *** [hasFrameBudget] *)

Definition adjustedBudget (w : World) : Q :=
  match Monitor.getQualityLevel (monitor w) with
  | minimal => 8
  | low => 12
  | medium => 16
  | _ => Queue.frameBudget (animationQueue w)
  end.

Definition hasFrameBudget (w : World) : bool * World :=
  let '(now, w) := performance_now w in
  let elapsed := now - Queue.frameStartTime (animationQueue w) in
  (JS.Qlt_bool elapsed (adjustedBudget w), w).

(** *** [executeAnimation]

    The [finally] block; [console.error] is the event [ConsoleError]. *)
Definition run_cleanup (item : Item.t) (w : World) : World :=
  match Item.cleanup item with
  | None => w
  | Some CleanupReturns => emit (CleanupCalled (Item.id item)) w
  | Some (CleanupThrows error) =>
      let w := emit (CleanupCalled (Item.id item)) w in
      emit (ConsoleError
              ("Animation " ++ Item.id item ++ " cleanup failed:") error) w
  end.

Definition mark_completed (item : Item.t) (w : World) : World :=
  let w := with_queue
             (fun q => Queue.set_executing
                         (delete (Item.id item) (Queue.executing q)) q) w in
  let w := with_queue
             (fun q => Queue.set_completedAnimations
                         ({[ Item.id item ]} ∪ Queue.completedAnimations q) q)
             w in
  let w := with_monitor (Monitor.unregisterAnimation (Item.id item)) w in
  if Nat.ltb 100 (size (Queue.completedAnimations (animationQueue w)))
  then with_queue (Queue.set_completedAnimations ∅) w
  else w.

Definition finally_block (item : Item.t) (w : World) : World :=
  mark_completed item (run_cleanup item w).

(** The [catch] block followed by [finally]. *)
Definition catch_block (item : Item.t) (error : string) (w : World) : World :=
  let w := emit (ConsoleError
                   ("Animation " ++ Item.id item ++ " failed:") error) w in
  finally_block item w.

Definition suspend (item : Item.t) (at_ : AwaitPoint) (w : World) : World :=
  with_suspended (fun l => l ++ [(item, at_)]) w.

(** From [if (item.duration)] to the end of the function. *)
Definition after_result (item : Item.t) (w : World) : World :=
  if JS.truthy_opt (Item.duration item) then suspend item AwaitDelay w
  else finally_block item w.

(** The call [this.executeAnimation(item)]: the function body up to its
    first [await], or to its end when no [await] is reached. *)
Definition executeAnimation (item : Item.t) (w : World) : World :=
  let w := with_queue
             (fun q => Queue.set_executing
                         (<[Item.id item := item]> (Queue.executing q)) q) w in
  let w := emit (ExecuteCalled (Item.id item)) w in
  match Item.execute item with
  | ThrowsError error => catch_block item error w
  | ReturnsVoid => after_result item w
  | ReturnsPromise => suspend item AwaitResult w
  end.

(** The continuation of an execution suspended at [await result], when
    the promise settles. *)
Definition resume_result (item : Item.t) (s : Settlement) (w : World)
  : World :=
  match s with
  | Fulfilled => after_result item w
  | Rejected error => catch_block item error w
  end.

(** The continuation of an execution suspended at [await this.delay]:
    the timer promise only ever resolves. *)
Definition resume_delay (item : Item.t) (w : World) : World :=
  finally_block item w.

(** *** [process], the frame callback of the queue *)

(** One pass through the body of the [while] loop, after [shift]. *)
Definition loop_body (item : Item.t) (w : World) : World :=
  if Monitor.shouldSkipAnimation (Item.priority item) (monitor w) then
    with_monitor (Monitor.unregisterAnimation (Item.id item)) w
  else executeAnimation item w.

Definition can_execute_more (w : World) : bool :=
  JS.Qlt_bool (Monitor.count (size (Queue.executing (animationQueue w))))
              (Queue.maxConcurrent (animationQueue w)).

(** The [while] loop. [q] is [this.queue] on entry of each test; the
    loop body does not write the queue, so the recursion follows it. *)
Fixpoint process_loop (q : list Item.t) (w : World) : World :=
  match q with
  | [] => w
  | item :: rest =>
      if can_execute_more w then
        let '(ok, w) := hasFrameBudget w in
        if ok then
          let w := with_queue (Queue.set_queue rest) w in
          process_loop rest (loop_body item w)
        else w
      else w
  end.

Definition process (w : World) : World :=
  let '(now, w) := performance_now w in
  let w := with_queue (Queue.set_frameStartTime now) w in
  let w := process_loop (Queue.queue (animationQueue w)) w in
  let q := animationQueue w in
  if Nat.ltb 0 (length (Queue.queue q)) || Nat.ltb 0 (size (Queue.executing q))
  then
    let '(h, w) := requestAnimationFrame ProcessCallback w in
    with_queue (Queue.set_rafId (Some h)) w
  else with_queue (Queue.set_rafId None) w.

End QueueMethods.

(** ** The monitor's frame callback *)

(** How a call that may throw ends. *)
Inductive Outcome : Type :=
| Returned
| Threw (error : string).

Section Monitoring.

(** What the subscriber of [getGlobalAnimationQueue] does. *)
Definition queue_concurrency (metrics : PerformanceMetrics) (w : World)
  : World :=
  if JS.lt (fps metrics) 30 then setMaxConcurrent 1 w
  else if JS.lt (fps metrics) 45 then setMaxConcurrent 2 w
  else setMaxConcurrent 3 w.

(** What a call of a subscriber does to the world, up to its return or
    its throw. *)
Definition subscriber_effect (metrics : PerformanceMetrics) (w : World)
  (s : Subscriber) : World :=
  match s with
  | QueueConcurrencySubscriber => queue_concurrency metrics w
  | OpaqueSubscriber tag => emit (Notified tag metrics) w
  | ThrowingSubscriber tag _ => emit (Notified tag metrics) w
  end.

Definition subscriber_outcome (s : Subscriber) : Outcome :=
  match s with
  | ThrowingSubscriber _ error => Threw error
  | _ => Returned
  end.

Definition call_subscriber (metrics : PerformanceMetrics) (w : World)
  (s : Subscriber) : World * Outcome :=
  (subscriber_effect metrics w s, subscriber_outcome s).

(** [this.callbacks.forEach(callback => callback(metrics))] over the
    subscribers in the order of the [Set]: the calls are made without a
    [try]; the first subscriber that throws ends the walk. *)
Fixpoint forEach_callback (metrics : PerformanceMetrics)
  (subs : list Subscriber) (w : World) : World * Outcome :=
  match subs with
  | [] => (w, Returned)
  | s :: rest =>
      match call_subscriber metrics w s with
      | (w, Returned) => forEach_callback metrics rest w
      | (w, Threw error) => (w, Threw error)
      end
  end.

Definition notifyCallbacks (w : World) : World * Outcome :=
  let metrics := Monitor.getMetrics (Browser.memory (browser w)) (monitor w) in
  forEach_callback metrics (Monitor.callbacks (monitor w)) w.

(** The statements of [measure] guarded by [if (this.lastFrameTime)]. *)
Definition record_frame (timestamp : Q) (w : World) : World * Outcome :=
  let frameTime := timestamp - Monitor.lastFrameTime (monitor w) in
  let w := with_monitor
             (fun m => Monitor.set_frameTimings
                         (Monitor.frameTimings m ++ [frameTime]) m) w in
  let w :=
    if Nat.ltb 60 (length (Monitor.frameTimings (monitor w))) then
      with_monitor
        (fun m => Monitor.set_frameTimings (tail (Monitor.frameTimings m)) m) w
    else w in
  let w :=
    if JS.Qlt_bool 33 frameTime then
      with_monitor
        (fun m => Monitor.set_droppedFrames (S (Monitor.droppedFrames m)) m) w
    else w in
  if Nat.eqb (length (Monitor.frameTimings (monitor w))) 60 then
    notifyCallbacks (with_monitor Monitor.adjustQuality w)
  else (w, Returned).

(** [measure] with the way it ends. Nothing in [measure] or in
    [notifyCallbacks] catches: when a subscriber throws, the exception
    leaves [measure] before [lastFrameTime] is updated and before the
    next frame is requested. *)
Definition measure_call (timestamp : Q) (w : World) : World * Outcome :=
  let '(w, outcome) :=
    if JS.truthy (Monitor.lastFrameTime (monitor w))
    then record_frame timestamp w else (w, Returned) in
  match outcome with
  | Threw error => (w, Threw error)
  | Returned =>
      let w := with_monitor (Monitor.set_lastFrameTime timestamp) w in
      let '(h, w) := requestAnimationFrame MeasureCallback w in
      (with_monitor (Monitor.set_rafId (Some h)) w, Returned)
  end.

(** The world a call of [measure] leaves behind, and how the call
    ends. *)
Definition measure (timestamp : Q) (w : World) : World :=
  fst (measure_call timestamp w).

Definition measure_outcome (timestamp : Q) (w : World) : Outcome :=
  snd (measure_call timestamp w).

Definition startMonitoring (w : World) : World :=
  let '(h, w) := requestAnimationFrame MeasureCallback w in
  with_monitor (Monitor.set_rafId (Some h)) w.

(** Successive calls of [measure], one timestamp each. *)
Definition measure_all (timestamps : list Q) (w : World) : World :=
  foldl (fun w timestamp => measure timestamp w) w timestamps.

End Monitoring.

(** ** Frames as the browser runs them *)

(** The browser takes the callback registered under [h] off its list and
    calls it with the frame's timestamp; a cancelled or unknown handle
    runs nothing. An exception that leaves the callback is the browser's
    to report: the world stays as the callback left it. *)
Definition run_frame_callback (h : positive) (timestamp : Q) (w : World)
  : World :=
  match Browser.frameCallbacks (browser w) !! h with
  | None => w
  | Some cb =>
      let w := with_browser (Browser.cancelAnimationFrame h) w in
      match cb with
      | MeasureCallback => measure timestamp w
      | ProcessCallback => process w
      end
  end.

(** The promise awaited by the [i]-th suspended execution settles. *)
Definition promise_settles (i : nat) (s : Settlement) (w : World) : World :=
  match suspended w !! i with
  | Some (item, AwaitResult) =>
      resume_result item s (with_suspended (delete i) w)
  | _ => w
  end.

(** The timer of the [i]-th suspended execution fires. *)
Definition timer_fires (i : nat) (w : World) : World :=
  match suspended w !! i with
  | Some (item, AwaitDelay) => resume_delay item (with_suspended (delete i) w)
  | _ => w
  end.

(** ** Runs

    What can happen to a page: calls of the public methods, frames, and
    the settling of what suspended executions wait for. *)
Inductive Action : Type :=
| CallAdd (item : Item.t)
| CallAddBatch (items : list Item.t)
| CallStart
| CallPause
| CallResume
| CallClear (priority : option Q)
| CallSetMaxConcurrent (max : Q)
| CallSubscribe (s : Subscriber)
| Frame (h : positive) (timestamp : Q)
| PromiseSettles (i : nat) (s : Settlement)
| TimerFires (i : nat).

Definition step (w : World) (a : Action) : World :=
  match a with
  | CallAdd item => add item w
  | CallAddBatch items => addBatch items w
  | CallStart => start w
  | CallPause => pause w
  | CallResume => resume w
  | CallClear priority => clear priority w
  | CallSetMaxConcurrent max => setMaxConcurrent max w
  | CallSubscribe s => with_monitor (Monitor.subscribe s) w
  | Frame h timestamp => run_frame_callback h timestamp w
  | PromiseSettles i s => promise_settles i s w
  | TimerFires i => timer_fires i w
  end.

Definition run (actions : list Action) (w : World) : World :=
  foldl step w actions.

(** ** Server-side-rendering guards *)

Module Globals.

Inductive JsResult (A : Type) : Type :=
| Returns (value : A)
| Throws (error : string).
Arguments Returns {A} value.
Arguments Throws {A} error.

Definition bind {A B : Type} (r : JsResult A) (k : A -> JsResult B)
  : JsResult B :=
  match r with
  | Returns a => k a
  | Throws e => Throws e
  end.

Record Connection : Type := {
  saveData : option bool;
  effectiveType : option string
}.

Record Navigator : Type := {
  connection : option Connection;
  deviceMemory : option Q;
  hardwareConcurrency : option Q
}.

(** [matchMedia] is [None] where the host does not implement it: calling
    it is then a [TypeError]. *)
Record Window : Type := {
  matchMedia : option (string -> bool)
}.

(** The globals of the host: a browser has both, a server neither. *)
Record t : Type := {
  window : option Window;
  navigator : option Navigator
}.

Definition prefersReducedMotion (g : t) : JsResult bool :=
  match window g with
  | None => Returns false
  | Some win =>
      match matchMedia win with
      | None => Throws "TypeError: window.matchMedia is not a function"
      | Some media => Returns (media "(prefers-reduced-motion: reduce)")
      end
  end.

Definition slow_connection (c : option Connection) : bool :=
  match c with
  | None => false
  | Some c =>
      match saveData c with
      | Some true => true
      | _ => bool_decide (effectiveType c = Some "2g")
      end
  end.

(** [x && x < 4] on an optional number. *)
Definition below_four (x : option Q) : bool :=
  match x with
  | Some v => JS.truthy v && JS.Qlt_bool v 4
  | None => false
  end.

Definition isLowEndDevice (g : t) : JsResult bool :=
  match window g with
  | None => Returns false
  | Some _ =>
      bind (prefersReducedMotion g) (fun reduced =>
        if reduced then Returns true
        else
          match navigator g with
          | None => Throws "ReferenceError: navigator is not defined"
          | Some nav =>
              if slow_connection (connection nav) then Returns true
              else if below_four (deviceMemory nav) then Returns true
              else if below_four (hardwareConcurrency nav) then Returns true
              else Returns false
          end)
  end.

End Globals.

(** ** Numeric helpers ([clamp], [lerp], [mapRange]) *)

Module Numeric.

(** [Math.min(Math.max(value, min), max)] *)
Definition clamp (value min max : Q) : Q := Qmin (Qmax value min) max.

(** [start + (end - start) * progress] on binary64 numbers, each
    operation rounded to nearest. *)
Definition lerp (start end_ progress : float) : float :=
  PrimFloat.add start (PrimFloat.mul (PrimFloat.sub end_ start) progress).

(** [((value - inMin) * (outMax - outMin)) / (inMax - inMin) + outMin] *)
Definition mapRange (value inMin inMax outMin outMax : float) : float :=
  PrimFloat.add
    (PrimFloat.div
       (PrimFloat.mul (PrimFloat.sub value inMin) (PrimFloat.sub outMax outMin))
       (PrimFloat.sub inMax inMin))
    outMin.

End Numeric.

(** ** Quality-dependent animation settings *)

Module Optimized.

Record AnimationConfig : Type := {
  stiffness : Q;
  damping : Q;
  mass : Q;
  duration : Q;
  stagger : Q;
  particleCount : Q;
  enableBlur : bool;
  enableGlow : bool;
  enable3D : bool
}.

Definition getOptimizedAnimationConfig (quality : QualityLevel)
  : AnimationConfig :=
  match quality with
  | ultra =>
      {| stiffness := 400; damping := 30; mass := 0.8; duration := 0.6;
         stagger := 0.05; particleCount := 50;
         enableBlur := true; enableGlow := true; enable3D := true |}
  | high =>
      {| stiffness := 350; damping := 28; mass := 1; duration := 0.5;
         stagger := 0.07; particleCount := 30;
         enableBlur := true; enableGlow := true; enable3D := true |}
  | medium =>
      {| stiffness := 300; damping := 25; mass := 1.2; duration := 0.4;
         stagger := 0.1; particleCount := 20;
         enableBlur := false; enableGlow := true; enable3D := true |}
  | low =>
      {| stiffness := 250; damping := 20; mass := 1.5; duration := 0.3;
         stagger := 0.15; particleCount := 10;
         enableBlur := false; enableGlow := false; enable3D := false |}
  | minimal =>
      {| stiffness := 200; damping := 15; mass := 2; duration := 0.2;
         stagger := 0.2; particleCount := 5;
         enableBlur := false; enableGlow := false; enable3D := false |}
  end.

(** The spring [createOptimizedSpring] returns; its [type] is always
    ['spring']. *)
Record Spring : Type := {
  springStiffness : Q;
  springDamping : Q;
  springMass : Q
}.

Definition createOptimizedSpring (baseStiffness baseDamping : Q)
  (quality : QualityLevel) : Spring :=
  let config := getOptimizedAnimationConfig quality in
  {| springStiffness := Qmin baseStiffness (stiffness config);
     springDamping := Qmax baseDamping (damping config);
     springMass := mass config |}.

End Optimized.

(** ** [AnimationQueue.destroy] *)

(** [this.executing.forEach(item => { ... })] over the items in the
    order [forEach] visits them: the cleanups are called without a
    [try]; the first one that throws ends the walk. *)
Fixpoint destroy_executing (items : list Item.t) (w : World)
  : World * Outcome :=
  match items with
  | [] => (w, Returned)
  | item :: rest =>
      match Item.cleanup item with
      | Some (CleanupThrows error) =>
          (emit (CleanupCalled (Item.id item)) w, Threw error)
      | Some CleanupReturns =>
          destroy_executing rest
            (with_monitor (Monitor.unregisterAnimation (Item.id item))
               (emit (CleanupCalled (Item.id item)) w))
      | None =>
          destroy_executing rest
            (with_monitor (Monitor.unregisterAnimation (Item.id item)) w)
      end
  end.

(** A [Map] is walked in the order of insertion, which the [gmap] of the
    model does not keep: [order] is that order, the items of the
    executing map as [forEach] visits them. *)
Definition destroy (order : list Item.t) (w : World) : World * Outcome :=
  let w := pause w in
  let w := clear None w in
  let '(w, outcome) := destroy_executing order w in
  match outcome with
  | Threw error => (w, Threw error)
  | Returned =>
      let w := with_queue (Queue.set_executing ∅) w in
      (with_queue (Queue.set_completedAnimations ∅) w, Returned)
  end.

(** ** [memoize] *)

Module Memoize.

Section Memoized.

Context {A R : Type}.

(** The function that is memoized (taken to be pure), the optional
    [getKey], and what [JSON.stringify(args)] gives when there is none. *)
Variable fn : A -> R.
Variable getKey : option (A -> string).
Variable stringify : A -> string.

(** The closure's [cache], together with the arguments [fn] has been
    called with, in order. *)
Record State : Type := {
  cache : gmap string R;
  calls : list A
}.

Definition initial : State := {| cache := ∅; calls := [] |}.




End Memoized.

End Memoize.

(** ** [WillChangeManager] *)

Module WillChange.

(** [Set.prototype.add] on a set kept in insertion order. *)
Definition set_add (prop : string) (s : list string) : list string :=
  if bool_decide (prop ∈ s) then s else s ++ [prop].

(** [Array.prototype.join] *)
Fixpoint join (sep : string) (l : list string) : string :=
  match l with
  | [] => ""
  | [x] => x
  | x :: rest => x ++ sep ++ join sep rest
  end.

(** Elements are named by numbers, as they are compared by identity.
    [style] is [element.style.willChange] of the elements the manager
    has written; [timers] are the pending timers the manager has set,
    each with the element its callback removes. *)
Record t : Type := {
  elements : gmap positive (list string);
  timeouts : gmap positive positive;
  style : gmap positive string;
  nextTimer : positive;
  timers : gmap positive positive
}.

Definition initial : t :=
  {| elements := ∅; timeouts := ∅; style := ∅; nextTimer := 1; timers := ∅ |}.

(** [clearTimeout] and [setTimeout(() => this.remove(element), _)]; a
    timer id is truthy. *)
Definition clearTimeout (h : positive) (s : t) : t :=
  {| elements := elements s; timeouts := timeouts s; style := style s;
     nextTimer := nextTimer s; timers := delete h (timers s) |}.

Definition setTimeout (element : positive) (s : t) : positive * t :=
  (nextTimer s,
   {| elements := elements s; timeouts := timeouts s; style := style s;
      nextTimer := Pos.succ (nextTimer s);
      timers := <[nextTimer s := element]> (timers s) |}).

Definition set_willChange (element : positive) (v : string) (s : t) : t :=
  {| elements := elements s; timeouts := timeouts s;
     style := <[element := v]> (style s);
     nextTimer := nextTimer s; timers := timers s |}.

Definition set_elements (v : gmap positive (list string)) (s : t) : t :=
  {| elements := v; timeouts := timeouts s; style := style s;
     nextTimer := nextTimer s; timers := timers s |}.

Definition set_timeouts (v : gmap positive positive) (s : t) : t :=
  {| elements := elements s; timeouts := v; style := style s;
     nextTimer := nextTimer s; timers := timers s |}.

Definition add (element : positive) (properties : list string) (s : t) : t :=
  let existing := default [] (elements s !! element) in
  let existing := foldl (fun set prop => set_add prop set) existing properties in
  let s := set_elements (<[element := existing]> (elements s)) s in
  let s := set_willChange element (join ", " existing) s in
  let s :=
    match timeouts s !! element with
    | Some existingTimeout => clearTimeout existingTimeout s
    | None => s
    end in
  let '(timeout, s) := setTimeout element s in
  set_timeouts (<[element := timeout]> (timeouts s)) s.

Definition remove (element : positive) (s : t) : t :=
  let s := set_willChange element "auto" s in
  let s := set_elements (delete element (elements s)) s in
  match timeouts s !! element with
  | Some timeout =>
      let s := clearTimeout timeout s in
      set_timeouts (delete element (timeouts s)) s
  | None => s
  end.

Definition clear (s : t) : t :=
  let s := foldr (fun element s => set_willChange element "auto" s) s
             (map_to_list (elements s)).*1 in
  let s := foldr clearTimeout s (map_to_list (timeouts s)).*2 in
  let s := set_elements ∅ s in
  set_timeouts ∅ s.

(** A pending timer fires: the host forgets it and calls
    [this.remove(element)]. *)
Definition timer_fires (h : positive) (s : t) : t :=
  match timers s !! h with
  | Some element => remove element (clearTimeout h s)
  | None => s
  end.

Inductive Action : Type :=
| Add (element : positive) (properties : list string)
| Remove (element : positive)
| Clear
| TimerFires (h : positive).

Definition step (s : t) (a : Action) : t :=
  match a with
  | Add element properties => add element properties s
  | Remove element => remove element s
  | Clear => clear s
  | TimerFires h => timer_fires h s
  end.

Definition run (actions : list Action) (s : t) : t := foldl step s actions.

End WillChange.

(** ** [DOMBatcher] *)

Module DOMBatcher.

Inductive Kind : Type := Read | Write.

(** A callback passed to [read] or [write], by what a call of it does:
    it makes the [calls] of [read] and [write] of the same batcher, in
    order, and then returns or throws. [name] tells callbacks apart in
    the log. *)
Inductive Task : Type :=
| MkTask (name : string) (calls : list Call) (throws : bool)
with Call : Type :=
| Queue (kind : Kind) (fn : Task).

Definition name (fn : Task) : string :=
  match fn with MkTask n _ _ => n end.

Definition calls (fn : Task) : list Call :=
  match fn with MkTask _ c _ => c end.

Definition throws (fn : Task) : bool :=
  match fn with MkTask _ _ t => t end.

(** [frames] counts the callbacks the batcher has passed to [raf] that
    have not run yet; [log] lists the callbacks called so far. *)
Record t : Type := {
  reads : list Task;
  writes : list Task;
  scheduled : bool;
  frames : nat;
  log : list string
}.

Definition initial : t :=
  {| reads := []; writes := []; scheduled := false; frames := 0; log := [] |}.

Definition schedule (s : t) : t :=
  if scheduled s then s
  else {| reads := reads s; writes := writes s; scheduled := true;
          frames := S (frames s); log := log s |}.

Definition read (fn : Task) (s : t) : t :=
  schedule {| reads := reads s ++ [fn]; writes := writes s;
              scheduled := scheduled s; frames := frames s; log := log s |}.

Definition write (fn : Task) (s : t) : t :=
  schedule {| reads := reads s; writes := writes s ++ [fn];
              scheduled := scheduled s; frames := frames s; log := log s |}.

(** The call [fn()]: the state after it, and whether it threw. *)
Definition call (fn : Task) (s : t) : t * bool :=
  let s := {| reads := reads s; writes := writes s; scheduled := scheduled s;
              frames := frames s; log := log s ++ [name fn] |} in
  let s := foldl (fun s c =>
                    match c with
                    | Queue Read fn' => read fn' s
                    | Queue Write fn' => write fn' s
                    end) s (calls fn) in
  (s, throws fn).

(** [fns.forEach(fn => fn())]: an exception ends the loop. *)
Fixpoint forEach_call (fns : list Task) (s : t) : t * bool :=
  match fns with
  | [] => (s, false)
  | fn :: rest =>
      let '(s, threw) := call fn s in
      if threw then (s, true) else forEach_call rest s
  end.

(** The callback passed to [raf] runs, when one is pending. An
    exception leaves it before [this.scheduled = false]. *)
Definition flush (s : t) : t :=
  match frames s with
  | O => s
  | S pending =>
      let fns_reads := reads s in
      let fns_writes := writes s in
      let s := {| reads := []; writes := []; scheduled := scheduled s;
                  frames := pending; log := log s |} in
      let '(s, threw) := forEach_call fns_reads s in
      if threw then s
      else
        let '(s, threw) := forEach_call fns_writes s in
        if threw then s
        else {| reads := reads s; writes := writes s; scheduled := false;
                frames := frames s; log := log s |}
  end.

Inductive Action : Type :=
| CallRead (fn : Task)
| CallWrite (fn : Task)
| FrameFires.

Definition step (s : t) (a : Action) : t :=
  match a with
  | CallRead fn => read fn s
  | CallWrite fn => write fn s
  | FrameFires => flush s
  end.

Definition run (actions : list Action) (s : t) : t := foldl step s actions.

End DOMBatcher.

(** ** [debounce] *)

Module Debounce.

Section Debounced.

(** The arguments of a call, [...args]. *)
Context {A : Type}.

(** The closure's [timeoutId], the host's pending timers set by the
    closure, each with the arguments its callback passes to [func], and
    the arguments [func] has been called with. A timer id is truthy. *)
Record t : Type := {
  timeoutId : option positive;
  nextTimer : positive;
  timers : gmap positive A;
  calls : list A
}.

Definition initial : t :=
  {| timeoutId := None; nextTimer := 1; timers := ∅; calls := [] |}.

(** One call of the function [debounce] returns. *)
Definition debounced (args : A) (s : t) : t :=
  let pending :=
    match timeoutId s with
    | Some h => delete h (timers s)
    | None => timers s
    end in
  {| timeoutId := Some (nextTimer s);
     nextTimer := Pos.succ (nextTimer s);
     timers := <[nextTimer s := args]> pending;
     calls := calls s |}.

(** A pending timer fires and its callback calls [func(...args)]. *)
Definition timer_fires (h : positive) (s : t) : t :=
  match timers s !! h with
  | Some args =>
      {| timeoutId := timeoutId s; nextTimer := nextTimer s;
         timers := delete h (timers s); calls := calls s ++ [args] |}
  | None => s
  end.

Inductive Action : Type :=
| Call (args : A)
| TimerFires (h : positive).

Definition step (s : t) (a : Action) : t :=
  match a with
  | Call args => debounced args s
  | TimerFires h => timer_fires h s
  end.

Definition run (actions : list Action) (s : t) : t := foldl step s actions.

End Debounced.

Arguments t : clear implicits.
Arguments Action : clear implicits.

End Debounce.

(** ** [throttle] *)

Module Throttle.

Section Throttled.

(** The arguments of a call, [...args], and the [delay]. *)
Context {A : Type}.
Variable delay : Q.

(** A call of [func]: the time [Date.now()] gave, the arguments, and
    whether a timer made it. *)
Record Exec : Type := {
  at_time : Q;
  args_of : A;
  from_timer : bool
}.

(** The closure's [timeoutId] and [lastExecTime], the host's pending
    timers set by the closure, each with the arguments its callback
    passes to [func], and the calls of [func] so far. *)
Record t : Type := {
  timeoutId : option positive;
  lastExecTime : Q;
  nextTimer : positive;
  timers : gmap positive A;
  calls : list Exec
}.

Definition initial : t :=
  {| timeoutId := None; lastExecTime := 0; nextTimer := 1; timers := ∅;
     calls := [] |}.

(** One call of the function [throttle] returns, [currentTime] being
    what [Date.now()] gives in it. *)
Definition throttled (args : A) (currentTime : Q) (s : t) : t :=
  if JS.Qlt_bool delay (currentTime - lastExecTime s) then
    {| timeoutId := timeoutId s; lastExecTime := currentTime;
       nextTimer := nextTimer s; timers := timers s;
       calls := calls s ++ [{| at_time := currentTime; args_of := args;
                               from_timer := false |}] |}
  else
    let pending :=
      match timeoutId s with
      | Some h => delete h (timers s)
      | None => timers s
      end in
    {| timeoutId := Some (nextTimer s); lastExecTime := lastExecTime s;
       nextTimer := Pos.succ (nextTimer s);
       timers := <[nextTimer s := args]> pending;
       calls := calls s |}.

(** A pending timer fires at the time [now]. *)
Definition timer_fires (h : positive) (now : Q) (s : t) : t :=
  match timers s !! h with
  | Some args =>
      {| timeoutId := timeoutId s; lastExecTime := now;
         nextTimer := nextTimer s; timers := delete h (timers s);
         calls := calls s ++ [{| at_time := now; args_of := args;
                                 from_timer := true |}] |}
  | None => s
  end.

Inductive Action : Type :=
| Call (args : A) (currentTime : Q)
| TimerFires (h : positive) (now : Q).


Definition step (s : t) (a : Action) : t :=
  match a with
  | Call args currentTime => throttled args currentTime s
  | TimerFires h now => timer_fires h now s
  end.

Definition run (actions : list Action) (s : t) : t := foldl step s actions.

End Throttled.

Arguments Exec : clear implicits.
Arguments t : clear implicits.
Arguments Action : clear implicits.

End Throttle.

(** ** [AnimationPerformanceMonitor.destroy]

    [rafId] is left as it was. *)
Definition destroy_monitor (w : World) : World :=
  let w :=
    match Monitor.rafId (monitor w) with
    | Some h => with_browser (Browser.cancelAnimationFrame h) w
    | None => w
    end in
  let w := with_monitor (Monitor.set_callbacks []) w in
  with_monitor (Monitor.set_activeAnimations ∅) w.

(** ** The frame counter of the utilities (the second class named
    [AnimationPerformanceMonitor]) *)

Module FrameCounter.

(** [warnings] are the rates passed to [console.warn]. *)
Record t : Type := {
  frameCount : nat;
  lastTime : Q;
  fps : JS.JsNumber;
  warnings : list JS.JsNumber
}.


(** One call of [measure], [now] being what [performance.now()] gives
    in it and [development] whether [NODE_ENV] is [development]. The
    call ends by passing [measure] to [raf]. *)
Definition measure (development : bool) (now : Q) (s : t) : t :=
  let delta := now - lastTime s in
  let s :=
    if Qle_bool 1000 delta then
      let rate :=
        JS.round (JS.div (Monitor.count (frameCount s) * 1000) delta) in
      {| frameCount := 0; lastTime := now; fps := rate;
         warnings :=
           if JS.lt rate 30 && development then warnings s ++ [rate]
           else warnings s |}
    else s in
  {| frameCount := S (frameCount s); lastTime := lastTime s; fps := fps s;
     warnings := warnings s |}.

(** [start] and the frames that follow: one call of [measure] at each
    of the times. *)
Definition measure_all (development : bool) (times : list Q) (s : t) : t :=
  foldl (fun s now => measure development now s) s times.


End FrameCounter.

(** ** Notions used to state the properties *)

Section Notions.

Import Monitor.

(** The table of the specification: the level as a function of the
    window's average frames per second alone. *)
Definition claimed_quality (fps : JS.JsNumber) : QualityLevel :=
  if JS.ge fps 55 then ultra
  else if JS.ge fps 50 then high
  else if JS.ge fps 40 then medium
  else if JS.ge fps 30 then low
  else minimal.

(** The four tests of [adjustQuality], in the order it makes them. *)
Definition ultra_test (m : Monitor.t) : bool :=
  JS.ge (windowFps m) 55 && JS.lt (droppedFrameRatio m) 0.05.
Definition high_test (m : Monitor.t) : bool :=
  JS.ge (windowFps m) 50 && JS.lt (droppedFrameRatio m) 0.1.
Definition medium_test (m : Monitor.t) : bool :=
  JS.ge (windowFps m) 40 && JS.lt (droppedFrameRatio m) 0.15.
Definition low_test (m : Monitor.t) : bool :=
  JS.ge (windowFps m) 30.

(** What a subscriber shows to the outside when it is called. *)
Definition notification (metrics : PerformanceMetrics) (s : Subscriber)
  : option Event :=
  match s with
  | QueueConcurrencySubscriber => None
  | OpaqueSubscriber tag => Some (Notified tag metrics)
  | ThrowingSubscriber tag _ => Some (Notified tag metrics)
  end.

(** The subscribers [forEach] reaches: those up to and including the
    first one that throws. *)
Fixpoint called (subs : list Subscriber) : list Subscriber :=
  match subs with
  | [] => []
  | s :: rest =>
      match subscriber_outcome s with
      | Returned => s :: called rest
      | Threw _ => [s]
      end
  end.

(** How the walk over the subscribers ends. *)
Fixpoint walk_outcome (subs : list Subscriber) : Outcome :=
  match subs with
  | [] => Returned
  | s :: rest =>
      match subscriber_outcome s with
      | Returned => walk_outcome rest
      | Threw error => Threw error
      end
  end.

(** The buffer after [push] and the conditional [shift]. *)
Definition pushed (frameTime : Q) (l : list Q) : list Q :=
  if Nat.ltb 60 (length (l ++ [frameTime])) then tail (l ++ [frameTime])
  else l ++ [frameTime].

(** The monitor after the statements of [record_frame] that precede the
    test for a full buffer. *)
Definition sampled (timestamp : Q) (m : Monitor.t) : Monitor.t :=
  let frameTime := timestamp - lastFrameTime m in
  let m := set_frameTimings (pushed frameTime (frameTimings m)) m in
  if JS.Qlt_bool 33 frameTime
  then set_droppedFrames (S (droppedFrames m)) m else m.

(** Whether the frame completes a window: a sample is taken and the
    buffer then holds exactly sixty. *)
Definition completes_window (timestamp : Q) (w : World) : bool :=
  JS.truthy (lastFrameTime (monitor w))
  && Nat.eqb (length (frameTimings (sampled timestamp (monitor w)))) 60.

(** The world after the guarded statements of [measure]. *)
Definition recorded (timestamp : Q) (w : World) : World :=
  if JS.truthy (lastFrameTime (monitor w))
  then fst (record_frame timestamp w) else w.

(** The invariant of the sample buffer: never more than sixty samples,
    and a full buffer has just been judged, which reset the counter of
    dropped frames. *)
Definition buffer_ok (m : Monitor.t) : Prop :=
  (length (frameTimings m) <= 60)%nat /\
  (length (frameTimings m) = 60%nat -> droppedFrames m = 0%nat).

(** Module initialisation in a browser: the monitor singleton is built and
    starts monitoring; no queue has been asked for yet, the queue of the
    world is a stopped one. *)
Definition boot (b : Browser.t) : World :=
  startMonitoring
    {| monitor := Monitor.initial;
       animationQueue :=
         Queue.fresh {| optMaxConcurrent := None; optAutoStart := Some false;
                        optFrameBudget := None |};
       browser := b; suspended := [] |}.

(** The first call of [getGlobalAnimationQueue]. *)
Definition getGlobalAnimationQueue (w : World) : World :=
  let w := new_AnimationQueue
             {| optMaxConcurrent := Some 3; optAutoStart := Some true;
                optFrameBudget := None |} w in
  with_monitor (Monitor.subscribe QueueConcurrencySubscriber) w.

(** A browser in which [performance.now()] advances by one millisecond at
    each call. *)
Definition ticking_browser : Browser.t :=
  {| Browser.nextHandle := 1; Browser.frameCallbacks := ∅;
     Browser.clock := fun n => inject_Z (Z.of_nat n);
     Browser.clockReads := 0; Browser.memory := None; Browser.trace := [] |}.

(** The timestamps of successive frames, from their durations. *)
Fixpoint timestamps_from (start : Q) (frameTimes : list Q) : list Q :=
  match frameTimes with
  | [] => [start]
  | d :: rest => start :: timestamps_from (start + d) rest
  end.

(** A page that starts with seven slow frames of 40 ms followed by
    fifty-three frames of 10 ms: the frame durations, the timestamps the
    browser passes to [measure], and the monitor when the sixtieth sample
    has been taken. *)
Definition janky_frames : list Q := replicate 7 40 ++ replicate 53 10.

Definition janky_timestamps : list Q := timestamps_from 1000 janky_frames.

Definition janky_window : Monitor.t :=
  {| frameTimings := janky_frames; lastFrameTime := 1800;
     droppedFrames := 7; qualityLevel := high; animationBudget := 16.67;
     activeAnimations := ∅; rafId := Some 61%positive; callbacks := [] |}.

(** An item with no cleanup and no duration. *)
Definition plain_item (id : string) (priority : Q) (execute : ExecuteBehaviour)
  : Item.t :=
  {| Item.id := id; Item.priority := priority; Item.execute := execute;
     Item.cleanup := None; Item.duration := None; Item.timestamp := None |}.

(** A page that asked for the global queue, queued a background glow and
    was then judged [minimal] by the monitor. *)
Definition degraded_page : World :=
  with_monitor (set_quality minimal 50)
    (add (plain_item "glow" AnimationPriority.LOW ReturnsVoid)
       (getGlobalAnimationQueue (boot ticking_browser))).

(** The test at the head of [add]: the id is among the completed
    animations or in the executing map. *)
Definition known (w : World) (item : Item.t) : bool :=
  bool_decide (Item.id item ∈ Queue.completedAnimations (animationQueue w))
  || bool_decide (is_Some (Queue.executing (animationQueue w) !! Item.id item)).

(** Insertion as the specification words it: immediately before the
    first queued item of strictly greater priority, at the end when there
    is none. *)
Fixpoint insert_before_first_greater (x : Item.t) (l : list Item.t)
  : list Item.t :=
  match l with
  | [] => [x]
  | y :: rest =>
      if JS.Qlt_bool (Item.priority x) (Item.priority y) then x :: y :: rest
      else y :: insert_before_first_greater x rest
  end.

(** Non-decreasing numeric priority along the queue. *)
Definition priority_sorted (q : list Item.t) : Prop :=
  StronglySorted (fun a b => Item.priority a <= Item.priority b) q.

(** The items of one priority, in queue order. *)
Definition with_priority (p : Q) (q : list Item.t) : list Item.t :=
  List.filter (fun i => Qeq_bool (Item.priority i) p) q.

(** Items as the caller passed them, before [add] stamped them. *)
Definition untimed (q : list Item.t) : list Item.t :=
  map (Item.set_timestamp None) q.

(** The items of a batch that [add] lets in. *)
Definition admitted (w : World) (items : list Item.t) : list Item.t :=
  List.filter (fun i => negb (known w i)) items.

(** The time [add] reads for the timestamp. *)
Definition add_time (w : World) : Q :=
  Browser.clock (browser w) (Browser.clockReads (browser w)).

(** The bookkeeping at the end of the [finally] block, seen from the
    world [before] the execution (or its continuation) ran: the item is
    taken out of the executing map, its id is added to the completed set
    (which is emptied when it thereby grows beyond a hundred ids), the
    monitor forgets the id, and the queue and the other suspended
    executions are untouched. *)
Definition settled (item : Item.t) (before after : World) : Prop :=
  Queue.executing (animationQueue after) =
    delete (Item.id item) (Queue.executing (animationQueue before)) /\
  Queue.completedAnimations (animationQueue after) =
    (let added :=
       {[ Item.id item ]} ∪ Queue.completedAnimations (animationQueue before) in
     if Nat.ltb 100 (size added) then ∅ else added) /\
  activeAnimations (monitor after) =
    activeAnimations (monitor before) ∖ {[ Item.id item ]} /\
  Queue.queue (animationQueue after) = Queue.queue (animationQueue before) /\
  suspended after = suspended before.

(** A batch of four animations, as a page might queue them. *)
Definition page_batch : list Item.t :=
  [ plain_item "glow" AnimationPriority.LOW ReturnsVoid;
    plain_item "route" AnimationPriority.CRITICAL ReturnsVoid;
    plain_item "sparkle" AnimationPriority.LOW ReturnsVoid;
    plain_item "press" AnimationPriority.HIGH (ThrowsError "boom") ].

(** The part of the monitor [buffer_ok] speaks of. *)
Definition buffer_of (w : World) : list Q * nat :=
  (frameTimings (monitor w), droppedFrames (monitor w)).

(** A change of the world that touches neither the sample buffer nor the
    queued items. *)
Definition quiet (w w' : World) : Prop :=
  buffer_of w' = buffer_of w /\
  Queue.queue (animationQueue w') = Queue.queue (animationQueue w).

(** What every run preserves. *)
Definition well_formed (w : World) : Prop :=
  buffer_ok (monitor w) /\ priority_sorted (Queue.queue (animationQueue w)).

(** The levels from best to worst, numbered. *)
Definition quality_rank (l : QualityLevel) : nat :=
  match l with
  | ultra => 0
  | high => 1
  | medium => 2
  | low => 3
  | minimal => 4
  end.

(** What decides when the queue and the monitor run next: their frame
    handles, the running flag, the concurrency limit, and the browser's
    list of frame callbacks with its next handle. *)
Definition scheduling (w : World)
  : option positive * bool * Q * gmap positive FrameCallback * positive
    * option positive :=
  (Queue.rafId (animationQueue w), Queue.isRunning (animationQueue w),
   Queue.maxConcurrent (animationQueue w),
   Browser.frameCallbacks (browser w), Browser.nextHandle (browser w),
   rafId (monitor w)).


(** The number of completed ids, as [completedAnimations.size]. *)
Definition completed_size (w : World) : nat :=
  size (Queue.completedAnimations (animationQueue w)).

(** The fields that decide which frame callbacks are pending and who
    holds their handles: the queue's handle and running flag, the
    browser's callbacks and next handle, the monitor's handle. *)
Definition FrameView : Type :=
  option positive * bool * gmap positive FrameCallback * positive
  * option positive.

Definition frame_view (w : World) : FrameView :=
  (Queue.rafId (animationQueue w), Queue.isRunning (animationQueue w),
   Browser.frameCallbacks (browser w), Browser.nextHandle (browser w),
   rafId (monitor w)).

(** Every registered handle is older than the next one to be issued. *)
Definition handles_fresh (v : FrameView) : Prop :=
  let '(_, _, cbs, next, _) := v in
  forall (h : positive) (cb : FrameCallback),
    cbs !! h = Some cb -> (h < next)%positive.

(** The queue's callback is pending under the handle the queue holds,
    and under no other. *)
Definition queue_callback_held (v : FrameView) : Prop :=
  let '(qraf, _, cbs, _, _) := v in
  forall h : positive, cbs !! h = Some ProcessCallback <-> qraf = Some h.

(** The same for the monitor. *)
Definition monitor_callback_held (v : FrameView) : Prop :=
  let '(_, _, cbs, _, mraf) := v in
  forall h : positive, cbs !! h = Some MeasureCallback <-> mraf = Some h.

(** A queue that is not running holds no handle. *)
Definition paused_idle (v : FrameView) : Prop :=
  let '(qraf, running, _, _, _) := v in running = false -> qraf = None.

Definition monitoring (v : FrameView) : Prop :=
  let '(_, _, _, _, mraf) := v in mraf <> None.

(** Something is queued or executing. *)
Definition has_work (w : World) : Prop :=
  Queue.queue (animationQueue w) <> [] \/
  Queue.executing (animationQueue w) <> ∅.

(** The discipline of frame callbacks between two actions of a run. *)
Definition frames_ok (w : World) : Prop :=
  handles_fresh (frame_view w) /\
  queue_callback_held (frame_view w) /\
  monitor_callback_held (frame_view w) /\
  monitoring (frame_view w) /\
  paused_idle (frame_view w) /\
  (Queue.isRunning (animationQueue w) = true -> has_work w ->
   Queue.rafId (animationQueue w) <> None).

(** The discipline once an exception has left the monitor's callback:
    the queue's callbacks are held as before, and no callback of the
    monitor is pending. *)
Definition frames_stopped (w : World) : Prop :=
  handles_fresh (frame_view w) /\
  queue_callback_held (frame_view w) /\
  paused_idle (frame_view w) /\
  (forall h : positive,
     Browser.frameCallbacks (browser w) !! h <> Some MeasureCallback) /\
  (Queue.isRunning (animationQueue w) = true -> has_work w ->
   Queue.rafId (animationQueue w) <> None).

(** How an action of a run ends: an exception can only leave the frame
    callback of the monitor. *)
Definition step_outcome (w : World) (a : Action) : Outcome :=
  match a with
  | Frame h timestamp =>
      match Browser.frameCallbacks (browser w) !! h with
      | Some MeasureCallback =>
          measure_outcome timestamp
            (with_browser (Browser.cancelAnimationFrame h) w)
      | _ => Returned
      end
  | _ => Returned
  end.

(** The first exception that leaves an action of the run, if any. *)
Fixpoint run_outcome (actions : list Action) (w : World) : Outcome :=
  match actions with
  | [] => Returned
  | a :: rest =>
      match step_outcome w a with
      | Returned => run_outcome rest (step w a)
      | Threw error => Threw error
      end
  end.

(** What [processQueue] does to the view. *)
Definition schedule_view (v : FrameView) : FrameView :=
  let '(qraf, running, cbs, next, mraf) := v in
  if running then
    match qraf with
    | Some _ => v
    | None =>
        (Some next, running, <[next := ProcessCallback]> cbs, Pos.succ next,
         mraf)
    end
  else v.

(** The state of the view while the monitor's callback runs: its handle
    has been taken off the browser's list. *)
Definition measuring (v : FrameView) : Prop :=
  handles_fresh v /\ queue_callback_held v /\ paused_idle v /\
  let '(_, _, cbs, _, _) := v in
  forall h : positive, cbs !! h <> Some MeasureCallback.

Definition view_ok (v : FrameView) : Prop :=
  handles_fresh v /\ queue_callback_held v /\ monitor_callback_held v /\
  monitoring v /\ paused_idle v.

Definition view_handle (v : FrameView) : option positive :=
  let '(qraf, _, _, _, _) := v in qraf.

Definition view_running (v : FrameView) : bool :=
  let '(_, running, _, _, _) := v in running.

(** The limit the subscriber of [getGlobalAnimationQueue] chooses for a
    rounded frame rate. *)
Definition concurrency_for (fps : JS.JsNumber) : Q :=
  if JS.lt fps 30 then 1 else if JS.lt fps 45 then 2 else 3.

(** The cleanup of an item, if it has one, returns. *)
Definition cleanup_returns (item : Item.t) : Prop :=
  Item.cleanup item = None \/ Item.cleanup item = Some CleanupReturns.

(** A page with an animation that is waiting for its duration to
    elapse, and whose cleanup returns. *)
Definition fading_item : Item.t :=
  {| Item.id := "fade"; Item.priority := AnimationPriority.HIGH;
     Item.execute := ReturnsVoid; Item.cleanup := Some CleanupReturns;
     Item.duration := Some 300; Item.timestamp := None |}.

Definition fading_page : World :=
  run [CallAdd fading_item; Frame 2 16; CallAdd (plain_item "glow" AnimationPriority.LOW ReturnsVoid)]
    (getGlobalAnimationQueue (boot ticking_browser)).


(** The world in which the items [head] at the front of the queue have
    been taken off it and unregistered from the monitor without being
    executed: what remains queued is [rest], and the clock was read once
    for each of them. *)
Definition discarded (head rest : list Item.t) (w : World) : World :=
  {| monitor := unregister_all head (monitor w);
     animationQueue := Queue.set_queue rest (animationQueue w);
     browser :=
       {| Browser.nextHandle := Browser.nextHandle (browser w);
          Browser.frameCallbacks := Browser.frameCallbacks (browser w);
          Browser.clock := Browser.clock (browser w);
          Browser.clockReads := Browser.clockReads (browser w) + length head;
          Browser.memory := Browser.memory (browser w);
          Browser.trace := Browser.trace (browser w) |};
     suspended := suspended w |}.

(** A browser whose clock stands still. *)
Definition still_browser : Browser.t :=
  {| Browser.nextHandle := 1; Browser.frameCallbacks := ∅;
     Browser.clock := fun _ => 1000;
     Browser.clockReads := 0; Browser.memory := None; Browser.trace := [] |}.

(** Eight cards that fade in, queued together on a page that has just
    asked for the global queue. *)
Definition card (id : string) : Item.t :=
  plain_item id AnimationPriority.MEDIUM ReturnsPromise.

Definition cards : list Item.t :=
  map card ["card-0"; "card-1"; "card-2"; "card-3";
            "card-4"; "card-5"; "card-6"; "card-7"].

Definition cards_page : World :=
  addBatch cards (getGlobalAnimationQueue (boot still_browser)).

(** What the will-change manager keeps true: an element has a hint
    exactly when it has a timer; its timer is pending, and every pending
    timer is the one recorded for its element; the style of an element
    with a hint lists its properties, each once, and the style of an
    element the manager wrote and has no hint for is [auto]. *)
Definition hints_timed (s : WillChange.t) : Prop :=
  (forall e : positive,
     is_Some (WillChange.elements s !! e) <->
     is_Some (WillChange.timeouts s !! e)) /\
  (forall e h : positive,
     WillChange.timeouts s !! e = Some h <-> WillChange.timers s !! h = Some e) /\
  (forall h : positive,
     is_Some (WillChange.timers s !! h) -> (h < WillChange.nextTimer s)%positive) /\
  (forall (e : positive) (props : list string),
     WillChange.elements s !! e = Some props ->
     NoDup props /\
     WillChange.style s !! e = Some (WillChange.join ", " props)) /\
  (forall (e : positive) (v : string),
     WillChange.elements s !! e = None ->
     WillChange.style s !! e = Some v -> v = "auto").

(** The callbacks of kind [k] that the callbacks [fns] queue when they
    are called. *)
Definition queued_by (k : DOMBatcher.Kind) (fns : list DOMBatcher.Task)
  : list DOMBatcher.Task :=
  flat_map
    (fun fn =>
       flat_map
         (fun c : DOMBatcher.Call =>
            match k, c with
            | DOMBatcher.Read, DOMBatcher.Queue DOMBatcher.Read fn'
            | DOMBatcher.Write, DOMBatcher.Queue DOMBatcher.Write fn' => [fn']
            | _, _ => []
            end)
         (DOMBatcher.calls fn))
    fns.

Definition returns (fn : DOMBatcher.Task) : Prop :=
  DOMBatcher.throws fn = false.

(** A batcher that waits for a frame that is not coming. *)
Definition stuck (s : DOMBatcher.t) : Prop :=
  DOMBatcher.scheduled s = true /\ DOMBatcher.frames s = 0%nat.

(** A callback that measures and queues a write, one that throws, and
    plain ones. *)
Definition plain_task (name : string) : DOMBatcher.Task :=
  DOMBatcher.MkTask name [] false.

Definition measure_then_move : DOMBatcher.Task :=
  DOMBatcher.MkTask "measure"
    [DOMBatcher.Queue DOMBatcher.Write (plain_task "move")] false.

Definition failing_task : DOMBatcher.Task :=
  DOMBatcher.MkTask "fail" [] true.

(** The arguments of the calls of a debounced function in a run. *)
Definition asked {A : Type} (actions : list (Debounce.Action A)) : list A :=
  omap (fun a => match a with
                 | Debounce.Call args => Some args
                 | Debounce.TimerFires _ => None
                 end) actions.

(** A debounced function at rest has passed on the latest arguments; one
    that waits holds them in its only timer. Either way [func] was called
    with some of the earlier arguments, in their order. *)
Definition debounce_settled {A : Type} (asked : list A) (s : Debounce.t A)
  : Prop :=
  Debounce.timers s = ∅ /\
  sublist (Debounce.calls s) asked /\
  last (Debounce.calls s) = last asked.

Definition debounce_waiting {A : Type} (asked : list A) (s : Debounce.t A)
  : Prop :=
  exists (h : positive) (args : A) (earlier : list A),
    Debounce.timers s = {[ h := args ]} /\
    Debounce.timeoutId s = Some h /\
    asked = earlier ++ [args] /\
    sublist (Debounce.calls s) earlier.





(** The notifications subscribers have shown, in order. *)
Definition notified (trace : list Event) : list (nat * PerformanceMetrics) :=
  omap (fun e => match e with
                 | Notified tag metrics => Some (tag, metrics)
                 | _ => None
                 end) trace.

(** What the monitor has measured and decided, and whom it has told. *)
Definition readings (w : World)
  : list Q * Q * nat * QualityLevel * Q * list (nat * PerformanceMetrics) :=
  (frameTimings (monitor w), lastFrameTime (monitor w),
   droppedFrames (monitor w), qualityLevel (monitor w),
   animationBudget (monitor w), notified (Browser.trace (browser w))).

(** No frame callback of the monitor is pending. *)
Definition unmeasured (w : World) : Prop :=
  forall h : positive,
    Browser.frameCallbacks (browser w) !! h <> Some MeasureCallback.

(** A change of the world that leaves the readings alone and registers
    no frame callback of the monitor. *)
Definition silent (w w' : World) : Prop :=
  readings w' = readings w /\
  forall h : positive,
    Browser.frameCallbacks (browser w') !! h = Some MeasureCallback ->
    Browser.frameCallbacks (browser w) !! h = Some MeasureCallback.

(** The times of [n] frames that follow each other at intervals of [d]
    milliseconds, the first at [start]. *)
Definition steady_frames (start d : Q) (n : nat) : list Q :=
  map (fun i => start + count i * d) (seq 0 n).


(** A page that has been open for a while: a hundred animations have
    completed on its global queue. *)
Definition long_lived_page : World :=
  with_queue
    (Queue.set_completedAnimations
       (list_to_set (map (fun n : nat => pretty n) (seq 0 100))))
    (getGlobalAnimationQueue (boot ticking_browser)).

(** [Number.isFinite] and [Number.isNaN], and whether a number is a
    zero of either sign. *)
Definition number_isFinite (x : float) : bool :=
  match Prim2SF x with
  | S754_zero _ | S754_finite _ _ _ => true
  | _ => false
  end.

Definition number_isNaN (x : float) : bool :=
  match Prim2SF x with
  | S754_nan => true
  | _ => false
  end.

Definition number_isZero (x : float) : bool :=
  match Prim2SF x with
  | S754_zero _ => true
  | _ => false
  end.

(** The numbers written [0.3] and [0.9], which are the quotients rounded
    to nearest, and [Number.MAX_VALUE]. *)
Definition three_tenths : float := PrimFloat.div 3%float 10%float.

Definition nine_tenths : float := PrimFloat.div 9%float 10%float.

Definition largest_number : float := PrimFloat.next_down PrimFloat.infinity.

(** Two to the power 1023. *)
Definition huge_number : float := 0x1p1023%float.







(** [order] lists the items of the executing map, each once: an order
    in which the map may be walked. *)
Definition walk_of_executing (order : list Item.t) (w : World) : Prop :=
  order ≡ₚ (map_to_list (Queue.executing (animationQueue w))).*2.

(** A page on which the animation "late" started before the animation
    "early", both waiting for their duration to elapse; the cleanup of
    "early" throws. *)
Definition lasting_item (id : string) (cleanup : CleanupBehaviour) : Item.t :=
  {| Item.id := id; Item.priority := AnimationPriority.HIGH;
     Item.execute := ReturnsVoid; Item.cleanup := Some cleanup;
     Item.duration := Some 300; Item.timestamp := None |}.

Definition failing_page : World :=
  run [CallAdd (lasting_item "late" CleanupReturns);
       CallAdd (lasting_item "early" (CleanupThrows "tooltip gone"));
       Frame 2 16]
    (getGlobalAnimationQueue (boot ticking_browser)).

(** The frames of the monitor alone on a page whose queue is stopped:
    the [i]-th runs the handle the monitor was given on the frame
    before, at intervals of [d] milliseconds. *)
Definition monitor_frames (start d : Q) (n : nat) : list Action :=
  map (fun i => Frame (Pos.of_nat (S i)) (start + count i * d)) (seq 0 n).

End Notions.

(** * Properties *)

(** ** Facts on JavaScript numbers *)

Module JSFacts.

Import JS.

Lemma Qlt_bool_iff (a b : Q) : Qlt_bool a b = true <-> a < b.
Proof.
  unfold Qlt_bool. rewrite negb_true_iff.
  destruct (Qle_bool b a) eqn:E.
  - apply Qle_bool_iff in E. split; [discriminate | lra].
  - split; [intros _ | reflexivity].
    apply Qnot_le_lt. intros H. apply Qle_bool_iff in H. congruence.
Qed.

Lemma Qlt_bool_false_iff (a b : Q) : Qlt_bool a b = false <-> b <= a.
Proof.
  unfold Qlt_bool. rewrite negb_false_iff. apply Qle_bool_iff.
Qed.

(** A larger threshold is harder to reach. *)
Lemma ge_weaken (x : JsNumber) (s t : Q) :
  s <= t -> ge x t = true -> ge x s = true.
Proof.
  destruct x; simpl; try congruence.
  rewrite !Qle_bool_iff. lra.
Qed.

Lemma lt_weaken (x : JsNumber) (s t : Q) :
  s <= t -> lt x s = true -> lt x t = true.
Proof.
  destruct x; simpl; try congruence.
  rewrite !Qlt_bool_iff. lra.
Qed.

End JSFacts.


(** ** Quality levels *)

Section Quality.

Import Monitor.

Lemma adjustQuality_frameTimings (m : Monitor.t) :
  frameTimings (adjustQuality m) = frameTimings m.
Proof.
  unfold adjustQuality.
  repeat match goal with |- context [if ?c then _ else _] => destruct c end;
    reflexivity.
Qed.

Lemma adjustQuality_droppedFrames (m : Monitor.t) :
  droppedFrames (adjustQuality m) = 0%nat.
Proof.
  unfold adjustQuality.
  repeat match goal with |- context [if ?c then _ else _] => destruct c end;
    reflexivity.
Qed.

Lemma adjustQuality_decision (m : Monitor.t) :
  qualityLevel (adjustQuality m) =
  if ultra_test m then ultra
  else if high_test m then high
  else if medium_test m then medium
  else if low_test m then low
  else minimal.
Proof.
  unfold adjustQuality, ultra_test, high_test, medium_test, low_test.
  repeat match goal with |- context [if ?c then _ else _] => destruct c end;
    reflexivity.
Qed.

(** The tests are nested: each one implies the next. *)
Lemma tier_nested (fps ratio : JS.JsNumber) (a b c d : Q) :
  b <= a -> c <= d ->
  JS.ge fps a && JS.lt ratio c = true ->
  JS.ge fps b && JS.lt ratio d = true.
Proof.
  intros Hba Hcd. rewrite !andb_true_iff. intros [H1 H2]. split.
  - eapply JSFacts.ge_weaken; eassumption.
  - eapply JSFacts.lt_weaken; eassumption.
Qed.

Lemma ultra_high_test (m : Monitor.t) :
  ultra_test m = true -> high_test m = true.
Proof. apply tier_nested; lra. Qed.

Lemma high_medium_test (m : Monitor.t) :
  high_test m = true -> medium_test m = true.
Proof. apply tier_nested; lra. Qed.

Lemma medium_low_test (m : Monitor.t) :
  medium_test m = true -> low_test m = true.
Proof.
  unfold medium_test, low_test. rewrite andb_true_iff. intros [H _].
  apply (JSFacts.ge_weaken _ 30 40); [lra | exact H].
Qed.

Ltac tiers m :=
  rewrite (adjustQuality_decision m);
  pose proof (ultra_high_test m); pose proof (high_medium_test m);
  pose proof (medium_low_test m);
  destruct (ultra_test m), (high_test m), (medium_test m), (low_test m);
  intuition congruence.

Lemma adjustQuality_ultra (m : Monitor.t) :
  qualityLevel (adjustQuality m) = ultra <-> ultra_test m = true.
Proof. tiers m. Qed.

Lemma adjustQuality_high (m : Monitor.t) :
  qualityLevel (adjustQuality m) = high <->
  ultra_test m = false /\ high_test m = true.
Proof. tiers m. Qed.

Lemma adjustQuality_medium (m : Monitor.t) :
  qualityLevel (adjustQuality m) = medium <->
  high_test m = false /\ medium_test m = true.
Proof. tiers m. Qed.

Lemma adjustQuality_low (m : Monitor.t) :
  qualityLevel (adjustQuality m) = low <->
  medium_test m = false /\ low_test m = true.
Proof. tiers m. Qed.

Lemma adjustQuality_minimal (m : Monitor.t) :
  qualityLevel (adjustQuality m) = minimal <-> low_test m = false.
Proof. tiers m. Qed.

(** With fewer than one dropped frame in twenty, the level is the
    specification's function of the average frame rate. *)
Lemma adjustQuality_few_dropped (m : Monitor.t) :
  JS.lt (droppedFrameRatio m) 0.05 = true ->
  qualityLevel (adjustQuality m) = claimed_quality (windowFps m).
Proof.
  intros H. rewrite adjustQuality_decision.
  unfold ultra_test, high_test, medium_test, low_test, claimed_quality.
  rewrite H.
  rewrite (JSFacts.lt_weaken _ 0.05 0.1), (JSFacts.lt_weaken _ 0.05 0.15);
    try assumption; try lra.
  rewrite !andb_true_r. reflexivity.
Qed.

End Quality.

(** ** The sample buffer *)

Section SampleBuffer.

Import Monitor.

Lemma processQueue_monitor (w : World) : monitor (processQueue w) = monitor w.
Proof.
  unfold processQueue.
  destruct (negb (Queue.isRunning (animationQueue w))); [reflexivity|].
  destruct (negb (has_rafId w)); reflexivity.
Qed.

Lemma processQueue_trace (w : World) :
  Browser.trace (browser (processQueue w)) = Browser.trace (browser w).
Proof.
  unfold processQueue.
  destruct (negb (Queue.isRunning (animationQueue w))); [reflexivity|].
  destruct (negb (has_rafId w)); reflexivity.
Qed.

Lemma setMaxConcurrent_monitor (max : Q) (w : World) :
  monitor (setMaxConcurrent max w) = monitor w.
Proof.
  unfold setMaxConcurrent.
  destruct (Queue.isRunning _); rewrite ?processQueue_monitor; reflexivity.
Qed.

Lemma setMaxConcurrent_trace (max : Q) (w : World) :
  Browser.trace (browser (setMaxConcurrent max w)) = Browser.trace (browser w).
Proof.
  unfold setMaxConcurrent.
  destruct (Queue.isRunning _); rewrite ?processQueue_trace; reflexivity.
Qed.

Lemma call_subscriber_monitor metrics (w : World) (s : Subscriber) :
  monitor (subscriber_effect metrics w s) = monitor w.
Proof.
  destruct s; simpl; [|reflexivity..].
  unfold queue_concurrency.
  repeat match goal with |- context [if ?c then _ else _] => destruct c end;
    apply setMaxConcurrent_monitor.
Qed.

Lemma call_subscriber_trace metrics (w : World) (s : Subscriber) :
  Browser.trace (browser (subscriber_effect metrics w s)) =
  Browser.trace (browser w) ++ option_list (notification metrics s).
Proof.
  destruct s; simpl; [|reflexivity..].
  rewrite app_nil_r. unfold queue_concurrency.
  repeat match goal with |- context [if ?c then _ else _] => destruct c end;
    apply setMaxConcurrent_trace.
Qed.

Lemma call_subscribers_monitor metrics (subs : list Subscriber) (w : World) :
  monitor (foldl (subscriber_effect metrics) w subs) = monitor w.
Proof.
  revert w. induction subs as [|s subs IH]; intros w; simpl; [reflexivity|].
  rewrite IH. apply call_subscriber_monitor.
Qed.

Lemma call_subscribers_trace metrics (subs : list Subscriber) (w : World) :
  Browser.trace (browser (foldl (subscriber_effect metrics) w subs)) =
  Browser.trace (browser w) ++ omap (notification metrics) subs.
Proof.
  revert w. induction subs as [|s subs IH]; intros w; simpl.
  - symmetry. apply app_nil_r.
  - rewrite IH, call_subscriber_trace, <- app_assoc. f_equal.
    destruct s; reflexivity.
Qed.

Lemma forEach_callback_called metrics (subs : list Subscriber) (w : World) :
  forEach_callback metrics subs w =
  (foldl (subscriber_effect metrics) w (called subs), walk_outcome subs).
Proof.
  revert w. induction subs as [|s subs IH]; intros w; [reflexivity|].
  cbn [forEach_callback called walk_outcome]. unfold call_subscriber.
  destruct (subscriber_outcome s); [apply IH | reflexivity].
Qed.

Lemma notifyCallbacks_called (w : World) :
  notifyCallbacks w =
  (foldl (subscriber_effect
            (getMetrics (Browser.memory (browser w)) (monitor w)))
     w (called (callbacks (monitor w))),
   walk_outcome (callbacks (monitor w))).
Proof. apply forEach_callback_called. Qed.

Lemma notifyCallbacks_monitor (w : World) :
  monitor (fst (notifyCallbacks w)) = monitor w.
Proof. rewrite notifyCallbacks_called. apply call_subscribers_monitor. Qed.

Lemma pushed_length (frameTime : Q) (l : list Q) :
  (length l <= 60)%nat ->
  length (pushed frameTime l) = Nat.min 60 (S (length l)).
Proof.
  intros H. unfold pushed.
  destruct (Nat.ltb_spec 60 (length (l ++ [frameTime]))) as [Hlt|Hge];
    rewrite ?length_tl, length_app in *; cbn [length] in *; lia.
Qed.

Lemma pushed_full (frameTime : Q) (l : list Q) :
  length l = 60%nat -> pushed frameTime l = tail l ++ [frameTime].
Proof.
  intros H. unfold pushed.
  destruct (Nat.ltb_spec 60 (length (l ++ [frameTime]))) as [Hlt|Hge].
  - destruct l; [discriminate | reflexivity].
  - rewrite length_app in Hge. cbn [length] in Hge. lia.
Qed.

Lemma sampled_frameTimings (timestamp : Q) (m : Monitor.t) :
  frameTimings (sampled timestamp m) =
  pushed (timestamp - lastFrameTime m) (frameTimings m).
Proof. unfold sampled. destruct (JS.Qlt_bool _ _); reflexivity. Qed.

Lemma record_frame_monitor (timestamp : Q) (w : World) :
  monitor (fst (record_frame timestamp w)) =
  if Nat.eqb (length (frameTimings (sampled timestamp (monitor w)))) 60
  then adjustQuality (sampled timestamp (monitor w))
  else sampled timestamp (monitor w).
Proof.
  unfold record_frame, sampled, pushed. cbn [monitor with_monitor].
  destruct (Nat.ltb 60 _); cbn [monitor with_monitor frameTimings set_frameTimings];
    destruct (JS.Qlt_bool 33 _);
    cbn [monitor with_monitor frameTimings set_frameTimings set_droppedFrames];
    destruct (Nat.eqb _ 60); rewrite ?notifyCallbacks_monitor; reflexivity.
Qed.

End SampleBuffer.

(** ** One frame of the monitor *)

Section MeasuredFrame.

Import Monitor.

Lemma record_frame_partial (timestamp : Q) (w : World) :
  Nat.eqb (length (frameTimings (sampled timestamp (monitor w)))) 60 = false ->
  record_frame timestamp w =
  (with_monitor (fun _ => sampled timestamp (monitor w)) w, Returned).
Proof.
  unfold record_frame, sampled, pushed. cbn [monitor with_monitor].
  destruct (Nat.ltb 60 _);
    cbn [monitor with_monitor frameTimings set_frameTimings];
    destruct (JS.Qlt_bool 33 _);
    cbn [monitor with_monitor frameTimings set_frameTimings set_droppedFrames];
    intros ->; reflexivity.
Qed.

Lemma record_frame_full (timestamp : Q) (w : World) :
  Nat.eqb (length (frameTimings (sampled timestamp (monitor w)))) 60 = true ->
  record_frame timestamp w =
  notifyCallbacks
    (with_monitor (fun _ => adjustQuality (sampled timestamp (monitor w))) w).
Proof.
  unfold record_frame, sampled, pushed. cbn [monitor with_monitor].
  destruct (Nat.ltb 60 _);
    cbn [monitor with_monitor frameTimings set_frameTimings];
    destruct (JS.Qlt_bool 33 _);
    cbn [monitor with_monitor frameTimings set_frameTimings set_droppedFrames];
    intros ->; reflexivity.
Qed.

Lemma sampled_quality (timestamp : Q) (m : Monitor.t) :
  qualityLevel (sampled timestamp m) = qualityLevel m /\
  animationBudget (sampled timestamp m) = animationBudget m /\
  callbacks (sampled timestamp m) = callbacks m.
Proof. unfold sampled. destruct (JS.Qlt_bool _ _); repeat split. Qed.

Lemma adjustQuality_callbacks (m : Monitor.t) :
  callbacks (adjustQuality m) = callbacks m.
Proof.
  unfold adjustQuality.
  repeat match goal with |- context [if ?c then _ else _] => destruct c end;
    reflexivity.
Qed.

Lemma record_frame_outcome (timestamp : Q) (w : World) :
  (if JS.truthy (lastFrameTime (monitor w))
   then record_frame timestamp w else (w, Returned)) =
  (recorded timestamp w,
   if completes_window timestamp w
   then walk_outcome (callbacks (monitor w)) else Returned).
Proof.
  unfold recorded, completes_window.
  destruct (JS.truthy _); [|reflexivity]. cbn [andb].
  destruct (Nat.eqb _ 60) eqn:E.
  - rewrite (record_frame_full _ _ E), notifyCallbacks_called.
    cbn [fst monitor with_monitor].
    rewrite adjustQuality_callbacks.
    destruct (sampled_quality timestamp (monitor w)) as (_ & _ & ->).
    reflexivity.
  - rewrite (record_frame_partial _ _ E). reflexivity.
Qed.

(** [measure] throws on the frames that complete a window when a
    subscriber throws, and on no other. *)
Lemma measure_outcome_window (timestamp : Q) (w : World) :
  measure_outcome timestamp w =
  if completes_window timestamp w
  then walk_outcome (callbacks (monitor w)) else Returned.
Proof.
  unfold measure_outcome, measure_call. rewrite record_frame_outcome.
  destruct (if completes_window timestamp w then _ else _); reflexivity.
Qed.

(** [measure] by the way it ends. *)
Lemma measure_returned (timestamp : Q) (w : World) :
  measure_outcome timestamp w = Returned ->
  measure timestamp w =
  with_monitor
    (set_rafId (Some (Browser.nextHandle (browser (recorded timestamp w)))))
    (snd (requestAnimationFrame MeasureCallback
            (with_monitor (set_lastFrameTime timestamp)
               (recorded timestamp w)))).
Proof.
  rewrite measure_outcome_window. intros H.
  unfold measure, measure_call. rewrite record_frame_outcome, H. reflexivity.
Qed.

Lemma measure_threw (timestamp : Q) (w : World) (error : string) :
  measure_outcome timestamp w = Threw error ->
  measure timestamp w = recorded timestamp w.
Proof.
  rewrite measure_outcome_window. intros H.
  unfold measure, measure_call. rewrite record_frame_outcome, H. reflexivity.
Qed.

Lemma measure_frameTimings (timestamp : Q) (w : World) :
  frameTimings (monitor (measure timestamp w)) =
  frameTimings (monitor (recorded timestamp w)).
Proof.
  destruct (measure_outcome timestamp w) eqn:E.
  - rewrite (measure_returned _ _ E). reflexivity.
  - rewrite (measure_threw _ _ _ E). reflexivity.
Qed.

Lemma measure_droppedFrames (timestamp : Q) (w : World) :
  droppedFrames (monitor (measure timestamp w)) =
  droppedFrames (monitor (recorded timestamp w)).
Proof.
  destruct (measure_outcome timestamp w) eqn:E.
  - rewrite (measure_returned _ _ E). reflexivity.
  - rewrite (measure_threw _ _ _ E). reflexivity.
Qed.

Lemma measure_qualityLevel (timestamp : Q) (w : World) :
  qualityLevel (monitor (measure timestamp w)) =
  qualityLevel (monitor (recorded timestamp w)).
Proof.
  destruct (measure_outcome timestamp w) eqn:E.
  - rewrite (measure_returned _ _ E). reflexivity.
  - rewrite (measure_threw _ _ _ E). reflexivity.
Qed.

Lemma measure_animationBudget (timestamp : Q) (w : World) :
  animationBudget (monitor (measure timestamp w)) =
  animationBudget (monitor (recorded timestamp w)).
Proof.
  destruct (measure_outcome timestamp w) eqn:E.
  - rewrite (measure_returned _ _ E). reflexivity.
  - rewrite (measure_threw _ _ _ E). reflexivity.
Qed.

Lemma measure_trace (timestamp : Q) (w : World) :
  Browser.trace (browser (measure timestamp w)) =
  Browser.trace (browser (recorded timestamp w)).
Proof.
  destruct (measure_outcome timestamp w) eqn:E.
  - rewrite (measure_returned _ _ E). reflexivity.
  - rewrite (measure_threw _ _ _ E). reflexivity.
Qed.

Lemma measure_animationQueue (timestamp : Q) (w : World) :
  animationQueue (measure timestamp w) =
  animationQueue (recorded timestamp w).
Proof.
  destruct (measure_outcome timestamp w) eqn:E.
  - rewrite (measure_returned _ _ E). reflexivity.
  - rewrite (measure_threw _ _ _ E). reflexivity.
Qed.

Lemma recorded_frameTimings (timestamp : Q) (w : World) :
  frameTimings (monitor (recorded timestamp w)) =
  if JS.truthy (lastFrameTime (monitor w))
  then pushed (timestamp - lastFrameTime (monitor w)) (frameTimings (monitor w))
  else frameTimings (monitor w).
Proof.
  unfold recorded. destruct (JS.truthy _); [|reflexivity].
  rewrite record_frame_monitor.
  destruct (Nat.eqb _ 60);
    rewrite ?adjustQuality_frameTimings; apply sampled_frameTimings.
Qed.

Lemma buffer_ok_initial : buffer_ok Monitor.initial.
Proof. split; simpl; [lia | discriminate]. Qed.

Lemma measure_buffer_ok (timestamp : Q) (w : World) :
  buffer_ok (monitor w) -> buffer_ok (monitor (measure timestamp w)).
Proof.
  intros [Hlen Hzero]. unfold buffer_ok.
  rewrite measure_frameTimings, measure_droppedFrames.
  unfold recorded. destruct (JS.truthy _); [|split; assumption].
  rewrite record_frame_monitor.
  destruct (Nat.eqb_spec (length (frameTimings (sampled timestamp (monitor w)))) 60)
    as [Hfull|Hpart].
  - rewrite adjustQuality_frameTimings, adjustQuality_droppedFrames.
    split; [lia | reflexivity].
  - split; [|intros; contradiction].
    rewrite sampled_frameTimings in *. rewrite pushed_length by assumption. lia.
Qed.

Lemma sampled_droppedFrames (timestamp : Q) (m : Monitor.t) :
  (droppedFrames (sampled timestamp m) <= S (droppedFrames m))%nat.
Proof. unfold sampled. destruct (JS.Qlt_bool _ _); simpl; lia. Qed.

(** Once the buffer is full, every further frame judges a window with
    at most one dropped frame on the counter. *)
Lemma steady_ratio (timestamp : Q) (m : Monitor.t) :
  buffer_ok m -> length (frameTimings m) = 60%nat ->
  JS.lt (droppedFrameRatio (sampled timestamp m)) 0.05 = true.
Proof.
  intros [_ Hzero] Hfull. specialize (Hzero Hfull).
  pose proof (sampled_droppedFrames timestamp m) as Hle.
  unfold droppedFrameRatio.
  rewrite sampled_frameTimings, pushed_length by lia.
  rewrite Hfull, Hzero in *.
  destruct (droppedFrames (sampled timestamp m)) as [|[|n]];
    [reflexivity | reflexivity | lia].
Qed.

End MeasuredFrame.

Section MeasuredFrameEffects.

Import Monitor.

(** A frame that does not complete a window leaves the level, the
    budget, the subscribers' view and the queue as they were. *)
Lemma measure_partial (timestamp : Q) (w : World) :
  completes_window timestamp w = false ->
  qualityLevel (monitor (measure timestamp w)) = qualityLevel (monitor w) /\
  animationBudget (monitor (measure timestamp w)) = animationBudget (monitor w) /\
  Browser.trace (browser (measure timestamp w)) = Browser.trace (browser w) /\
  animationQueue (measure timestamp w) = animationQueue w.
Proof.
  unfold completes_window, measure, measure_call. intros H.
  destruct (JS.truthy (lastFrameTime (monitor w))); simpl in H.
  - rewrite (record_frame_partial _ _ H).
    destruct (sampled_quality timestamp (monitor w)) as (Hq & Hb & _).
    cbn. rewrite Hq, Hb. repeat split.
  - repeat split.
Qed.

Lemma called_all (subs : list Subscriber) :
  walk_outcome subs = Returned -> called subs = subs.
Proof.
  induction subs as [|s subs IH]; [reflexivity|].
  cbn [walk_outcome called].
  destruct (subscriber_outcome s); [|discriminate].
  intros H. rewrite (IH H). reflexivity.
Qed.

(** A frame that completes a window judges it and tells the subscribers,
    every one of them unless one throws. *)
Lemma measure_full (timestamp : Q) (w : World) :
  completes_window timestamp w = true ->
  let judged := adjustQuality (sampled timestamp (monitor w)) in
  length (frameTimings (monitor (measure timestamp w))) = 60%nat /\
  qualityLevel (monitor (measure timestamp w)) = qualityLevel judged /\
  animationBudget (monitor (measure timestamp w)) = animationBudget judged /\
  Browser.trace (browser (measure timestamp w)) =
    Browser.trace (browser w) ++
    omap (notification (getMetrics (Browser.memory (browser w)) judged))
         (called (callbacks (monitor w))).
Proof.
  unfold completes_window. rewrite andb_true_iff. intros [Ht Hfull]. cbv zeta.
  rewrite measure_frameTimings, measure_qualityLevel.
  assert (Hrec : recorded timestamp w =
                 fst (notifyCallbacks
                        (with_monitor
                           (fun _ => adjustQuality
                                       (sampled timestamp (monitor w))) w))).
  { unfold recorded. rewrite Ht. f_equal. apply record_frame_full, Hfull. }
  assert (Hmon : monitor (recorded timestamp w) =
                 adjustQuality (sampled timestamp (monitor w))).
  { rewrite Hrec. apply notifyCallbacks_monitor. }
  rewrite Hmon, adjustQuality_frameTimings.
  split; [apply Nat.eqb_eq, Hfull|]. split; [reflexivity|].
  split.
  - rewrite measure_animationBudget, Hmon. reflexivity.
  - rewrite measure_trace, Hrec, notifyCallbacks_called. cbn [fst].
    rewrite call_subscribers_trace. cbn [monitor with_monitor browser].
    rewrite adjustQuality_callbacks.
    destruct (sampled_quality timestamp (monitor w)) as (_ & _ & ->).
    reflexivity.
Qed.

Lemma measure_length_full (timestamp : Q) (w : World) :
  JS.truthy (lastFrameTime (monitor w)) = true ->
  length (frameTimings (monitor (measure timestamp w))) = 60%nat ->
  completes_window timestamp w = true.
Proof.
  intros Ht. unfold completes_window.
  rewrite measure_frameTimings, recorded_frameTimings, Ht, sampled_frameTimings.
  intros ->. reflexivity.
Qed.

Lemma measure_all_buffer_ok (timestamps : list Q) (w : World) :
  buffer_ok (monitor w) -> buffer_ok (monitor (measure_all timestamps w)).
Proof.
  unfold measure_all. revert w.
  induction timestamps as [|t rest IH]; intros w H; simpl; [exact H|].
  apply IH, measure_buffer_ok, H.
Qed.

End MeasuredFrameEffects.

(** ** Worlds to start from *)

(** ** The quality level of a completed window *)

Section QualityOfWindow.

Import Monitor.

(** C1, as the specification states it, fails on a page whose first
    window has seven slow frames: the window averages 13.5 ms (74 frames
    per second, [ultra] in the specification's table) and the monitor
    chooses [medium], because 7 of the 60 frames took more than 33 ms.
    The same happens when the monitor is run from its start. *)
Lemma quality_not_a_function_of_fps :
  length (frameTimings janky_window) = 60%nat /\
  claimed_quality (windowFps janky_window) = ultra /\
  qualityLevel (adjustQuality janky_window) = medium /\
  sampled 1810
    (monitor (measure_all (take 60 janky_timestamps) (boot ticking_browser)))
  = janky_window /\
  let w := measure_all janky_timestamps (boot ticking_browser) in
  length (frameTimings (monitor w)) = 60%nat /\
  claimed_quality (windowFps (monitor w)) = ultra /\
  qualityLevel (monitor w) = medium.
Proof. vm_compute. repeat split. Qed.

(** C1 (amended). On every frame that completes a window of sixty
    samples, the level is one of the five, chosen from the window's
    average frames per second together with the ratio of dropped frames:
    [ultra] when fps >= 55 and ratio < 0.05; else [high] when fps >= 50
    and ratio < 0.1; else [medium] when fps >= 40 and ratio < 0.15; else
    [low] when fps >= 30; else [minimal]. When the ratio is below 0.05,
    and so on every frame that finds the buffer already full, the level
    is the function of the average frame rate with thresholds 55, 50, 40
    and 30. *)
Theorem quality_of_completed_window (timestamp : Q) (w : World) :
  completes_window timestamp w = true ->
  let window := sampled timestamp (monitor w) in
  let fps := windowFps window in
  let ratio := droppedFrameRatio window in
  let level := qualityLevel (monitor (measure timestamp w)) in
  windowFps (monitor (measure timestamp w)) = fps /\
  (level = ultra <-> JS.ge fps 55 && JS.lt ratio 0.05 = true) /\
  (level = high <->
     JS.ge fps 55 && JS.lt ratio 0.05 = false /\
     JS.ge fps 50 && JS.lt ratio 0.1 = true) /\
  (level = medium <->
     JS.ge fps 50 && JS.lt ratio 0.1 = false /\
     JS.ge fps 40 && JS.lt ratio 0.15 = true) /\
  (level = low <->
     JS.ge fps 40 && JS.lt ratio 0.15 = false /\ JS.ge fps 30 = true) /\
  (level = minimal <-> JS.ge fps 30 = false) /\
  (JS.lt ratio 0.05 = true -> level = claimed_quality fps) /\
  (buffer_ok (monitor w) -> length (frameTimings (monitor w)) = 60%nat ->
   level = claimed_quality fps).
Proof.
  intros Hfull. cbv zeta.
  destruct (measure_full timestamp w Hfull) as (_ & -> & _).
  split.
  { unfold windowFps, getAverageFrameTime.
    destruct (measure_full timestamp w Hfull) as (Hlen & _).
    rewrite measure_frameTimings, recorded_frameTimings in *.
    apply andb_true_iff in Hfull as [-> _].
    rewrite sampled_frameTimings. reflexivity. }
  split; [apply adjustQuality_ultra|].
  split; [apply adjustQuality_high|].
  split; [apply adjustQuality_medium|].
  split; [apply adjustQuality_low|].
  split; [apply adjustQuality_minimal|].
  split; [apply adjustQuality_few_dropped|].
  intros Hok Hlen. apply adjustQuality_few_dropped, steady_ratio; assumption.
Qed.

Lemma quality_of_completed_window_witness :
  let first := measure_all (take 60 janky_timestamps) (boot ticking_browser) in
  let later := measure_all janky_timestamps (boot ticking_browser) in
  completes_window 1810 first = true /\
  (qualityLevel (monitor (measure 1810 first)) = medium <->
   JS.ge (windowFps (sampled 1810 (monitor first))) 50
   && JS.lt (droppedFrameRatio (sampled 1810 (monitor first))) 0.1 = false /\
   JS.ge (windowFps (sampled 1810 (monitor first))) 40
   && JS.lt (droppedFrameRatio (sampled 1810 (monitor first))) 0.15 = true) /\
  completes_window 1820 later = true /\
  buffer_ok (monitor later) /\
  qualityLevel (monitor (measure 1820 later)) =
  claimed_quality (windowFps (sampled 1820 (monitor later))).
Proof.
  cbv zeta.
  assert (H1 : completes_window 1810
                 (measure_all (take 60 janky_timestamps) (boot ticking_browser))
               = true) by (vm_compute; reflexivity).
  assert (H2 : completes_window 1820
                 (measure_all janky_timestamps (boot ticking_browser))
               = true) by (vm_compute; reflexivity).
  assert (Hok : buffer_ok
                  (monitor (measure_all janky_timestamps (boot ticking_browser))))
    by (split; [vm_compute; lia | intros _; vm_compute; reflexivity]).
  split; [exact H1|].
  split; [exact (proj1 (proj2 (proj2 (proj2
                   (quality_of_completed_window 1810 _ H1)))))|].
  split; [exact H2|]. split; [exact Hok|].
  apply (proj2 (proj2 (proj2 (proj2 (proj2 (proj2 (proj2
           (quality_of_completed_window 1820 _ H2)))))))).
  - exact Hok.
  - vm_compute. reflexivity.
Defined.

End QualityOfWindow.


(** ** Skipping under load *)

Section Skipping.

Import Monitor.

(** C5. Whatever the level and however many animations are active, an
    animation of priority [CRITICAL] is not skipped. *)
Theorem critical_never_skipped (m : Monitor.t) :
  shouldSkipAnimation AnimationPriority.CRITICAL m = false.
Proof.
  unfold shouldSkipAnimation.
  destruct (Nat.leb _ _); [reflexivity|].
  destruct (qualityLevel m); reflexivity.
Qed.

Lemma shouldSkipAnimation_monotone (m : Monitor.t) (p q : Q) :
  p < q ->
  shouldSkipAnimation p m = true -> shouldSkipAnimation q m = true.
Proof.
  intros Hpq. unfold shouldSkipAnimation.
  destruct (Nat.leb _ _).
  - rewrite !Qle_bool_iff. lra.
  - destruct (qualityLevel m); try discriminate;
      rewrite !JSFacts.Qlt_bool_iff; lra.
Qed.

(** C2. Skipping is monotone in the priority: in every state of the
    monitor, if an animation of priority [p] is skipped then so is every
    animation of a numerically greater priority. An item the loop of
    [process] takes from the queue while the monitor says to skip it is
    unregistered and dropped: it is not put among the executing items,
    its [execute] is not called, and the loop goes on with the rest of the
    queue. *)
Theorem skipping_by_priority (w : World) :
  (forall p q : Q,
     p < q ->
     shouldSkipAnimation p (monitor w) = true ->
     shouldSkipAnimation q (monitor w) = true) /\
  (forall (item : Item.t) (rest : list Item.t),
     can_execute_more w = true ->
     fst (hasFrameBudget w) = true ->
     shouldSkipAnimation (Item.priority item) (monitor w) = true ->
     let taken := with_queue (Queue.set_queue rest) (snd (hasFrameBudget w)) in
     let dropped := loop_body item taken in
     (process_loop (item :: rest) w = process_loop rest dropped) /\
     (dropped =
        with_monitor (Monitor.unregisterAnimation (Item.id item)) taken) /\
     (Item.id item ∉ activeAnimations (monitor dropped)) /\
     Queue.queue (animationQueue dropped) = rest /\
     Queue.executing (animationQueue dropped) =
       Queue.executing (animationQueue w) /\
     Queue.completedAnimations (animationQueue dropped) =
       Queue.completedAnimations (animationQueue w) /\
     suspended dropped = suspended w /\
     Browser.trace (browser dropped) = Browser.trace (browser w)).
Proof.
  split.
  - intros p q. apply shouldSkipAnimation_monotone.
  - intros item rest Hmore Hbudget Hskip. cbv zeta.
    assert (Hbody : loop_body item
                      (with_queue (Queue.set_queue rest) (snd (hasFrameBudget w)))
                    = with_monitor (Monitor.unregisterAnimation (Item.id item))
                        (with_queue (Queue.set_queue rest)
                           (snd (hasFrameBudget w)))).
    { unfold loop_body.
      change (monitor (with_queue (Queue.set_queue rest)
                         (snd (hasFrameBudget w)))) with (monitor w).
      rewrite Hskip. reflexivity. }
    split.
    { cbn [process_loop]. rewrite Hmore.
      destruct (hasFrameBudget w) as [ok w1] eqn:E. cbn [fst snd] in *.
      rewrite Hbudget. reflexivity. }
    rewrite Hbody. split; [reflexivity|].
    split.
    { apply not_elem_of_difference. right. apply elem_of_singleton. reflexivity. }
    repeat split.
Qed.

Lemma skipping_by_priority_witness :
  shouldSkipAnimation AnimationPriority.LOW (monitor degraded_page) = true /\
  Queue.queue
    (animationQueue
       (process_loop (Queue.queue (animationQueue degraded_page)) degraded_page))
  = [] /\
  Browser.trace
    (browser
       (process_loop (Queue.queue (animationQueue degraded_page)) degraded_page))
  = [].
Proof.
  assert (Hmedium : shouldSkipAnimation AnimationPriority.MEDIUM
                      (monitor degraded_page) = true) by (vm_compute; reflexivity).
  assert (Hlow : shouldSkipAnimation AnimationPriority.LOW
                   (monitor degraded_page) = true).
  { apply (proj1 (skipping_by_priority degraded_page)
             AnimationPriority.MEDIUM AnimationPriority.LOW);
      [reflexivity | exact Hmedium]. }
  split; [exact Hlow|].
  destruct (Queue.queue (animationQueue degraded_page)) as [|item rest] eqn:Hq;
    [vm_compute in Hq; discriminate|].
  assert (Hitem : Item.priority item = AnimationPriority.LOW /\ rest = []).
  { vm_compute in Hq. injection Hq as Hi Hr. subst. split; reflexivity. }
  destruct Hitem as [Hp ->].
  destruct (proj2 (skipping_by_priority degraded_page) item []) as
    (Hloop & _ & _ & Hrest & _ & _ & _ & Htrace).
  - vm_compute; reflexivity.
  - vm_compute; reflexivity.
  - rewrite Hp. exact Hlow.
  - rewrite Hloop. cbn [process_loop]. split; [exact Hrest | exact Htrace].
Defined.

End Skipping.

(** ** The frame budget *)

Section FrameBudget.

Lemma adjustedBudget_le_frameBudget (w : World) :
  16 <= Queue.frameBudget (animationQueue w) ->
  adjustedBudget w <= Queue.frameBudget (animationQueue w).
Proof.
  intros H. unfold adjustedBudget, Monitor.getQualityLevel.
  destruct (Monitor.qualityLevel (monitor w)); lra.
Qed.

(** The loop of [process] changes nothing but the clock when the budget
    of the frame is used up. *)
Lemma process_loop_out_of_budget (q : list Item.t) (w : World) :
  fst (hasFrameBudget w) = false ->
  process_loop q w = w \/ process_loop q w = snd (hasFrameBudget w).
Proof.
  intros H. destruct q as [|item rest]; [left; reflexivity|].
  cbn [process_loop]. destruct (can_execute_more w); [|left; reflexivity].
  destruct (hasFrameBudget w) as [ok w1]. cbn [fst snd] in *. subst ok.
  right. reflexivity.
Qed.

(** C3. A queue built without a [frameBudget] option has a budget of
    16.67 ms, and with that budget, in every frame and at every quality
    level, once the time elapsed since the start of the frame has reached
    16.67 ms [hasFrameBudget] answers false and the loop takes no further
    animation from the queue: the queue, the executing items, the monitor
    and the trace of calls stay as they are. At the levels [ultra] and
    [high] the loop admits exactly while less than 16.67 ms have elapsed;
    at the lower levels [adjustedBudget] makes it stop earlier. *)
Theorem frame_budget_stops_admission :
  (forall (options : QueueOptions) (w : World),
     optFrameBudget options = None ->
     Queue.frameBudget (animationQueue (new_AnimationQueue options w)) = 16.67) /\
  (forall (w : World) (q : list Item.t),
     Queue.frameBudget (animationQueue w) == 16.67 ->
     16.67 <= Browser.clock (browser w) (Browser.clockReads (browser w))
              - Queue.frameStartTime (animationQueue w) ->
     fst (hasFrameBudget w) = false /\
     animationQueue (process_loop q w) = animationQueue w /\
     monitor (process_loop q w) = monitor w /\
     suspended (process_loop q w) = suspended w /\
     Browser.trace (browser (process_loop q w)) = Browser.trace (browser w)) /\
  (forall w : World,
     Queue.frameBudget (animationQueue w) == 16.67 ->
     Monitor.qualityLevel (monitor w) = ultra \/
     Monitor.qualityLevel (monitor w) = high ->
     (fst (hasFrameBudget w) = true <->
      Browser.clock (browser w) (Browser.clockReads (browser w))
      - Queue.frameStartTime (animationQueue w) < 16.67)).
Proof.
  split; [|split].
  3: { intros w Hbudget Hlevel.
       unfold hasFrameBudget, performance_now, Browser.performance_now.
       cbn [fst]. rewrite JSFacts.Qlt_bool_iff.
       unfold adjustedBudget, Monitor.getQualityLevel.
       cbn [monitor animationQueue with_browser].
       destruct Hlevel as [-> | ->]; rewrite Hbudget; reflexivity. }
  - intros options w Hnone. unfold new_AnimationQueue, start, processQueue.
    destruct (optAutoStart options) as [[|]|]; cbn;
      rewrite Hnone; reflexivity.
  - intros w q Hbudget Helapsed.
    assert (Hstop : fst (hasFrameBudget w) = false).
    { unfold hasFrameBudget, performance_now, Browser.performance_now.
      cbn [fst]. apply JSFacts.Qlt_bool_false_iff.
      pose proof (adjustedBudget_le_frameBudget w) as Hle.
      unfold adjustedBudget in *. cbn [monitor animationQueue with_browser].
      lra. }
    split; [exact Hstop|].
    destruct (process_loop_out_of_budget q w Hstop) as [-> | ->];
      repeat split.
Qed.

Lemma frame_budget_stops_admission_witness :
  let late :=
    with_queue (Queue.set_frameStartTime (-20))
      (add (plain_item "glow" AnimationPriority.LOW ReturnsVoid)
         (getGlobalAnimationQueue (boot ticking_browser))) in
  fst (hasFrameBudget late) = false /\
  animationQueue (process_loop (Queue.queue (animationQueue late)) late)
  = animationQueue late.
Proof.
  cbv zeta.
  destruct (proj1 (proj2 frame_budget_stops_admission)
              (with_queue (Queue.set_frameStartTime (-20))
                 (add (plain_item "glow" AnimationPriority.LOW ReturnsVoid)
                    (getGlobalAnimationQueue (boot ticking_browser))))
              [plain_item "glow" AnimationPriority.LOW ReturnsVoid])
    as (Hstop & _).
  - vm_compute. reflexivity.
  - vm_compute. discriminate.
  - split; [exact Hstop|].
    apply (proj1 (proj2 frame_budget_stops_admission)); vm_compute;
      [reflexivity | discriminate].
Defined.

End FrameBudget.

(** ** Pausing *)

Section Pausing.

(** C9. [pause] stops the queue and cancels its pending frame callback,
    and nothing else: afterwards [isRunning] is false and [rafId] is
    null, the handle the queue held is no longer registered with the
    browser (running it does nothing) while every other frame callback
    still is, and the queued items, the executing map, the completed set,
    [maxConcurrent], [frameBudget], the monitor, the suspended executions
    and the trace are unchanged. *)
Theorem pause_cancels_only_the_frame_callback (w : World) :
  let paused := pause w in
  Queue.isRunning (animationQueue paused) = false /\
  Queue.rafId (animationQueue paused) = None /\
  (forall h : positive,
     Queue.rafId (animationQueue w) = Some h ->
     Browser.frameCallbacks (browser paused) !! h = None /\
     forall timestamp : Q, run_frame_callback h timestamp paused = paused) /\
  (forall h : positive,
     Queue.rafId (animationQueue w) <> Some h ->
     Browser.frameCallbacks (browser paused) !! h =
     Browser.frameCallbacks (browser w) !! h) /\
  Queue.queue (animationQueue paused) = Queue.queue (animationQueue w) /\
  Queue.executing (animationQueue paused) = Queue.executing (animationQueue w) /\
  Queue.completedAnimations (animationQueue paused) =
    Queue.completedAnimations (animationQueue w) /\
  Queue.maxConcurrent (animationQueue paused) =
    Queue.maxConcurrent (animationQueue w) /\
  Queue.frameBudget (animationQueue paused) =
    Queue.frameBudget (animationQueue w) /\
  monitor paused = monitor w /\
  suspended paused = suspended w /\
  Browser.trace (browser paused) = Browser.trace (browser w).
Proof.
  cbv zeta. unfold pause. cbn [animationQueue with_queue Queue.rafId Queue.set_isRunning].
  destruct (Queue.rafId (animationQueue w)) as [h0|] eqn:Hraf.
  - cbn. split; [reflexivity|]. split; [reflexivity|].
    split; [|split; [|repeat split]].
    + intros h [= <-]. split; [apply lookup_delete_eq|].
      intros timestamp. unfold run_frame_callback. cbn.
      rewrite lookup_delete_eq. reflexivity.
    + intros h Hne. apply lookup_delete_ne. congruence.
  - cbn. split; [reflexivity|]. split; [exact Hraf|].
    split; [|split; [|repeat split]].
    + intros h [=].
    + reflexivity.
Qed.

Lemma pause_cancels_only_the_frame_callback_witness :
  let w := add (plain_item "glow" AnimationPriority.LOW ReturnsVoid)
             (getGlobalAnimationQueue (boot ticking_browser)) in
  Queue.rafId (animationQueue w) = Some 2%positive /\
  Browser.frameCallbacks (browser w) !! 2%positive = Some ProcessCallback /\
  Browser.frameCallbacks (browser (pause w)) !! 2%positive = None /\
  Browser.frameCallbacks (browser (pause w)) !! 1%positive = Some MeasureCallback.
Proof.
  cbv zeta.
  assert (Hraf : Queue.rafId
                   (animationQueue
                      (add (plain_item "glow" AnimationPriority.LOW ReturnsVoid)
                         (getGlobalAnimationQueue (boot ticking_browser))))
                 = Some 2%positive) by (vm_compute; reflexivity).
  destruct (pause_cancels_only_the_frame_callback
              (add (plain_item "glow" AnimationPriority.LOW ReturnsVoid)
                 (getGlobalAnimationQueue (boot ticking_browser))))
    as (_ & _ & Hcancel & Hothers & _).
  split; [exact Hraf|].
  split; [vm_compute; reflexivity|].
  split; [exact (proj1 (Hcancel 2%positive Hraf))|].
  rewrite (Hothers 1%positive); [vm_compute; reflexivity|].
  rewrite Hraf. discriminate.
Defined.

End Pausing.

(** ** Adding an item that is already known *)

Section KnownItems.

(** C7. Adding an item whose id is among the completed animations or in
    the executing map changes nothing at all: the queue, the executing
    map, the completed set, the monitor with its registry of active
    animations, the browser and its clock are as before. *)
Theorem add_known_item_is_noop (item : Item.t) (w : World) :
  Item.id item ∈ Queue.completedAnimations (animationQueue w) \/
  is_Some (Queue.executing (animationQueue w) !! Item.id item) ->
  add item w = w.
Proof.
  intros H. unfold add.
  destruct H as [H|H].
  - rewrite (bool_decide_eq_true_2 _ H). reflexivity.
  - rewrite (bool_decide_eq_true_2 _ H), orb_true_r. reflexivity.
Qed.

(** After a frame has executed the glow, adding it again is ignored. *)
Lemma add_known_item_is_noop_witness :
  let glow := plain_item "glow" AnimationPriority.LOW ReturnsVoid in
  let w := process (add glow (getGlobalAnimationQueue (boot ticking_browser))) in
  "glow" ∈ Queue.completedAnimations (animationQueue w) /\
  add glow w = w.
Proof.
  cbv zeta.
  assert (H : "glow" ∈ Queue.completedAnimations
                (animationQueue
                   (process
                      (add (plain_item "glow" AnimationPriority.LOW ReturnsVoid)
                         (getGlobalAnimationQueue (boot ticking_browser))))))
    by (apply (bool_decide_unpack _); vm_compute; exact I).
  split; [exact H|].
  apply add_known_item_is_noop. left. exact H.
Defined.

End KnownItems.

(** ** Server-side rendering *)

Section ServerSide.

Import Globals.

(** C10. Where there is no [window], [prefersReducedMotion] and
    [isLowEndDevice] both return false and neither throws, whatever the
    other globals are. *)
Theorem guards_total_without_window (g : Globals.t) :
  window g = None ->
  prefersReducedMotion g = Returns false /\ isLowEndDevice g = Returns false.
Proof.
  intros H. unfold isLowEndDevice, prefersReducedMotion. rewrite H.
  split; reflexivity.
Qed.

Lemma guards_total_without_window_witness :
  prefersReducedMotion {| window := None; navigator := None |} = Returns false /\
  isLowEndDevice {| window := None; navigator := None |} = Returns false.
Proof.
  apply (guards_total_without_window {| window := None; navigator := None |}).
  reflexivity.
Defined.

End ServerSide.

(** ** Priority order of the queue *)

Section PriorityOrder.

Lemma findIndexFrom_range {A : Type} (f : A -> bool) (l : list A) (i : Z) :
  (0 <= i)%Z ->
  findIndexFrom f l i = (-1)%Z \/ (i <= findIndexFrom f l i)%Z.
Proof.
  revert i. induction l as [|y rest IH]; intros i Hi; simpl.
  - left. reflexivity.
  - destruct (f y); [right; lia|].
    destruct (IH (i + 1)%Z) as [H|H]; [lia | left; exact H | right; lia].
Qed.

(** [findIndex] followed by [push] or [splice] is the insertion of the
    specification. *)
Lemma findIndexFrom_insert (x : Item.t) (l : list Item.t) (i : Z) :
  (0 <= i)%Z ->
  let r := findIndexFrom
             (fun y => JS.Qlt_bool (Item.priority x) (Item.priority y)) l i in
  (if Z.eqb r (-1) then l ++ [x]
   else take (Z.to_nat (r - i)) l ++ x :: drop (Z.to_nat (r - i)) l)
  = insert_before_first_greater x l.
Proof.
  revert i. induction l as [|y rest IH]; intros i Hi; cbv zeta.
  - reflexivity.
  - cbn [findIndexFrom insert_before_first_greater].
    destruct (JS.Qlt_bool (Item.priority x) (Item.priority y)).
    + destruct (Z.eqb_spec i (-1)); [lia|].
      rewrite Z.sub_diag. reflexivity.
    + specialize (IH (i + 1)%Z ltac:(lia)). cbv zeta in IH.
      pose proof (findIndexFrom_range
                    (fun y => JS.Qlt_bool (Item.priority x) (Item.priority y))
                    rest (i + 1)%Z ltac:(lia)) as Hr.
      destruct (Z.eqb_spec
                  (findIndexFrom
                     (fun y => JS.Qlt_bool (Item.priority x) (Item.priority y))
                     rest (i + 1)%Z) (-1)) as [E|E].
      * rewrite <- IH. reflexivity.
      * destruct Hr as [Hr|Hr]; [contradiction|].
        replace (Z.to_nat (findIndexFrom
                   (fun y => JS.Qlt_bool (Item.priority x) (Item.priority y))
                   rest (i + 1)%Z - i))
          with (S (Z.to_nat (findIndexFrom
                   (fun y => JS.Qlt_bool (Item.priority x) (Item.priority y))
                   rest (i + 1)%Z - (i + 1)))) by lia.
        cbn [take drop app]. rewrite IH. reflexivity.
Qed.

Lemma processQueue_queue (w : World) :
  Queue.queue (animationQueue (processQueue w)) = Queue.queue (animationQueue w) /\
  Queue.executing (animationQueue (processQueue w)) =
    Queue.executing (animationQueue w) /\
  Queue.completedAnimations (animationQueue (processQueue w)) =
    Queue.completedAnimations (animationQueue w).
Proof.
  unfold processQueue.
  destruct (negb (Queue.isRunning (animationQueue w))); [repeat split|].
  destruct (negb (has_rafId w)); repeat split.
Qed.

Lemma add_queue (item : Item.t) (w : World) :
  known w item = false ->
  Queue.queue (animationQueue (add item w)) =
  insert_before_first_greater
    (Item.set_timestamp (Some (add_time w)) item)
    (Queue.queue (animationQueue w)).
Proof.
  intros Hk. unfold add. fold (known w item). rewrite Hk.
  unfold performance_now, Browser.performance_now.
  cbn [animationQueue with_browser with_queue with_monitor
       Queue.isRunning Queue.queue Queue.set_queue].
  pose proof (findIndexFrom_insert
                (Item.set_timestamp (Some (add_time w)) item)
                (Queue.queue (animationQueue w)) 0 ltac:(lia)) as H.
  cbv zeta in H. rewrite Z.sub_0_r in H.
  unfold findIndex, splice_in, add_time in *.
  destruct (Queue.isRunning (animationQueue w));
    rewrite ?(proj1 (processQueue_queue _)); exact H.
Qed.

Lemma add_executing_completed (item : Item.t) (w : World) :
  Queue.executing (animationQueue (add item w)) =
    Queue.executing (animationQueue w) /\
  Queue.completedAnimations (animationQueue (add item w)) =
    Queue.completedAnimations (animationQueue w).
Proof.
  unfold add. destruct (_ || _); [split; reflexivity|].
  unfold performance_now, Browser.performance_now.
  cbn [animationQueue with_browser with_queue with_monitor Queue.isRunning
       Queue.set_queue].
  destruct (Queue.isRunning (animationQueue w)); [|split; reflexivity].
  match goal with
  | |- context [processQueue ?x] =>
      destruct (processQueue_queue x) as (_ & -> & ->)
  end.
  split; reflexivity.
Qed.

Lemma add_known (item other : Item.t) (w : World) :
  known (add item w) other = known w other.
Proof.
  unfold known. destruct (add_executing_completed item w) as [-> ->].
  reflexivity.
Qed.

Lemma add_known_queue (item : Item.t) (w : World) :
  known w item = true -> add item w = w.
Proof. intros H. unfold add. fold (known w item). rewrite H. reflexivity. Qed.

Lemma insert_Forall (P : Item.t -> Prop) (x : Item.t) (l : list Item.t) :
  P x -> Forall P l -> Forall P (insert_before_first_greater x l).
Proof.
  intros Hx Hl. induction Hl as [|y rest Hy Hrest IH]; simpl.
  - constructor; [exact Hx | constructor].
  - destruct (JS.Qlt_bool _ _); repeat constructor; assumption.
Qed.

Lemma insert_sorted (x : Item.t) (l : list Item.t) :
  priority_sorted l -> priority_sorted (insert_before_first_greater x l).
Proof.
  unfold priority_sorted. intros Hl.
  induction Hl as [|y rest Hsorted IH Hy]; simpl.
  - repeat constructor.
  - destruct (JS.Qlt_bool (Item.priority x) (Item.priority y)) eqn:E.
    + apply JSFacts.Qlt_bool_iff in E.
      constructor; [constructor; assumption|].
      constructor; [lra|].
      eapply Forall_impl; [exact Hy|]. cbv beta. intros z Hz. lra.
    + apply JSFacts.Qlt_bool_false_iff in E.
      constructor; [exact IH|].
      apply insert_Forall; assumption.
Qed.

(** In a sorted queue nothing behind a strictly greater item has the
    priority of the new one. *)
Lemma with_priority_behind (p : Q) (y : Item.t) (rest : list Item.t) :
  priority_sorted (y :: rest) -> p < Item.priority y ->
  with_priority p (y :: rest) = [].
Proof.
  unfold priority_sorted. intros Hs Hp.
  assert (Hall : Forall (fun z => p < Item.priority z) (y :: rest)).
  { inversion Hs as [|? ? _ Hy]; subst. constructor; [exact Hp|].
    eapply Forall_impl; [exact Hy|]. cbv beta. intros z Hz. lra. }
  clear Hs. induction Hall as [|z l Hz _ IH]; [reflexivity|].
  unfold with_priority in *. cbn [List.filter].
  destruct (Qeq_bool (Item.priority z) p) eqn:E; [|exact IH].
  apply Qeq_bool_iff in E. lra.
Qed.

Lemma with_priority_cons (p : Q) (y : Item.t) (l : list Item.t) :
  with_priority p (y :: l) = with_priority p [y] ++ with_priority p l.
Proof.
  unfold with_priority. cbn [List.filter].
  destruct (Qeq_bool _ _); reflexivity.
Qed.

(** First in, first out among the items of one priority. *)
Lemma insert_with_priority (p : Q) (x : Item.t) (l : list Item.t) :
  priority_sorted l ->
  with_priority p (insert_before_first_greater x l) =
  with_priority p l ++ with_priority p [x].
Proof.
  intros Hl. induction l as [|y rest IH]; [reflexivity|].
  cbn [insert_before_first_greater].
  destruct (JS.Qlt_bool (Item.priority x) (Item.priority y)) eqn:E.
  - apply JSFacts.Qlt_bool_iff in E.
    rewrite (with_priority_cons p x (y :: rest)).
    unfold with_priority at 1 4. cbn [List.filter].
    destruct (Qeq_bool (Item.priority x) p) eqn:Ex.
    + apply Qeq_bool_iff in Ex.
      rewrite (with_priority_behind p y rest Hl) by lra. reflexivity.
    + rewrite app_nil_r. reflexivity.
  - rewrite (with_priority_cons p y (insert_before_first_greater x rest)).
    rewrite (with_priority_cons p y rest), IH, app_assoc; [reflexivity|].
    unfold priority_sorted in *. inversion Hl; assumption.
Qed.

Lemma untimed_insert (x : Item.t) (l : list Item.t) :
  untimed (insert_before_first_greater x l) =
  insert_before_first_greater (Item.set_timestamp None x) (untimed l).
Proof.
  unfold untimed. induction l as [|y rest IH]; [reflexivity|].
  cbn [insert_before_first_greater map Item.priority Item.set_timestamp].
  destruct (JS.Qlt_bool _ _); [reflexivity|].
  cbn [map]. rewrite IH. reflexivity.
Qed.

Lemma untimed_sorted (l : list Item.t) :
  priority_sorted l -> priority_sorted (untimed l).
Proof.
  unfold priority_sorted. intros H.
  induction H as [|y rest Hs IH Hy]; [constructor|].
  cbn [untimed map]. constructor; [exact IH|].
  apply Forall_map. exact Hy.
Qed.

Lemma addBatch_cons (item : Item.t) (items : list Item.t) (w : World) :
  addBatch (item :: items) w = addBatch items (add item w).
Proof. reflexivity. Qed.

Lemma add_sorted (item : Item.t) (w : World) :
  priority_sorted (Queue.queue (animationQueue w)) ->
  priority_sorted (Queue.queue (animationQueue (add item w))).
Proof.
  intros H. destruct (known w item) eqn:Hk.
  - rewrite add_known_queue by exact Hk. exact H.
  - rewrite add_queue by exact Hk. apply insert_sorted, H.
Qed.

Lemma add_with_priority (p : Q) (item : Item.t) (w : World) :
  priority_sorted (Queue.queue (animationQueue w)) ->
  with_priority p (untimed (Queue.queue (animationQueue (add item w)))) =
  with_priority p (untimed (Queue.queue (animationQueue w))) ++
  with_priority p (untimed (admitted w [item])).
Proof.
  intros H. unfold admitted. cbn [List.filter].
  destruct (known w item) eqn:Hk; cbn [negb].
  - rewrite add_known_queue by exact Hk. symmetry. apply app_nil_r.
  - rewrite add_queue by exact Hk.
    rewrite untimed_insert, insert_with_priority by (apply untimed_sorted, H).
    reflexivity.
Qed.

Lemma admitted_add (item : Item.t) (items : list Item.t) (w : World) :
  admitted (add item w) items = admitted w items.
Proof.
  unfold admitted. induction items as [|i rest IH]; [reflexivity|].
  cbn [List.filter]. rewrite add_known, IH. reflexivity.
Qed.

Lemma addBatch_sorted (items : list Item.t) (w : World) :
  priority_sorted (Queue.queue (animationQueue w)) ->
  priority_sorted (Queue.queue (animationQueue (addBatch items w))).
Proof.
  revert w. induction items as [|item rest IH]; intros w H; [exact H|].
  rewrite addBatch_cons. apply IH, add_sorted, H.
Qed.

Lemma addBatch_with_priority (p : Q) (items : list Item.t) (w : World) :
  priority_sorted (Queue.queue (animationQueue w)) ->
  with_priority p (untimed (Queue.queue (animationQueue (addBatch items w)))) =
  with_priority p (untimed (Queue.queue (animationQueue w))) ++
  with_priority p (untimed (admitted w items)).
Proof.
  revert w. induction items as [|item rest IH]; intros w H.
  - symmetry. apply app_nil_r.
  - rewrite addBatch_cons, IH by (apply add_sorted, H).
    rewrite add_with_priority by exact H.
    rewrite admitted_add, <- app_assoc. f_equal.
    unfold admitted, untimed, with_priority. cbn [List.filter].
    destruct (negb (known w item)); [|reflexivity].
    cbn [map List.filter app].
    destruct (Qeq_bool _ _); reflexivity.
Qed.

(** Where [add] puts an item: behind everything it does not precede and
    right in front of the first item of strictly greater priority. *)
Lemma insert_position (x : Item.t) (l : list Item.t) :
  exists before behind : list Item.t,
    l = before ++ behind /\
    insert_before_first_greater x l = before ++ x :: behind /\
    Forall (fun y => Item.priority y <= Item.priority x) before /\
    match behind with
    | [] => True
    | next :: _ => Item.priority x < Item.priority next
    end.
Proof.
  induction l as [|y rest IH].
  - exists [], []. repeat split. constructor.
  - cbn [insert_before_first_greater].
    destruct (JS.Qlt_bool (Item.priority x) (Item.priority y)) eqn:E.
    + apply JSFacts.Qlt_bool_iff in E.
      exists [], (y :: rest). repeat split; [constructor | exact E].
    + apply JSFacts.Qlt_bool_false_iff in E.
      destruct IH as (before & behind & -> & -> & Hb & Hn).
      exists (y :: before), behind. repeat split; [|exact Hn].
      constructor; assumption.
Qed.

End PriorityOrder.

(** ** Failing callbacks *)

Section FailingCallbacks.

Import Monitor.

Lemma mark_completed_settles (item : Item.t) (w : World) :
  settled item w (mark_completed item w) /\
  Browser.trace (browser (mark_completed item w)) = Browser.trace (browser w).
Proof.
  unfold settled, mark_completed.
  cbn [animationQueue with_queue with_monitor Queue.completedAnimations
       Queue.set_executing Queue.set_completedAnimations].
  destruct (Nat.ltb 100 _); repeat split.
Qed.

Lemma run_cleanup_frame (item : Item.t) (w : World) :
  animationQueue (run_cleanup item w) = animationQueue w /\
  monitor (run_cleanup item w) = monitor w /\
  suspended (run_cleanup item w) = suspended w.
Proof.
  unfold run_cleanup. destruct (Item.cleanup item) as [[|error]|]; repeat split.
Qed.

Lemma run_cleanup_trace (item : Item.t) (w : World) :
  exists events : list Event,
    Browser.trace (browser (run_cleanup item w)) = Browser.trace (browser w) ++ events.
Proof.
  unfold run_cleanup. destruct (Item.cleanup item) as [[|error]|]; cbn.
  - eexists [_]. reflexivity.
  - eexists [_; _]. rewrite <- app_assoc. reflexivity.
  - exists []. symmetry. apply app_nil_r.
Qed.

(** The [finally] block always completes the bookkeeping, whatever
    [cleanup] does. *)
Lemma finally_block_settles (item : Item.t) (w : World) :
  settled item w (finally_block item w) /\
  exists events : list Event,
    Browser.trace (browser (finally_block item w)) =
    Browser.trace (browser w) ++ events.
Proof.
  unfold finally_block.
  destruct (mark_completed_settles item (run_cleanup item w))
    as ((He & Hc & Ha & Hq & Hs) & Ht).
  destruct (run_cleanup_frame item w) as (Eq & Em & Es).
  rewrite Eq, Em, Es in *.
  split; [repeat split; assumption|].
  rewrite Ht. apply run_cleanup_trace.
Qed.

Lemma catch_block_settles (item : Item.t) (error : string) (w : World) :
  settled item w (catch_block item error w) /\
  ConsoleError ("Animation " ++ Item.id item ++ " failed:") error
    ∈ Browser.trace (browser (catch_block item error w)).
Proof.
  unfold catch_block.
  destruct (finally_block_settles item
              (emit (ConsoleError ("Animation " ++ Item.id item ++ " failed:")
                       error) w))
    as (Hs & events & Ht).
  split; [exact Hs|].
  rewrite Ht. cbn. rewrite !elem_of_app, list_elem_of_singleton. auto.
Qed.

Lemma cleanup_failure_logged (item : Item.t) (error : string) (w : World) :
  Item.cleanup item = Some (CleanupThrows error) ->
  ConsoleError ("Animation " ++ Item.id item ++ " cleanup failed:") error
    ∈ Browser.trace (browser (finally_block item w)).
Proof.
  intros H. unfold finally_block.
  rewrite (proj2 (mark_completed_settles item (run_cleanup item w))).
  unfold run_cleanup. rewrite H. cbn.
  apply elem_of_app. right. apply list_elem_of_singleton. reflexivity.
Qed.

Lemma settled_after_set (item : Item.t) (w after : World) :
  settled item
    (emit (ExecuteCalled (Item.id item))
       (with_queue
          (fun q => Queue.set_executing
                      (<[Item.id item := item]> (Queue.executing q)) q) w))
    after ->
  settled item w after.
Proof.
  unfold settled. cbn. rewrite delete_insert_eq. trivial.
Qed.

(** What [settled] means for the item itself: its id is in the completed
    set afterwards exactly when adding it did not take the set beyond a
    hundred ids. *)
Lemma settled_item (item : Item.t) (before after : World) :
  settled item before after ->
  Queue.executing (animationQueue after) !! Item.id item = None /\
  (Item.id item ∉ activeAnimations (monitor after)) /\
  ((size (Queue.completedAnimations (animationQueue before)) < 100)%nat ->
   Queue.completedAnimations (animationQueue after) =
   {[ Item.id item ]} ∪ Queue.completedAnimations (animationQueue before)) /\
  (Item.id item ∈ Queue.completedAnimations (animationQueue before) ->
   (size (Queue.completedAnimations (animationQueue before)) <= 100)%nat ->
   Queue.completedAnimations (animationQueue after) =
   Queue.completedAnimations (animationQueue before)) /\
  ((Item.id item ∉ Queue.completedAnimations (animationQueue before)) ->
   (100 <= size (Queue.completedAnimations (animationQueue before)))%nat ->
   Queue.completedAnimations (animationQueue after) = ∅) /\
  (Item.id item ∈ Queue.completedAnimations (animationQueue after) <->
   (size ({[ Item.id item ]} ∪ Queue.completedAnimations (animationQueue before))
    <= 100)%nat).
Proof.
  intros (He & Hc & Ha & _). rewrite He, Hc, Ha. cbv zeta.
  set (X := Queue.completedAnimations (animationQueue before)).
  split; [apply lookup_delete_eq|].
  split; [apply not_elem_of_difference; right; apply elem_of_singleton; reflexivity|].
  assert (Hadd : (size ({[ Item.id item ]} ∪ X) <= S (size X))%nat).
  { rewrite size_union_alt, size_singleton.
    pose proof (subseteq_size (X ∖ {[ Item.id item ]}) X) as Hsub.
    assert (X ∖ {[ Item.id item ]} ⊆ X) as Hs
      by (intros x Hx; apply elem_of_difference in Hx; tauto).
    specialize (Hsub Hs). lia. }
  split; [|split; [|split]].
  - intros Hlt. destruct (Nat.ltb_spec 100 (size ({[ Item.id item ]} ∪ X)));
      [lia | reflexivity].
  - intros Hin Hle.
    assert (E : {[ Item.id item ]} ∪ X = X).
    { apply leibniz_equiv. intros x.
      rewrite elem_of_union, elem_of_singleton. split; [|auto].
      intros [->|H]; assumption. }
    rewrite E. destruct (Nat.ltb_spec 100 (size X)); [lia | reflexivity].
  - intros Hnin Hge.
    assert (E : size ({[ Item.id item ]} ∪ X) = S (size X)).
    { rewrite size_union, size_singleton; [reflexivity|].
      apply disjoint_singleton_l, Hnin. }
    rewrite E. destruct (Nat.ltb_spec 100 (S (size X))); [reflexivity | lia].
  - destruct (Nat.ltb_spec 100 (size ({[ Item.id item ]} ∪ X))) as [Hgt|Hle].
    + split; [intros H; apply elem_of_empty in H; contradiction | lia].
    + split; [intros _; exact Hle|].
      intros _. apply elem_of_union_l, elem_of_singleton. reflexivity.
Qed.

(** C6, as the specification states it, fails on a page where a hundred
    animations have completed: the callback of "press" throws, the error
    is logged and the bookkeeping is done, but the id of "press" is not
    in the completed set afterwards. The [finally] block added it and
    then emptied the set, which had grown to a hundred and one ids, so
    [add] would admit "press" again. *)
Lemma failed_id_not_completed :
  let press := plain_item "press" AnimationPriority.HIGH (ThrowsError "boom") in
  let after := executeAnimation press long_lived_page in
  size (Queue.completedAnimations (animationQueue long_lived_page)) = 100%nat /\
  Browser.trace (browser after) =
  [ExecuteCalled "press"; ConsoleError "Animation press failed:" "boom"] /\
  Queue.executing (animationQueue after) = ∅ /\
  ("press" ∉ Queue.completedAnimations (animationQueue after)) /\
  Queue.completedAnimations (animationQueue after) = ∅ /\
  known after press = false.
Proof.
  cbv zeta.
  assert (Hempty : Queue.completedAnimations
                     (animationQueue
                        (executeAnimation
                           (plain_item "press" AnimationPriority.HIGH
                              (ThrowsError "boom")) long_lived_page)) = ∅)
    by (vm_compute; reflexivity).
  split; [vm_compute; reflexivity|]. split; [vm_compute; reflexivity|].
  split; [vm_compute; reflexivity|]. split; [|split].
  - rewrite Hempty. apply not_elem_of_empty.
  - exact Hempty.
  - vm_compute. reflexivity.
Qed.

(** C6 (amended). When [execute] throws, when the promise it returned
    rejects, or when [cleanup] throws, the error is caught and logged on
    the console and the [finally] block runs to its end: the item leaves
    the executing map and the monitor unregisters it. Its id is added to
    the completed set, and the set is then emptied if it has thereby
    grown beyond a hundred ids: the id is in the completed set afterwards
    exactly when the set with the id added holds at most a hundred ids,
    and with a hundred other ids completed before, the set is empty
    afterwards. The loop of [process] goes on with the rest of the queue
    after a callback that threw. *)
Theorem failing_callback_is_contained
  (item : Item.t) (error : string) (w : World) :
  (Item.execute item = ThrowsError error ->
   settled item w (executeAnimation item w) /\
   ConsoleError ("Animation " ++ Item.id item ++ " failed:") error
     ∈ Browser.trace (browser (executeAnimation item w))) /\
  (settled item w (resume_result item (Rejected error) w) /\
   ConsoleError ("Animation " ++ Item.id item ++ " failed:") error
     ∈ Browser.trace (browser (resume_result item (Rejected error) w))) /\
  (Item.cleanup item = Some (CleanupThrows error) ->
   settled item w (finally_block item w) /\
   ConsoleError ("Animation " ++ Item.id item ++ " cleanup failed:") error
     ∈ Browser.trace (browser (finally_block item w))) /\
  (forall after : World,
     settled item w after ->
     let completed := Queue.completedAnimations (animationQueue w) in
     Queue.executing (animationQueue after) !! Item.id item = None /\
     (Item.id item ∉ activeAnimations (monitor after)) /\
     ((size completed < 100)%nat ->
      Queue.completedAnimations (animationQueue after) =
      {[ Item.id item ]} ∪ completed) /\
     (Item.id item ∈ completed -> (size completed <= 100)%nat ->
      Queue.completedAnimations (animationQueue after) = completed) /\
     ((Item.id item ∉ completed) -> (100 <= size completed)%nat ->
      Queue.completedAnimations (animationQueue after) = ∅) /\
     (Item.id item ∈ Queue.completedAnimations (animationQueue after) <->
      (size ({[ Item.id item ]} ∪ completed) <= 100)%nat)) /\
  (forall rest : list Item.t,
     can_execute_more w = true ->
     fst (hasFrameBudget w) = true ->
     shouldSkipAnimation (Item.priority item) (monitor w) = false ->
     Item.execute item = ThrowsError error ->
     let taken := with_queue (Queue.set_queue rest) (snd (hasFrameBudget w)) in
     process_loop (item :: rest) w =
       process_loop rest (executeAnimation item taken) /\
     settled item taken (executeAnimation item taken)).
Proof.
  assert (Hthrow : forall w0 : World,
            Item.execute item = ThrowsError error ->
            settled item w0 (executeAnimation item w0) /\
            ConsoleError ("Animation " ++ Item.id item ++ " failed:") error
              ∈ Browser.trace (browser (executeAnimation item w0))).
  { intros w0 Hx. unfold executeAnimation. rewrite Hx.
    match goal with
    | |- context [catch_block item error ?x] =>
        destruct (catch_block_settles item error x) as [Hs Hlog]
    end.
    split; [apply settled_after_set, Hs | exact Hlog]. }
  split; [apply Hthrow|].
  split; [apply catch_block_settles|].
  split.
  { intros Hc. split; [apply finally_block_settles|].
    apply cleanup_failure_logged, Hc. }
  split; [intros after; apply settled_item|].
  intros rest Hmore Hbudget Hskip Hx. cbv zeta.
  split; [|apply Hthrow, Hx].
  cbn [process_loop]. rewrite Hmore.
  destruct (hasFrameBudget w) as [ok w1] eqn:E. cbn [fst snd] in *.
  rewrite Hbudget. unfold loop_body.
  change (monitor (with_queue (Queue.set_queue rest) w1)) with (monitor w1).
  replace (monitor w1) with (monitor w); [rewrite Hskip; reflexivity|].
  change w1 with (snd (ok, w1)). rewrite <- E. reflexivity.
Qed.

(** A frame over the batch of four: the callback of "press" throws, the
    error is logged, and the two animations queued behind it are executed
    in the same frame; none is left executing. *)
Lemma failing_callback_is_contained_witness :
  let press := plain_item "press" AnimationPriority.HIGH (ThrowsError "boom") in
  let w := addBatch page_batch (getGlobalAnimationQueue (boot ticking_browser)) in
  settled press w (executeAnimation press w) /\
  Browser.trace (browser (process w)) =
  [ ExecuteCalled "route"; ExecuteCalled "press";
    ConsoleError "Animation press failed:" "boom";
    ExecuteCalled "glow"; ExecuteCalled "sparkle" ] /\
  Queue.executing (animationQueue (process w)) = ∅ /\
  Queue.queue (animationQueue (process w)) = [].
Proof.
  cbv zeta. split.
  - apply (proj1 (failing_callback_is_contained
                    (plain_item "press" AnimationPriority.HIGH (ThrowsError "boom"))
                    "boom"
                    (addBatch page_batch
                       (getGlobalAnimationQueue (boot ticking_browser))))).
    reflexivity.
  - vm_compute. repeat split.
Defined.

End FailingCallbacks.

(** ** Invariants of runs *)

Section RunInvariants.

Import Monitor.

Lemma quiet_refl (w : World) : quiet w w.
Proof. split; reflexivity. Qed.

Lemma quiet_trans (w1 w2 w3 : World) : quiet w1 w2 -> quiet w2 w3 -> quiet w1 w3.
Proof. intros [H1 H2] [H3 H4]. split; congruence. Qed.

Ltac quiet_cases :=
  unfold requestAnimationFrame, Browser.requestAnimationFrame,
    performance_now, Browser.performance_now;
  repeat match goal with
         | |- context [if ?c then _ else _] => destruct c
         | |- context [match ?c with _ => _ end] => destruct c
         end;
  try (split; reflexivity).

Lemma processQueue_quiet (w : World) : quiet w (processQueue w).
Proof. unfold processQueue. quiet_cases. Qed.

Lemma start_quiet (w : World) : quiet w (start w).
Proof.
  unfold start. destruct (Queue.isRunning _); [apply quiet_refl|].
  eapply quiet_trans; [|apply processQueue_quiet]. split; reflexivity.
Qed.

Lemma pause_quiet (w : World) : quiet w (pause w).
Proof. unfold pause. quiet_cases. Qed.

Lemma setMaxConcurrent_quiet (max : Q) (w : World) :
  quiet w (setMaxConcurrent max w).
Proof.
  unfold setMaxConcurrent. destruct (Queue.isRunning _); [|split; reflexivity].
  eapply quiet_trans; [|apply processQueue_quiet]. split; reflexivity.
Qed.

Lemma subscribe_quiet (s : Subscriber) (w : World) :
  quiet w (with_monitor (subscribe s) w).
Proof.
  unfold quiet, buffer_of, with_monitor, subscribe. cbn.
  destruct (bool_decide _); split; reflexivity.
Qed.

Lemma finally_block_quiet (item : Item.t) (w : World) :
  quiet w (finally_block item w).
Proof. unfold finally_block, mark_completed, run_cleanup. cbn. quiet_cases. Qed.

Lemma catch_block_quiet (item : Item.t) (error : string) (w : World) :
  quiet w (catch_block item error w).
Proof.
  unfold catch_block.
  eapply quiet_trans; [|apply finally_block_quiet]. split; reflexivity.
Qed.

Lemma after_result_quiet (item : Item.t) (w : World) :
  quiet w (after_result item w).
Proof.
  unfold after_result. destruct (JS.truthy_opt _); [split; reflexivity|].
  apply finally_block_quiet.
Qed.

Lemma executeAnimation_quiet (item : Item.t) (w : World) :
  quiet w (executeAnimation item w).
Proof.
  unfold executeAnimation. destruct (Item.execute item).
  - eapply quiet_trans; [|apply after_result_quiet]. split; reflexivity.
  - eapply quiet_trans; [|apply catch_block_quiet]. split; reflexivity.
  - split; reflexivity.
Qed.

Lemma loop_body_quiet (item : Item.t) (w : World) : quiet w (loop_body item w).
Proof.
  unfold loop_body. destruct (shouldSkipAnimation _ _); [split; reflexivity|].
  apply executeAnimation_quiet.
Qed.

Lemma promise_settles_quiet (i : nat) (s : Settlement) (w : World) :
  quiet w (promise_settles i s w).
Proof.
  unfold promise_settles.
  destruct (suspended w !! i) as [[item [|]]|]; try apply quiet_refl.
  unfold resume_result. destruct s.
  - eapply quiet_trans; [|apply after_result_quiet]. split; reflexivity.
  - eapply quiet_trans; [|apply catch_block_quiet]. split; reflexivity.
Qed.

Lemma timer_fires_quiet (i : nat) (w : World) : quiet w (timer_fires i w).
Proof.
  unfold timer_fires.
  destruct (suspended w !! i) as [[item [|]]|]; try apply quiet_refl.
  eapply quiet_trans; [|apply finally_block_quiet]. split; reflexivity.
Qed.

Lemma call_subscribers_quiet metrics (subs : list Subscriber) (w : World) :
  quiet w (foldl (subscriber_effect metrics) w subs).
Proof.
  revert w. induction subs as [|s subs IH]; intros w; [apply quiet_refl|].
  cbn [foldl]. eapply quiet_trans; [|apply IH].
  destruct s; [|split; reflexivity..].
  unfold subscriber_effect, queue_concurrency.
  repeat match goal with |- context [if ?c then _ else _] => destruct c end;
    apply setMaxConcurrent_quiet.
Qed.

(** The loop of [process] only ever removes items from the front. *)
Lemma process_loop_suffix (q : list Item.t) (w : World) :
  Queue.queue (animationQueue w) = q ->
  buffer_of (process_loop q w) = buffer_of w /\
  exists taken : list Item.t,
    q = taken ++ Queue.queue (animationQueue (process_loop q w)).
Proof.
  revert w. induction q as [|item rest IH]; intros w Hq.
  - split; [reflexivity|]. exists []. cbn [process_loop app].
    rewrite Hq. reflexivity.
  - cbn [process_loop]. destruct (can_execute_more w).
    2: { split; [reflexivity|]. exists []. cbn [app]. rewrite Hq. reflexivity. }
    destruct (hasFrameBudget w) as [ok w1] eqn:E.
    assert (Hw1 : w1 = snd (performance_now w)).
    { change w1 with (snd (ok, w1)). rewrite <- E. reflexivity. }
    destruct ok.
    2: { split; [subst w1; reflexivity|]. exists [].
         subst w1. cbn. rewrite Hq. reflexivity. }
    destruct (loop_body_quiet item (with_queue (Queue.set_queue rest) w1))
      as [Hb Hrest].
    destruct (IH (loop_body item (with_queue (Queue.set_queue rest) w1)))
      as [Hb' [taken Ht]]; [rewrite Hrest; reflexivity|].
    split.
    + rewrite Hb', Hb. subst w1. reflexivity.
    + exists (item :: taken). cbn [app]. f_equal. exact Ht.
Qed.

Lemma sorted_suffix (taken q : list Item.t) :
  priority_sorted (taken ++ q) -> priority_sorted q.
Proof.
  unfold priority_sorted. induction taken as [|x taken IH]; [trivial|].
  cbn [app]. intros H. inversion H; subst. apply IH. assumption.
Qed.

Lemma buffer_ok_of (w w' : World) :
  buffer_of w' = buffer_of w -> buffer_ok (monitor w) -> buffer_ok (monitor w').
Proof.
  unfold buffer_of, buffer_ok. intros [= H1 H2]. rewrite H1, H2. trivial.
Qed.

Lemma process_well_formed (w : World) :
  well_formed w -> well_formed (process w).
Proof.
  intros [Hb Hs]. unfold process.
  destruct (performance_now w) as [now w1] eqn:E.
  assert (Hw1 : w1 = snd (performance_now w)) by (rewrite E; reflexivity).
  destruct (process_loop_suffix
              (Queue.queue (animationQueue
                              (with_queue (Queue.set_frameStartTime now) w1)))
              (with_queue (Queue.set_frameStartTime now) w1) eq_refl)
    as [Hbuf [taken Ht]].
  assert (Hinv : well_formed
                   (process_loop
                      (Queue.queue (animationQueue
                         (with_queue (Queue.set_frameStartTime now) w1)))
                      (with_queue (Queue.set_frameStartTime now) w1))).
  { split.
    - apply (buffer_ok_of w); [|exact Hb]. rewrite Hbuf. subst w1. reflexivity.
    - apply (sorted_suffix taken). rewrite <- Ht. subst w1. exact Hs. }
  destruct Hinv as [Hb2 Hs2].
  destruct (_ || _); split; assumption.
Qed.

Lemma measure_queue (timestamp : Q) (w : World) :
  Queue.queue (animationQueue (measure timestamp w)) =
  Queue.queue (animationQueue w).
Proof.
  rewrite measure_animationQueue.
  unfold recorded. destruct (JS.truthy _); [|reflexivity].
  destruct (Nat.eqb (length (frameTimings (sampled timestamp (monitor w)))) 60)
    eqn:E.
  - rewrite (record_frame_full _ _ E), notifyCallbacks_called. cbn [fst].
    match goal with
    | |- context [foldl (subscriber_effect ?m) ?x ?l] =>
        destruct (call_subscribers_quiet m l x) as [_ ->]
    end.
    reflexivity.
  - rewrite (record_frame_partial _ _ E). reflexivity.
Qed.

Lemma measure_well_formed (timestamp : Q) (w : World) :
  well_formed w -> well_formed (measure timestamp w).
Proof.
  intros [Hb Hs]. split; [apply measure_buffer_ok, Hb|].
  rewrite measure_queue. exact Hs.
Qed.

Lemma quiet_well_formed (w w' : World) :
  quiet w w' -> well_formed w -> well_formed w'.
Proof.
  intros [Hb Hq] [Hok Hs]. split; [apply (buffer_ok_of w); assumption|].
  rewrite Hq. exact Hs.
Qed.

Lemma add_buffer (item : Item.t) (w : World) :
  buffer_of (add item w) = buffer_of w.
Proof.
  unfold add. destruct (_ || _); [reflexivity|].
  unfold performance_now, Browser.performance_now.
  cbn [animationQueue with_browser with_queue with_monitor Queue.isRunning
       Queue.set_queue].
  destruct (Queue.isRunning (animationQueue w)); [|reflexivity].
  match goal with
  | |- context [processQueue ?x] =>
      destruct (processQueue_quiet x) as [-> _]
  end.
  reflexivity.
Qed.

Lemma add_well_formed (item : Item.t) (w : World) :
  well_formed w -> well_formed (add item w).
Proof.
  intros [Hb Hs]. split; [|apply add_sorted, Hs].
  apply (buffer_ok_of w); [apply add_buffer | exact Hb].
Qed.

Lemma addBatch_well_formed (items : list Item.t) (w : World) :
  well_formed w -> well_formed (addBatch items w).
Proof.
  revert w. induction items as [|item rest IH]; intros w H; [exact H|].
  rewrite addBatch_cons. apply IH, add_well_formed, H.
Qed.

Lemma unregister_all_buffer (items : list Item.t) (m : Monitor.t) :
  frameTimings (unregister_all items m) = frameTimings m /\
  droppedFrames (unregister_all items m) = droppedFrames m.
Proof.
  revert m. induction items as [|item rest IH]; intros m; [split; reflexivity|].
  cbn [unregister_all foldl]. apply (IH (unregisterAnimation (Item.id item) m)).
Qed.

Lemma filter_sorted (P : Item.t -> Prop) `{forall x, Decision (P x)}
  (l : list Item.t) :
  priority_sorted l -> priority_sorted (filter P l).
Proof.
  unfold priority_sorted. intros Hl.
  induction Hl as [|x l Hs IH Hx]; [constructor|].
  rewrite filter_cons. destruct (decide (P x)); [|exact IH].
  constructor; [exact IH|].
  apply Forall_forall. intros y Hy. apply list_elem_of_filter in Hy as [_ Hy].
  rewrite Forall_forall in Hx. apply Hx, Hy.
Qed.

Lemma clear_well_formed (priority : option Q) (w : World) :
  well_formed w -> well_formed (clear priority w).
Proof.
  intros [Hb Hs]. unfold clear. destruct priority as [p|].
  - split.
    + apply (buffer_ok_of w); [|exact Hb]. unfold buffer_of. cbn.
      match goal with
      | |- context [unregister_all ?l ?m] =>
          destruct (unregister_all_buffer l m) as [-> ->]
      end.
      reflexivity.
    + cbn. apply filter_sorted, Hs.
  - split.
    + apply (buffer_ok_of w); [|exact Hb]. unfold buffer_of. cbn.
      destruct (unregister_all_buffer (Queue.queue (animationQueue w)) (monitor w))
        as [-> ->].
      reflexivity.
    + cbn. constructor.
Qed.

Lemma run_frame_callback_well_formed (h : positive) (timestamp : Q) (w : World) :
  well_formed w -> well_formed (run_frame_callback h timestamp w).
Proof.
  intros H. unfold run_frame_callback.
  destruct (Browser.frameCallbacks (browser w) !! h) as [[|]|]; [| |exact H].
  - apply measure_well_formed. exact H.
  - apply process_well_formed. exact H.
Qed.

Lemma step_well_formed (a : Action) (w : World) :
  well_formed w -> well_formed (step w a).
Proof.
  intros H. destruct a; cbn [step].
  - apply add_well_formed, H.
  - apply addBatch_well_formed, H.
  - apply (quiet_well_formed w); [apply start_quiet | exact H].
  - apply (quiet_well_formed w); [apply pause_quiet | exact H].
  - apply (quiet_well_formed w); [apply start_quiet | exact H].
  - apply clear_well_formed, H.
  - apply (quiet_well_formed w); [apply setMaxConcurrent_quiet | exact H].
  - apply (quiet_well_formed w); [apply subscribe_quiet | exact H].
  - apply run_frame_callback_well_formed, H.
  - apply (quiet_well_formed w); [apply promise_settles_quiet | exact H].
  - apply (quiet_well_formed w); [apply timer_fires_quiet | exact H].
Qed.

(** Every run keeps the buffer bounded and the queue ordered. *)
Lemma run_well_formed (actions : list Action) (w : World) :
  well_formed w -> well_formed (run actions w).
Proof.
  unfold run. revert w.
  induction actions as [|a rest IH]; intros w H; [exact H|].
  cbn [foldl]. apply IH, step_well_formed, H.
Qed.

Lemma getGlobalAnimationQueue_well_formed (w : World) :
  well_formed w -> well_formed (getGlobalAnimationQueue w).
Proof.
  intros [Hb _]. unfold getGlobalAnimationQueue, new_AnimationQueue, start.
  cbn [optAutoStart animationQueue with_queue Queue.fresh Queue.isRunning].
  match goal with
  | |- well_formed (with_monitor _ (processQueue ?x)) =>
      apply (quiet_well_formed x);
        [eapply quiet_trans; [apply processQueue_quiet | apply subscribe_quiet]|]
  end.
  split; [exact Hb | constructor].
Qed.

Lemma new_AnimationQueue_well_formed (options : QueueOptions) (w : World) :
  buffer_ok (monitor w) -> well_formed (new_AnimationQueue options w).
Proof.
  intros Hb. unfold new_AnimationQueue.
  assert (H : well_formed (with_queue (fun _ => Queue.fresh options) w))
    by (split; [exact Hb | constructor]).
  destruct (optAutoStart options) as [[|]|]; try exact H;
    apply (quiet_well_formed _ _ (start_quiet _) H).
Qed.

(** The pages runs start from: the monitor is monitoring and a queue has
    been built with some options. *)
Lemma page_well_formed (options : QueueOptions) (b : Browser.t) :
  well_formed (new_AnimationQueue options (boot b)).
Proof. apply new_AnimationQueue_well_formed, buffer_ok_initial. Qed.

End RunInvariants.

(** ** The bound on the sample buffer *)

Section BufferBound.

Import Monitor.

(** C8. The buffer of frame times never holds more than sixty samples,
    from the start of monitoring on, across every frame and in every run
    of the page; a sample that
    arrives at a full buffer pushes the oldest one out; the level is
    judged and the subscribers are told on the frames that leave exactly
    sixty samples in the buffer, and on no other. The subscribers are
    told in their order, every one of them when none throws, and up to
    the first one that throws otherwise. *)
Theorem sample_buffer_bounded :
  (forall (b : Browser.t) (timestamps : list Q),
     (length (frameTimings (monitor (measure_all timestamps (boot b)))) <= 60)%nat) /\
  (forall (b : Browser.t) (options : QueueOptions) (actions : list Action),
     (length (frameTimings
                (monitor (run actions (new_AnimationQueue options (boot b)))))
      <= 60)%nat) /\
  (forall (timestamp : Q) (w : World),
     (length (frameTimings (monitor w)) <= 60)%nat ->
     let after := measure timestamp w in
     (length (frameTimings (monitor after)) <= 60)%nat /\
     (JS.truthy (lastFrameTime (monitor w)) = true ->
      length (frameTimings (monitor w)) = 60%nat ->
      frameTimings (monitor after) =
      tail (frameTimings (monitor w)) ++ [timestamp - lastFrameTime (monitor w)]) /\
     (length (frameTimings (monitor after)) <> 60%nat ->
      qualityLevel (monitor after) = qualityLevel (monitor w) /\
      animationBudget (monitor after) = animationBudget (monitor w) /\
      Browser.trace (browser after) = Browser.trace (browser w) /\
      animationQueue after = animationQueue w) /\
     (completes_window timestamp w = true ->
      let judged := adjustQuality (sampled timestamp (monitor w)) in
      length (frameTimings (monitor after)) = 60%nat /\
      qualityLevel (monitor after) = qualityLevel judged /\
      animationBudget (monitor after) = animationBudget judged /\
      Browser.trace (browser after) =
        Browser.trace (browser w) ++
        omap (notification (getMetrics (Browser.memory (browser w)) judged))
             (called (callbacks (monitor w))) /\
      (walk_outcome (callbacks (monitor w)) = Returned ->
       called (callbacks (monitor w)) = callbacks (monitor w)))).
Proof.
  split; [|split].
  - intros b timestamps.
    apply (measure_all_buffer_ok timestamps (boot b)), buffer_ok_initial.
  - intros b options actions.
    apply (run_well_formed actions _ (page_well_formed options b)).
  - intros timestamp w Hlen. cbv zeta.
    split; [|split; [|split]].
    + rewrite measure_frameTimings, recorded_frameTimings.
      destruct (JS.truthy _); [|exact Hlen].
      rewrite pushed_length by exact Hlen. lia.
    + intros Ht Hfull.
      rewrite measure_frameTimings, recorded_frameTimings, Ht.
      apply pushed_full, Hfull.
    + intros Hne. apply measure_partial.
      destruct (completes_window timestamp w) eqn:E; [|reflexivity].
      destruct (measure_full timestamp w E) as (Hfull & _). contradiction.
    + intros E.
      destruct (measure_full timestamp w E) as (H1 & H2 & H3 & H4).
      repeat split; try assumption. apply called_all.
Qed.

Lemma sample_buffer_bounded_witness :
  let w := measure_all janky_timestamps (boot ticking_browser) in
  (length (frameTimings (monitor w)) <= 60)%nat /\
  (length (frameTimings (monitor (measure 1826 w))) <= 60)%nat.
Proof.
  cbv zeta.
  assert (H : (length (frameTimings
                 (monitor (measure_all janky_timestamps (boot ticking_browser))))
               <= 60)%nat) by (vm_compute; lia).
  split; [exact H|].
  exact (proj1 (proj2 (proj2 sample_buffer_bounded) 1826 _ H)).
Defined.

End BufferBound.

(** ** The order [add] keeps *)

Section AddOrder.

(** C4. Every sequence of [add] calls keeps the queue in non-decreasing
    order of numeric priority, on a fresh queue and on any queue that was
    so ordered, and so does every run of the page; among the items of one priority the queue keeps the order
    of the calls (the items already queued first, then the admitted ones
    as they came); and each admitted item lands behind every item whose
    priority does not exceed its own, right in front of the first item of
    strictly greater priority, or at the end. *)
Theorem add_keeps_priority_order :
  (forall (options : QueueOptions) (w : World) (items : list Item.t),
     priority_sorted
       (Queue.queue (animationQueue (addBatch items (new_AnimationQueue options w))))) /\
  (forall (b : Browser.t) (options : QueueOptions) (actions : list Action),
     priority_sorted
       (Queue.queue
          (animationQueue (run actions (new_AnimationQueue options (boot b)))))) /\
  (forall (items : list Item.t) (w : World),
     priority_sorted (Queue.queue (animationQueue w)) ->
     priority_sorted (Queue.queue (animationQueue (addBatch items w))) /\
     (forall p : Q,
        with_priority p (untimed (Queue.queue (animationQueue (addBatch items w)))) =
        with_priority p (untimed (Queue.queue (animationQueue w))) ++
        with_priority p (untimed (admitted w items)))) /\
  (forall (item : Item.t) (w : World),
     known w item = false ->
     exists before behind : list Item.t,
       Queue.queue (animationQueue w) = before ++ behind /\
       Queue.queue (animationQueue (add item w)) =
         before ++ Item.set_timestamp (Some (add_time w)) item :: behind /\
       Forall (fun y => Item.priority y <= Item.priority item) before /\
       match behind with
       | [] => True
       | next :: _ => Item.priority item < Item.priority next
       end).
Proof.
  split; [|split; [|split]].
  - intros options w items. apply addBatch_sorted.
    assert (H : Queue.queue (animationQueue (new_AnimationQueue options w)) = []).
    { unfold new_AnimationQueue, start.
      destruct (optAutoStart options) as [[|]|]; cbn;
        rewrite ?(proj1 (processQueue_queue _)); reflexivity. }
    rewrite H. constructor.
  - intros b options actions.
    apply (run_well_formed actions _ (page_well_formed options b)).
  - intros items w H. split; [apply addBatch_sorted, H|].
    intros p. apply addBatch_with_priority, H.
  - intros item w Hk. rewrite add_queue by exact Hk.
    destruct (insert_position (Item.set_timestamp (Some (add_time w)) item)
                (Queue.queue (animationQueue w)))
      as (before & behind & H1 & H2 & H3 & H4).
    exists before, behind. repeat split; assumption.
Qed.

Lemma add_keeps_priority_order_witness :
  let w := getGlobalAnimationQueue (boot ticking_browser) in
  priority_sorted (Queue.queue (animationQueue w)) /\
  priority_sorted (Queue.queue (animationQueue (addBatch page_batch w))) /\
  with_priority AnimationPriority.LOW
    (untimed (Queue.queue (animationQueue (addBatch page_batch w)))) =
  [ plain_item "glow" AnimationPriority.LOW ReturnsVoid;
    plain_item "sparkle" AnimationPriority.LOW ReturnsVoid ].
Proof.
  cbv zeta.
  assert (H : priority_sorted
                (Queue.queue
                   (animationQueue (getGlobalAnimationQueue (boot ticking_browser)))))
    by (vm_compute; constructor).
  destruct (proj1 (proj2 (proj2 add_keeps_priority_order)) page_batch _ H)
    as [Hs Hf].
  split; [exact H|]. split; [exact Hs|].
  rewrite Hf. vm_compute. reflexivity.
Defined.

(** The batch of the witness, in the order the queue holds it. *)
Example page_batch_order :
  map Item.id
    (Queue.queue
       (animationQueue
          (addBatch page_batch (getGlobalAnimationQueue (boot ticking_browser)))))
  = ["route"; "press"; "glow"; "sparkle"].
Proof. vm_compute. reflexivity. Qed.

End AddOrder.

(** * Further properties of the code *)

(** ** [clamp], [lerp] and [mapRange] *)

Section NumericHelpers.

Import Numeric.

(** X1. With [min <= max], [clamp] returns a value of the interval, the
    value itself when it already lies there, and clamping twice changes
    nothing more. With the bounds the wrong way round it returns [max]
    whatever the value is. *)
Theorem clamp_range (value min max : Q) :
  (min <= max ->
   min <= clamp value min max /\ clamp value min max <= max /\
   (min <= value -> value <= max -> clamp value min max == value) /\
   clamp (clamp value min max) min max == clamp value min max) /\
  (max < min -> clamp value min max == max).
Proof.
  unfold clamp. split.
  - intros Hle.
    assert (Hlo : min <= Qmin (Qmax value min) max).
    { apply Q.min_glb; [apply Q.le_max_r | exact Hle]. }
    assert (Hhi : Qmin (Qmax value min) max <= max) by apply Q.le_min_r.
    split; [exact Hlo|]. split; [exact Hhi|]. split.
    + intros H1 H2. rewrite Q.max_l by exact H1. apply Q.min_l, H2.
    + rewrite (Q.max_l (Qmin (Qmax value min) max) min) by exact Hlo.
      apply Q.min_l, Hhi.
  - intros Hinv. apply Q.min_r.
    apply Qle_trans with min; [lra | apply Q.le_max_r].
Qed.

Lemma clamp_range_witness :
  clamp 150 0 100 <= 100 /\ clamp 5 10 0 == 0.
Proof.
  split.
  - apply (proj1 (clamp_range 150 0 100)). discriminate.
  - apply (proj2 (clamp_range 5 10 0)). reflexivity.
Defined.

Lemma SF64sub_diag (x : spec_float) :
  SF64sub x x = S754_zero false \/ SF64sub x x = S754_nan.
Proof.
  destruct x as [[|]|[|]| |s m e]; cbn; auto.
  left. unfold SF64sub, SFsub. rewrite Z.sub_diag. reflexivity.
Qed.

(** X2. On binary64 numbers: [lerp] at progress 0 is [start], unless
    [end - start] overflows or is not a number, and then the result is
    [NaN]; [mapRange] sends [inMin] to [outMin] when the two differences
    are finite and the input range is not a point; when [inMin] and
    [inMax] are the same number, the result is never finite, whatever
    the value. Nothing of the kind holds at the other end: rounding
    makes [lerp(0.3, 0.9, 1)] differ from [0.9], and [mapRange]
    overflows to [Infinity] on a range that is not a point. *)
Theorem lerp_mapRange_binary64 :
  (forall start end_ : float,
     number_isFinite (PrimFloat.sub end_ start) = true ->
     number_isNaN start = false ->
     PrimFloat.eqb (lerp start end_ 0%float) start = true) /\
  (forall start end_ : float,
     number_isFinite (PrimFloat.sub end_ start) = false ->
     number_isNaN (lerp start end_ 0%float) = true) /\
  (forall value inMin outMin outMax : float,
     number_isFinite (mapRange value inMin inMin outMin outMax) = false) /\
  (forall inMin inMax outMin outMax : float,
     number_isFinite inMin = true ->
     number_isFinite (PrimFloat.sub outMax outMin) = true ->
     number_isNaN (PrimFloat.sub inMax inMin) = false ->
     number_isZero (PrimFloat.sub inMax inMin) = false ->
     number_isNaN outMin = false ->
     PrimFloat.eqb (mapRange inMin inMin inMax outMin outMax) outMin = true).
Proof.
  split; [|split; [|split]].
  - intros s e. unfold number_isFinite, number_isNaN, lerp.
    rewrite FloatAxioms.eqb_spec, FloatAxioms.add_spec, FloatAxioms.mul_spec.
    change (Prim2SF 0%float) with (S754_zero false).
    destruct (Prim2SF (PrimFloat.sub e s)) as [[|]|sd| |[|] md ed];
      try discriminate;
      intros _; destruct (Prim2SF s) as [[|]|[|]| |[|] ms es];
      try discriminate; intros _; cbn;
      rewrite ?Z.compare_refl, ?Pos.compare_cont_refl; reflexivity.
  - intros s e. unfold number_isFinite, number_isNaN, lerp.
    rewrite FloatAxioms.add_spec, FloatAxioms.mul_spec.
    change (Prim2SF 0%float) with (S754_zero false).
    destruct (Prim2SF (PrimFloat.sub e s)) as [sd|sd| |sd md ed];
      try discriminate;
      intros _; destruct (Prim2SF s) as [[|]|[|]| |[|] ms es]; reflexivity.
  - intros v a o1 o2. unfold number_isFinite, mapRange.
    rewrite FloatAxioms.add_spec, FloatAxioms.div_spec,
      (FloatAxioms.sub_spec a a).
    destruct (SF64sub_diag (Prim2SF a)) as [-> | ->];
      destruct (Prim2SF (PrimFloat.mul _ _)) as [[|]|[|]| |[|] m e];
      destruct (Prim2SF o1) as [[|]|[|]| |[|] m1 e1]; reflexivity.
  - intros a b o1 o2.
    unfold number_isFinite, number_isNaN, number_isZero, mapRange.
    rewrite FloatAxioms.eqb_spec, FloatAxioms.add_spec, FloatAxioms.div_spec,
      FloatAxioms.mul_spec, (FloatAxioms.sub_spec a a).
    intros Ha.
    assert (Hz : SF64sub (Prim2SF a) (Prim2SF a) = S754_zero false).
    { destruct (Prim2SF a) as [[|]|[|]| |s m e]; try discriminate; cbn; auto.
      unfold SF64sub, SFsub. rewrite Z.sub_diag. reflexivity. }
    rewrite Hz.
    destruct (Prim2SF (PrimFloat.sub o2 o1)) as [sd|sd| |sd md ed];
      try discriminate; intros _;
      destruct (Prim2SF (PrimFloat.sub b a)) as [sb|sb| |sb mb eb];
      try discriminate; intros _ _;
      destruct (Prim2SF o1) as [[|]|[|]| |[|] m1 e1]; try discriminate;
      intros _;
      destruct sd, sb; cbn; rewrite ?Z.compare_refl, ?Pos.compare_cont_refl;
      reflexivity.
Qed.

(** A fade from 0.3 to 0.9 starts at 0.3 but does not end at 0.9; a
    range from the largest negative to the largest positive number gives
    [NaN] already at progress 0; and a value of 2^1023 mapped from
    [0, 1] to [0, 10] is [Infinity]. *)
Lemma lerp_mapRange_binary64_witness :
  PrimFloat.eqb (lerp three_tenths nine_tenths 0%float) three_tenths = true /\
  PrimFloat.eqb (lerp three_tenths nine_tenths 1%float) nine_tenths = false /\
  number_isNaN
    (lerp (PrimFloat.opp largest_number) largest_number 0%float) = true /\
  number_isFinite (mapRange 5%float 3%float 3%float 0%float 1%float) = false /\
  PrimFloat.eqb
    (mapRange 0%float 0%float 10%float 100%float 200%float) 100%float = true /\
  mapRange huge_number 0%float 1%float 0%float 10%float = PrimFloat.infinity.
Proof.
  destruct lerp_mapRange_binary64 as (Hzero & Hover & Hpoint & Hmin).
  split; [apply Hzero; vm_compute; reflexivity|].
  split; [vm_compute; reflexivity|].
  split; [apply Hover; vm_compute; reflexivity|].
  split; [apply Hpoint|].
  split; [apply Hmin; vm_compute; reflexivity|].
  vm_compute. reflexivity.
Defined.

End NumericHelpers.

(** ** Settings by quality level *)

Section Settings.

Import Optimized.

(** X3. The spring of [createOptimizedSpring] is never stiffer than the
    base spring nor than the level allows, and never less damped than
    either. A worse level never switches an effect on and never raises
    the stiffness, the damping floor, the duration or the number of
    particles; it never lowers the mass or the stagger. *)
Theorem settings_degrade (baseStiffness baseDamping : Q)
  (better worse : QualityLevel) :
  let spring := createOptimizedSpring baseStiffness baseDamping worse in
  let b := getOptimizedAnimationConfig better in
  let w := getOptimizedAnimationConfig worse in
  springStiffness spring <= baseStiffness /\
  springStiffness spring <= stiffness w /\
  baseDamping <= springDamping spring /\
  damping w <= springDamping spring /\
  ((quality_rank better <= quality_rank worse)%nat ->
   stiffness w <= stiffness b /\ damping w <= damping b /\
   duration w <= duration b /\ particleCount w <= particleCount b /\
   mass b <= mass w /\ stagger b <= stagger w /\
   (enableBlur w = true -> enableBlur b = true) /\
   (enableGlow w = true -> enableGlow b = true) /\
   (enable3D w = true -> enable3D b = true) /\
   springStiffness spring <=
     springStiffness (createOptimizedSpring baseStiffness baseDamping better)).
Proof.
  cbv zeta. unfold createOptimizedSpring. cbn [springStiffness springDamping].
  split; [apply Q.le_min_l|]. split; [apply Q.le_min_r|].
  split; [apply Q.le_max_l|]. split; [apply Q.le_max_r|].
  intros Hrank.
  assert (Hs : stiffness (getOptimizedAnimationConfig worse)
               <= stiffness (getOptimizedAnimationConfig better)).
  { destruct better, worse; cbn in Hrank; try lia; cbn; lra. }
  split; [exact Hs|].
  split; [destruct better, worse; cbn in Hrank; try lia; cbn; lra|].
  split; [destruct better, worse; cbn in Hrank; try lia; cbn; lra|].
  split; [destruct better, worse; cbn in Hrank; try lia; cbn; lra|].
  split; [destruct better, worse; cbn in Hrank; try lia; cbn; lra|].
  split; [destruct better, worse; cbn in Hrank; try lia; cbn; lra|].
  split; [destruct better, worse; cbn in Hrank; try lia; cbn; congruence|].
  split; [destruct better, worse; cbn in Hrank; try lia; cbn; congruence|].
  split; [destruct better, worse; cbn in Hrank; try lia; cbn; congruence|].
  apply Q.min_le_compat_l, Hs.
Qed.

Lemma settings_degrade_witness :
  particleCount (getOptimizedAnimationConfig low)
  <= particleCount (getOptimizedAnimationConfig high) /\
  springStiffness (createOptimizedSpring 500 10 low) <= 250.
Proof.
  destruct (settings_degrade 500 10 high low) as (_ & H250 & _ & _ & H).
  split; [|exact H250].
  apply H. cbn. lia.
Defined.

End Settings.

(** ** Which animations the queue skips *)

Section ImportantAnimations.

Import Monitor.

Lemma registered_size (id : string) (m : Monitor.t) :
  id ∈ activeAnimations m -> (1 <= size (activeAnimations m))%nat.
Proof.
  intros Hin. destruct (size (activeAnimations m)) eqn:E; [|lia].
  apply size_empty_inv in E. exfalso. apply (not_elem_of_empty (C:=gset string) id).
  rewrite <- E. exact Hin.
Qed.

(** X4. An animation whose id is registered with the monitor, as [add]
    leaves it, and whose priority is [HIGH] or more important is never
    skipped: the loop of [process] executes it at every quality level and
    under every load. An animation of priority [HIGH] is skipped in one
    state only, at level [minimal] with no animation registered at all. *)
Theorem important_animations_run (item : Item.t) (w : World) :
  (Item.priority item <= AnimationPriority.HIGH ->
   Item.id item ∈ activeAnimations (monitor w) ->
   shouldSkipAnimation (Item.priority item) (monitor w) = false /\
   loop_body item w = executeAnimation item w) /\
  (shouldSkipAnimation AnimationPriority.HIGH (monitor w) = true <->
   qualityLevel (monitor w) = minimal /\ activeAnimations (monitor w) = ∅).
Proof.
  split.
  - intros Hp Hin.
    assert (Hskip : shouldSkipAnimation (Item.priority item) (monitor w) = false).
    { pose proof (registered_size _ _ Hin) as Hsize.
      unfold shouldSkipAnimation, getMaxConcurrentAnimations,
        AnimationPriority.HIGH in *.
      destruct (Nat.leb_spec
                  match qualityLevel (monitor w) with
                  | ultra => 10 | high => 7 | medium => 5 | low => 3 | minimal => 1
                  end%nat
                  (size (activeAnimations (monitor w)))) as [Hcap|Hfree].
      - apply not_true_iff_false. rewrite Qle_bool_iff.
        unfold AnimationPriority.MEDIUM. lra.
      - destruct (qualityLevel (monitor w)); try reflexivity;
          try (apply JSFacts.Qlt_bool_false_iff;
               unfold AnimationPriority.HIGH, AnimationPriority.MEDIUM; lra).
        lia. }
    split; [exact Hskip|]. unfold loop_body. rewrite Hskip. reflexivity.
  - unfold shouldSkipAnimation, getMaxConcurrentAnimations.
    change (Qle_bool AnimationPriority.MEDIUM AnimationPriority.HIGH) with false.
    change (JS.Qlt_bool AnimationPriority.CRITICAL AnimationPriority.HIGH)
      with true.
    change (JS.Qlt_bool AnimationPriority.HIGH AnimationPriority.HIGH)
      with false.
    change (JS.Qlt_bool AnimationPriority.MEDIUM AnimationPriority.HIGH)
      with false.
    destruct (qualityLevel (monitor w)) eqn:Hq;
      try (destruct (Nat.leb _ _); cbv iota;
           (split; [intros H; discriminate H | intros [H _]; discriminate H])).
    destruct (Nat.leb_spec 1 (size (activeAnimations (monitor w)))) as [Hcap|Hfree].
    + cbv iota. split; [intros H; discriminate H|].
      intros [_ He]. rewrite He, size_empty in Hcap. lia.
    + cbv iota. split; [intros _|reflexivity]. split; [reflexivity|].
      apply leibniz_equiv, size_empty_inv. lia.
Qed.

Lemma important_animations_run_witness :
  let press := plain_item "press" AnimationPriority.HIGH ReturnsVoid in
  let w := with_monitor (set_quality minimal 50)
             (add press (getGlobalAnimationQueue (boot ticking_browser))) in
  shouldSkipAnimation AnimationPriority.HIGH (monitor w) = false /\
  loop_body press w = executeAnimation press w.
Proof.
  cbv zeta.
  apply (proj1 (important_animations_run
                  (plain_item "press" AnimationPriority.HIGH ReturnsVoid) _)).
  - discriminate.
  - apply (bool_decide_unpack _). vm_compute. exact I.
Defined.

End ImportantAnimations.

(** ** What the bookkeeping of an execution leaves alone *)

Section BookkeepingFrames.

Import Monitor.

Ltac frame_cases :=
  unfold requestAnimationFrame, Browser.requestAnimationFrame,
    performance_now, Browser.performance_now;
  repeat match goal with
         | |- context [if ?c then _ else _] => destruct c
         | |- context [match ?c with _ => _ end] => destruct c
         end;
  try reflexivity.

Lemma finally_block_scheduling (item : Item.t) (w : World) :
  scheduling (finally_block item w) = scheduling w.
Proof. unfold finally_block, mark_completed, run_cleanup. cbn. frame_cases. Qed.

Lemma catch_block_scheduling (item : Item.t) (error : string) (w : World) :
  scheduling (catch_block item error w) = scheduling w.
Proof. unfold catch_block. rewrite finally_block_scheduling. reflexivity. Qed.

Lemma after_result_scheduling (item : Item.t) (w : World) :
  scheduling (after_result item w) = scheduling w.
Proof.
  unfold after_result. destruct (JS.truthy_opt _); [reflexivity|].
  apply finally_block_scheduling.
Qed.

Lemma executeAnimation_scheduling (item : Item.t) (w : World) :
  scheduling (executeAnimation item w) = scheduling w.
Proof.
  unfold executeAnimation. destruct (Item.execute item);
    rewrite ?after_result_scheduling, ?catch_block_scheduling; reflexivity.
Qed.

Lemma loop_body_scheduling (item : Item.t) (w : World) :
  scheduling (loop_body item w) = scheduling w.
Proof.
  unfold loop_body. destruct (shouldSkipAnimation _ _); [reflexivity|].
  apply executeAnimation_scheduling.
Qed.

Lemma process_loop_scheduling (q : list Item.t) (w : World) :
  scheduling (process_loop q w) = scheduling w.
Proof.
  revert w. induction q as [|item rest IH]; intros w; [reflexivity|].
  cbn [process_loop]. destruct (can_execute_more w); [|reflexivity].
  unfold hasFrameBudget, performance_now, Browser.performance_now.
  destruct (JS.Qlt_bool _ _); [|reflexivity].
  rewrite IH, loop_body_scheduling. reflexivity.
Qed.

(** The executing map after the [finally] block. *)
Lemma finally_block_executing (item : Item.t) (w : World) :
  Queue.executing (animationQueue (finally_block item w)) =
  delete (Item.id item) (Queue.executing (animationQueue w)).
Proof. apply finally_block_settles. Qed.









End BookkeepingFrames.

(** ** The concurrency limit *)

Section ConcurrencyLimit.

Import Monitor.







End ConcurrencyLimit.

(** ** The completed set *)

Section CompletedSet.

Import Monitor.

Lemma finally_block_completed_size (item : Item.t) (w : World) :
  (completed_size (finally_block item w) <= 100)%nat.
Proof.
  unfold completed_size.
  destruct (finally_block_settles item w) as ((_ & Hc & _) & _).
  rewrite Hc. cbv zeta.
  destruct (Nat.ltb_spec 100
              (size ({[Item.id item]} ∪ Queue.completedAnimations (animationQueue w))))
    as [Hgt|Hle]; [rewrite size_empty; lia | exact Hle].
Qed.

Lemma executeAnimation_completed_size (item : Item.t) (w : World) :
  (completed_size w <= 100)%nat ->
  (completed_size (executeAnimation item w) <= 100)%nat.
Proof.
  intros H. unfold executeAnimation, after_result, catch_block.
  destruct (Item.execute item); [destruct (JS.truthy_opt _)| |];
    try apply finally_block_completed_size; exact H.
Qed.

Lemma process_loop_completed_size (q : list Item.t) (w : World) :
  (completed_size w <= 100)%nat ->
  (completed_size (process_loop q w) <= 100)%nat.
Proof.
  revert w. induction q as [|item rest IH]; intros w H; [exact H|].
  cbn [process_loop]. destruct (can_execute_more w); [|exact H].
  unfold hasFrameBudget, performance_now, Browser.performance_now.
  destruct (JS.Qlt_bool _ _); [|exact H].
  apply IH. unfold loop_body.
  destruct (shouldSkipAnimation _ _); [exact H|].
  apply executeAnimation_completed_size. exact H.
Qed.

Lemma process_completed_size (w : World) :
  (completed_size w <= 100)%nat -> (completed_size (process w) <= 100)%nat.
Proof.
  intros H. unfold process, performance_now, Browser.performance_now.
  match goal with
  | |- context [process_loop ?q ?x] =>
      pose proof (process_loop_completed_size q x H) as Hl
  end.
  destruct (_ || _); exact Hl.
Qed.

Lemma call_subscribers_completed metrics (subs : list Subscriber) (w : World) :
  Queue.completedAnimations
    (animationQueue (foldl (subscriber_effect metrics) w subs))
  = Queue.completedAnimations (animationQueue w).
Proof.
  revert w. induction subs as [|s subs IH]; intros w; [reflexivity|].
  cbn [foldl]. rewrite IH. destruct s; [|reflexivity..].
  unfold subscriber_effect, queue_concurrency, setMaxConcurrent.
  repeat match goal with |- context [if ?c then _ else _] => destruct c end;
    rewrite ?(proj2 (proj2 (processQueue_queue _))); reflexivity.
Qed.

Lemma measure_completed (timestamp : Q) (w : World) :
  Queue.completedAnimations (animationQueue (measure timestamp w)) =
  Queue.completedAnimations (animationQueue w).
Proof.
  rewrite measure_animationQueue.
  unfold recorded. destruct (JS.truthy _); [|reflexivity].
  destruct (Nat.eqb (length (frameTimings (sampled timestamp (monitor w)))) 60)
    eqn:E.
  - rewrite (record_frame_full _ _ E), notifyCallbacks_called. cbn [fst].
    rewrite call_subscribers_completed. reflexivity.
  - rewrite (record_frame_partial _ _ E). reflexivity.
Qed.

Lemma step_completed_size (a : Action) (w : World) :
  (completed_size w <= 100)%nat -> (completed_size (step w a) <= 100)%nat.
Proof.
  intros H. destruct a; cbn [step].
  - unfold completed_size.
    rewrite (proj2 (add_executing_completed item w)). exact H.
  - revert w H. induction items as [|item rest IH]; intros w H; [exact H|].
    rewrite addBatch_cons. apply IH. unfold completed_size.
    rewrite (proj2 (add_executing_completed item w)). exact H.
  - unfold start. destruct (Queue.isRunning _); [exact H|].
    unfold completed_size. rewrite (proj2 (proj2 (processQueue_queue _))).
    exact H.
  - unfold pause. destruct (Queue.rafId _); exact H.
  - unfold resume, start. destruct (Queue.isRunning _); [exact H|].
    unfold completed_size. rewrite (proj2 (proj2 (processQueue_queue _))).
    exact H.
  - unfold clear. destruct priority; exact H.
  - unfold setMaxConcurrent. destruct (Queue.isRunning _); [|exact H].
    unfold completed_size. rewrite (proj2 (proj2 (processQueue_queue _))).
    exact H.
  - exact H.
  - unfold run_frame_callback.
    destruct (Browser.frameCallbacks (browser w) !! h) as [[|]|]; [| |exact H].
    + unfold completed_size. rewrite measure_completed. exact H.
    + apply process_completed_size. exact H.
  - unfold promise_settles.
    destruct (suspended w !! i) as [[item [|]]|]; try exact H.
    unfold resume_result, after_result, catch_block.
    destruct s; [destruct (JS.truthy_opt _)|];
      try apply finally_block_completed_size; exact H.
  - unfold timer_fires.
    destruct (suspended w !! i) as [[item [|]]|]; try exact H.
    apply finally_block_completed_size.
Qed.

(** X6. The set of completed ids never holds more than a hundred ids, in
    every run of a page. The hundred-and-first id empties it: from then
    on the queue has forgotten which animations had completed, and [add]
    admits them again. *)
Theorem completed_set_bounded :
  (forall (b : Browser.t) (options : QueueOptions) (actions : list Action),
     (completed_size (run actions (new_AnimationQueue options (boot b)))
      <= 100)%nat) /\
  (forall (item : Item.t) (w : World),
     (completed_size (finally_block item w) <= 100)%nat) /\
  (forall (item other : Item.t) (w : World),
     completed_size w = 100%nat ->
     Item.id item ∉ Queue.completedAnimations (animationQueue w) ->
     Queue.completedAnimations (animationQueue (finally_block item w)) = ∅ /\
     (Queue.executing (animationQueue (finally_block item w)) !! Item.id other
      = None ->
      known (finally_block item w) other = false)).
Proof.
  split; [|split].
  - intros b options actions. unfold run.
    assert (H0 : (completed_size (new_AnimationQueue options (boot b)) <= 100)%nat).
    { unfold completed_size, new_AnimationQueue, start.
      destruct (optAutoStart options) as [[|]|]; cbn;
        rewrite ?(proj2 (proj2 (processQueue_queue _))); cbn;
        rewrite size_empty; lia. }
    revert H0. generalize (new_AnimationQueue options (boot b)).
    induction actions as [|a rest IH]; intros w H; [exact H|].
    cbn [foldl]. apply IH, step_completed_size, H.
  - apply finally_block_completed_size.
  - intros item other w Hsize Hnew.
    destruct (finally_block_settles item w) as ((_ & Hc & _) & _).
    assert (Hempty : Queue.completedAnimations
                       (animationQueue (finally_block item w)) = ∅).
    { rewrite Hc. cbv zeta.
      rewrite size_union by (apply disjoint_singleton_l, Hnew).
      rewrite size_singleton.
      unfold completed_size in Hsize. rewrite Hsize. reflexivity. }
    split; [exact Hempty|].
    intros Hex. unfold known. rewrite Hempty, Hex.
    rewrite bool_decide_eq_false_2 by apply not_elem_of_empty.
    rewrite bool_decide_eq_false_2 by (intros [? ?]; discriminate).
    reflexivity.
Qed.

Lemma completed_set_bounded_witness :
  let glow := plain_item "glow" AnimationPriority.LOW ReturnsVoid in
  let ids : gset string :=
    list_to_set (map (fun n : nat => pretty n) (seq 0 100)) in
  let w := with_queue (Queue.set_completedAnimations ids)
             (getGlobalAnimationQueue (boot ticking_browser)) in
  completed_size w = 100%nat /\
  Queue.completedAnimations (animationQueue (finally_block glow w)) = ∅ /\
  known (finally_block glow w) (plain_item "7" AnimationPriority.LOW ReturnsVoid)
  = false.
Proof.
  cbv zeta.
  assert (Hsize : completed_size
                    (with_queue
                       (Queue.set_completedAnimations
                          (list_to_set (map (fun n : nat => pretty n) (seq 0 100))))
                       (getGlobalAnimationQueue (boot ticking_browser)))
                  = 100%nat) by (vm_compute; reflexivity).
  split; [exact Hsize|].
  destruct (proj2 (proj2 completed_set_bounded)
              (plain_item "glow" AnimationPriority.LOW ReturnsVoid)
              (plain_item "7" AnimationPriority.LOW ReturnsVoid) _ Hsize)
    as [Hempty Hknown].
  - apply (bool_decide_unpack _). vm_compute. exact I.
  - split; [exact Hempty|]. apply Hknown. vm_compute. reflexivity.
Defined.

End CompletedSet.

(** ** Clearing the queue *)

Section Clearing.

Import Monitor.

Lemma unregister_all_active (items : list Item.t) (m : Monitor.t) :
  activeAnimations (unregister_all items m) =
  activeAnimations m ∖ list_to_set (map Item.id items).
Proof.
  revert m. induction items as [|item rest IH]; intros m.
  - cbn. apply leibniz_equiv. rewrite difference_empty. reflexivity.
  - cbn [unregister_all foldl map list_to_set].
    change (foldl (fun m0 i => unregisterAnimation (Item.id i) m0)
              (unregisterAnimation (Item.id item) m) rest)
      with (unregister_all rest (unregisterAnimation (Item.id item) m)).
    rewrite IH. cbn. apply leibniz_equiv. intros x.
    rewrite !elem_of_difference, elem_of_union, elem_of_singleton. tauto.
Qed.

Lemma unregister_all_rafId (items : list Item.t) (m : Monitor.t) :
  rafId (unregister_all items m) = rafId m.
Proof.
  revert m. induction items as [|item rest IH]; intros m; [reflexivity|].
  cbn [unregister_all foldl].
  apply (IH (unregisterAnimation (Item.id item) m)).
Qed.

Lemma with_priority_cleared (p : Q) (q : list Item.t) :
  with_priority p
    (filter (fun i => Qeq_bool (Item.priority i) p = false) q) = [].
Proof.
  induction q as [|y rest IH]; [reflexivity|].
  rewrite filter_cons. destruct (decide _) as [E|E]; [|exact IH].
  unfold with_priority in *. cbn [List.filter]. rewrite E. exact IH.
Qed.

Lemma with_priority_kept (p p' : Q) (q : list Item.t) :
  ~ p' == p ->
  with_priority p'
    (filter (fun i => Qeq_bool (Item.priority i) p = false) q)
  = with_priority p' q.
Proof.
  intros Hne. induction q as [|y rest IH]; [reflexivity|].
  rewrite filter_cons. unfold with_priority in *. cbn [List.filter].
  destruct (decide _) as [E|E].
  - cbn [List.filter]. rewrite IH. reflexivity.
  - apply not_false_is_true in E. apply Qeq_bool_iff in E.
    destruct (Qeq_bool (Item.priority y) p') eqn:E'; [|exact IH].
    apply Qeq_bool_iff in E'. exfalso. apply Hne. rewrite <- E', E. reflexivity.
Qed.

(** X7. [clear(priority)] takes out of the queue exactly the items of
    that priority: none of them is left, the items of every other
    priority stay, in their order, and the ids of the removed items are
    unregistered from the monitor while every other id keeps its
    registration. [clear()] empties the queue and unregisters every
    queued id. Neither touches the executing animations, the completed
    set or the scheduling of frames. *)
Theorem clear_removes_priority (w : World) :
  (forall p : Q,
     let after := clear (Some p) w in
     with_priority p (Queue.queue (animationQueue after)) = [] /\
     (forall p' : Q,
        ~ p' == p ->
        with_priority p' (Queue.queue (animationQueue after)) =
        with_priority p' (Queue.queue (animationQueue w))) /\
     (forall id : string,
        id ∈ activeAnimations (monitor after) <->
        id ∈ activeAnimations (monitor w) /\
        ~ exists item : Item.t,
            item ∈ Queue.queue (animationQueue w) /\
            Item.priority item == p /\ Item.id item = id) /\
     Queue.executing (animationQueue after) = Queue.executing (animationQueue w) /\
     Queue.completedAnimations (animationQueue after) =
       Queue.completedAnimations (animationQueue w) /\
     scheduling after = scheduling w) /\
  (let after := clear None w in
   Queue.queue (animationQueue after) = [] /\
   (forall id : string,
      id ∈ activeAnimations (monitor after) <->
      id ∈ activeAnimations (monitor w) /\
      ~ exists item : Item.t,
          item ∈ Queue.queue (animationQueue w) /\ Item.id item = id) /\
   Queue.executing (animationQueue after) = Queue.executing (animationQueue w) /\
   Queue.completedAnimations (animationQueue after) =
     Queue.completedAnimations (animationQueue w) /\
   scheduling after = scheduling w).
Proof.
  split.
  - intros p. cbv zeta. unfold clear.
    cbn [animationQueue monitor with_queue with_monitor Queue.queue
         Queue.set_queue Queue.executing Queue.completedAnimations].
    split; [apply with_priority_cleared|].
    split; [intros p' Hne; apply with_priority_kept, Hne|].
    split; [|repeat split;
             unfold scheduling; cbn; rewrite unregister_all_rafId; reflexivity].
    intros id. rewrite unregister_all_active, elem_of_difference.
    rewrite elem_of_list_to_set, list_elem_of_fmap.
    split; intros [Hin Hno]; (split; [exact Hin|]).
    + intros (item & Hq & Hp & Hid). apply Hno. exists item.
      split; [symmetry; exact Hid|].
      apply list_elem_of_filter. split; [|exact Hq].
      apply Qeq_bool_iff, Hp.
    + intros (item & Hid & Hf). apply list_elem_of_filter in Hf as [Hp Hq].
      apply Hno. exists item. split; [exact Hq|].
      split; [apply Qeq_bool_iff, Hp | symmetry; exact Hid].
  - cbv zeta. unfold clear.
    cbn [animationQueue monitor with_queue with_monitor Queue.queue
         Queue.set_queue Queue.executing Queue.completedAnimations].
    split; [reflexivity|].
    split; [|repeat split;
             unfold scheduling; cbn; rewrite unregister_all_rafId; reflexivity].
    intros id. rewrite unregister_all_active, elem_of_difference.
    rewrite elem_of_list_to_set, list_elem_of_fmap.
    split; intros [Hin Hno]; (split; [exact Hin|]).
    + intros (item & Hq & Hid). apply Hno. exists item.
      split; [symmetry; exact Hid | exact Hq].
    + intros (item & Hid & Hq). apply Hno. exists item.
      split; [exact Hq | symmetry; exact Hid].
Qed.

Lemma clear_removes_priority_witness :
  let w := addBatch page_batch (getGlobalAnimationQueue (boot ticking_browser)) in
  map Item.id (Queue.queue (animationQueue (clear (Some AnimationPriority.LOW) w)))
  = ["route"; "press"] /\
  with_priority AnimationPriority.HIGH
    (Queue.queue (animationQueue (clear (Some AnimationPriority.LOW) w)))
  = with_priority AnimationPriority.HIGH (Queue.queue (animationQueue w)).
Proof.
  cbv zeta. split; [vm_compute; reflexivity|].
  apply (proj1 (clear_removes_priority _) AnimationPriority.LOW).
  discriminate.
Defined.

End Clearing.

(** ** The discipline of frame callbacks *)

Section FrameDiscipline.
Import Monitor.

Lemma processQueue_view (w : World) :
  frame_view (processQueue w) = schedule_view (frame_view w).
Proof.
  unfold processQueue, has_rafId, frame_view, schedule_view.
  destruct (Queue.isRunning (animationQueue w)) eqn:Hr; cbn [negb].
  - destruct (Queue.rafId (animationQueue w)) eqn:Hq; cbn [negb].
    + rewrite Hr, Hq. reflexivity.
    + cbn. rewrite Hr. reflexivity.
  - rewrite Hr. reflexivity.
Qed.

Lemma schedule_view_fresh (v : FrameView) :
  handles_fresh v -> handles_fresh (schedule_view v).
Proof.
  destruct v as [[[[qraf running] cbs] next] mraf]. cbn.
  intros Hf. destruct running; [|exact Hf]. destruct qraf; [exact Hf|].
  intros h cb. rewrite lookup_insert. destruct (decide (next = h)) as [<-|Hne].
  - intros _. lia.
  - intros H. specialize (Hf h cb H). lia.
Qed.

Lemma schedule_view_queue (v : FrameView) :
  handles_fresh v -> queue_callback_held v ->
  queue_callback_held (schedule_view v).
Proof.
  destruct v as [[[[qraf running] cbs] next] mraf]. cbn.
  intros Hf Hq. destruct running; [|exact Hq]. destruct qraf; [exact Hq|].
  intros h. rewrite lookup_insert. destruct (decide (next = h)) as [<-|Hne].
  - split; reflexivity.
  - rewrite Hq. split; [discriminate | congruence].
Qed.

Lemma schedule_view_other (v : FrameView) :
  handles_fresh v ->
  let '(_, _, cbs, _, mraf) := v in
  let '(_, _, cbs', _, mraf') := schedule_view v in
  mraf' = mraf /\
  forall h : positive,
    cbs' !! h = Some MeasureCallback <-> cbs !! h = Some MeasureCallback.
Proof.
  destruct v as [[[[qraf running] cbs] next] mraf]. cbn.
  intros Hf. destruct running; [|split; [reflexivity|tauto]].
  destruct qraf; [split; [reflexivity|tauto]|].
  split; [reflexivity|]. intros h. rewrite lookup_insert.
  destruct (decide (next = h)) as [<-|Hne]; [|tauto].
  split; [discriminate|]. intros H. specialize (Hf _ _ H). lia.
Qed.

Lemma schedule_view_paused (v : FrameView) :
  paused_idle v -> paused_idle (schedule_view v).
Proof.
  destruct v as [[[[qraf running] cbs] next] mraf]. cbn.
  intros Hp. destruct running; [|exact Hp]. destruct qraf; cbn; discriminate.
Qed.

Lemma schedule_view_running (v : FrameView) :
  let '(_, running, _, _, _) := v in
  let '(qraf', running', _, _, _) := schedule_view v in
  running' = running /\ (running = true -> qraf' <> None).
Proof.
  destruct v as [[[[qraf running] cbs] next] mraf]. cbn.
  destruct running; [|split; [reflexivity|discriminate]].
  destruct qraf; split; try reflexivity; discriminate.
Qed.

Lemma schedule_view_keeps (v : FrameView) :
  let '(qraf, _, _, _, _) := v in
  let '(qraf', _, _, _, _) := schedule_view v in
  qraf <> None -> qraf' <> None.
Proof.
  destruct v as [[[[qraf running] cbs] next] mraf]. cbn.
  destruct running; [|trivial]. destruct qraf; [trivial|contradiction].
Qed.


Lemma schedule_view_ok (v : FrameView) : view_ok v -> view_ok (schedule_view v).
Proof.
  intros (Hf & Hq & Hm & Hmon & Hp).
  pose proof (schedule_view_other v Hf) as Ho.
  split; [apply schedule_view_fresh, Hf|].
  split; [apply schedule_view_queue; assumption|].
  split; [|split; [|apply schedule_view_paused, Hp]].
  - destruct v as [[[[qraf running] cbs] next] mraf].
    destruct (schedule_view (qraf, running, cbs, next, mraf))
      as [[[[qraf' running'] cbs'] next'] mraf'].
    destruct Ho as [-> Ho]. cbn in *. intros h. rewrite Ho. apply Hm.
  - destruct v as [[[[qraf running] cbs] next] mraf].
    destruct (schedule_view (qraf, running, cbs, next, mraf))
      as [[[[qraf' running'] cbs'] next'] mraf'].
    destruct Ho as [-> _]. exact Hmon.
Qed.

Lemma schedule_view_measuring (v : FrameView) :
  measuring v -> measuring (schedule_view v).
Proof.
  intros (Hf & Hq & Hp & Hno).
  pose proof (schedule_view_other v Hf) as Ho.
  split; [apply schedule_view_fresh, Hf|].
  split; [apply schedule_view_queue; assumption|].
  split; [apply schedule_view_paused, Hp|].
  destruct v as [[[[qraf running] cbs] next] mraf].
  destruct (schedule_view (qraf, running, cbs, next, mraf))
    as [[[[qraf' running'] cbs'] next'] mraf'].
  destruct Ho as [_ Ho]. intros h. rewrite Ho. apply Hno.
Qed.

Lemma scheduling_frame_view (w w' : World) :
  scheduling w' = scheduling w -> frame_view w' = frame_view w.
Proof.
  unfold scheduling, frame_view. intros [= -> -> _ -> -> ->]. reflexivity.
Qed.

Lemma frames_ok_view (w : World) : frames_ok w -> view_ok (frame_view w).
Proof.
  intros (H1 & H2 & H3 & H4 & H5 & _).
  exact (conj H1 (conj H2 (conj H3 (conj H4 H5)))).
Qed.

Lemma frames_ok_intro (w : World) :
  view_ok (frame_view w) ->
  (Queue.isRunning (animationQueue w) = true -> has_work w ->
   Queue.rafId (animationQueue w) <> None) ->
  frames_ok w.
Proof.
  intros (H1 & H2 & H3 & H4 & H5) H6.
  exact (conj H1 (conj H2 (conj H3 (conj H4 (conj H5 H6))))).
Qed.

(** A change that leaves the view alone and adds no work keeps the
    discipline. *)
Lemma frames_ok_transfer (w w' : World) :
  frame_view w' = frame_view w -> (has_work w' -> has_work w) ->
  frames_ok w -> frames_ok w'.
Proof.
  intros Hv Hw Hok. apply frames_ok_intro.
  - rewrite Hv. apply frames_ok_view, Hok.
  - destruct Hok as (_ & _ & _ & _ & _ & Hwork).
    unfold frame_view in Hv. injection Hv as Hq Hr _ _ _.
    rewrite Hq, Hr. intros Hrun Hhas. apply Hwork; [exact Hrun | apply Hw, Hhas].
Qed.

(** After [processQueue] on a world that respects the discipline except
    perhaps for work without a handle, the discipline holds. *)
Lemma processQueue_frames_ok (w : World) :
  view_ok (frame_view w) -> frames_ok (processQueue w).
Proof.
  intros Hv. apply frames_ok_intro.
  - rewrite processQueue_view. apply schedule_view_ok, Hv.
  - pose proof (processQueue_view w) as E.
    pose proof (schedule_view_running (frame_view w)) as Hr.
    unfold frame_view in *.
    destruct (schedule_view _) as [[[[qraf' running'] cbs'] next'] mraf'].
    injection E as -> -> _ _ _. destruct Hr as [-> Hr].
    intros Hrun _. apply Hr, Hrun.
Qed.

Lemma add_frames_ok (item : Item.t) (w : World) :
  frames_ok w -> frames_ok (add item w).
Proof.
  intros Hok. unfold add. fold (known w item).
  destruct (known w item); [exact Hok|].
  unfold performance_now, Browser.performance_now.
  cbn [animationQueue with_browser with_queue with_monitor Queue.isRunning
       Queue.set_queue].
  destruct (Queue.isRunning (animationQueue w)) eqn:Hr.
  - apply processQueue_frames_ok. apply (frames_ok_view w Hok).
  - apply frames_ok_intro; [apply (frames_ok_view w Hok)|].
    cbn. rewrite Hr. discriminate.
Qed.

Lemma addBatch_frames_ok (items : list Item.t) (w : World) :
  frames_ok w -> frames_ok (addBatch items w).
Proof.
  revert w. induction items as [|item rest IH]; intros w H; [exact H|].
  rewrite addBatch_cons. apply IH, add_frames_ok, H.
Qed.

Lemma start_frames_ok (w : World) : frames_ok w -> frames_ok (start w).
Proof.
  intros Hok. unfold start.
  destruct (Queue.isRunning (animationQueue w)) eqn:Hr; [exact Hok|].
  apply processQueue_frames_ok.
  destruct (frames_ok_view w Hok) as (H1 & H2 & H3 & H4 & H5).
  unfold frame_view in *. cbn in *.
  refine (conj H1 (conj H2 (conj H3 (conj H4 _)))). discriminate.
Qed.

Lemma setMaxConcurrent_view (max : Q) (w : World) :
  frame_view (setMaxConcurrent max w) = schedule_view (frame_view w).
Proof.
  unfold setMaxConcurrent.
  cbn [animationQueue with_queue Queue.isRunning Queue.set_maxConcurrent].
  destruct (Queue.isRunning (animationQueue w)) eqn:Hr.
  - rewrite processQueue_view. reflexivity.
  - unfold frame_view, schedule_view. cbn. rewrite Hr. reflexivity.
Qed.

Lemma setMaxConcurrent_frames_ok (max : Q) (w : World) :
  frames_ok w -> frames_ok (setMaxConcurrent max w).
Proof.
  intros Hok. unfold setMaxConcurrent.
  cbn [animationQueue with_queue Queue.isRunning Queue.set_maxConcurrent].
  destruct (Queue.isRunning (animationQueue w)) eqn:Hr.
  - apply processQueue_frames_ok. apply (frames_ok_view w Hok).
  - apply (frames_ok_transfer w); [reflexivity | trivial | exact Hok].
Qed.

Lemma pause_frames_ok (w : World) : frames_ok w -> frames_ok (pause w).
Proof.
  intros (Hf & Hq & Hm & Hmon & Hp & _). unfold pause.
  cbn [animationQueue with_queue Queue.rafId Queue.set_isRunning].
  unfold frame_view in *. cbn in Hf, Hq, Hm, Hmon, Hp.
  destruct (Queue.rafId (animationQueue w)) as [h0|] eqn:Hraf.
  - apply frames_ok_intro; [|cbn; discriminate].
    unfold view_ok, frame_view. cbn.
    split; [|split; [|split; [|split; [exact Hmon | reflexivity]]]].
    + intros h cb. rewrite lookup_delete. destruct (decide (h0 = h)); [discriminate|].
      apply Hf.
    + intros h. rewrite lookup_delete. destruct (decide (h0 = h)) as [<-|Hne].
      * split; discriminate.
      * rewrite Hq. split; [congruence | discriminate].
    + intros h. rewrite lookup_delete. destruct (decide (h0 = h)) as [<-|Hne].
      * split; [discriminate|]. intros Hmr. apply Hm in Hmr.
        assert (Hpr : Browser.frameCallbacks (browser w) !! h0
                      = Some ProcessCallback) by (apply Hq; reflexivity).
        congruence.
      * apply Hm.
  - apply frames_ok_intro; [|cbn; discriminate].
    unfold view_ok, frame_view. cbn. rewrite Hraf.
    refine (conj Hf (conj Hq (conj Hm (conj Hmon _)))). reflexivity.
Qed.


Lemma has_work_shrinks (w w' : World) (id : string) :
  Queue.queue (animationQueue w') = Queue.queue (animationQueue w) ->
  Queue.executing (animationQueue w') = Queue.executing (animationQueue w) \/
  Queue.executing (animationQueue w') =
    delete id (Queue.executing (animationQueue w)) ->
  has_work w' -> has_work w.
Proof.
  unfold has_work. intros -> He [Hq|Hx]; [left; exact Hq|]. right.
  destruct He as [He|He]; rewrite He in Hx; [exact Hx|].
  intros Hempty. apply Hx. rewrite Hempty. apply delete_empty.
Qed.

Lemma finally_block_work (item : Item.t) (w : World) :
  has_work (finally_block item w) -> has_work w.
Proof.
  apply (has_work_shrinks _ _ (Item.id item)).
  - apply finally_block_quiet.
  - right. apply finally_block_executing.
Qed.

Lemma after_result_work (item : Item.t) (w : World) :
  has_work (after_result item w) -> has_work w.
Proof.
  unfold after_result. destruct (JS.truthy_opt _); [trivial|].
  apply finally_block_work.
Qed.

Lemma catch_block_work (item : Item.t) (error : string) (w : World) :
  has_work (catch_block item error w) -> has_work w.
Proof. unfold catch_block. intros H. apply finally_block_work in H. exact H. Qed.

Lemma promise_settles_frames_ok (i : nat) (s : Settlement) (w : World) :
  frames_ok w -> frames_ok (promise_settles i s w).
Proof.
  intros Hok. unfold promise_settles.
  destruct (suspended w !! i) as [[item [|]]|]; try exact Hok.
  apply (frames_ok_transfer w); [| |exact Hok].
  - apply scheduling_frame_view. unfold resume_result.
    destruct s; rewrite ?after_result_scheduling, ?catch_block_scheduling;
      reflexivity.
  - unfold resume_result. destruct s; intros H.
    + apply after_result_work in H. exact H.
    + apply catch_block_work in H. exact H.
Qed.

Lemma timer_fires_frames_ok (i : nat) (w : World) :
  frames_ok w -> frames_ok (timer_fires i w).
Proof.
  intros Hok. unfold timer_fires.
  destruct (suspended w !! i) as [[item [|]]|]; try exact Hok.
  apply (frames_ok_transfer w); [| |exact Hok].
  - apply scheduling_frame_view. unfold resume_delay.
    rewrite finally_block_scheduling. reflexivity.
  - unfold resume_delay. intros H. apply finally_block_work in H. exact H.
Qed.

Lemma clear_frames_ok (priority : option Q) (w : World) :
  frames_ok w -> frames_ok (clear priority w).
Proof.
  intros Hok. apply (frames_ok_transfer w); [| |exact Hok].
  - unfold frame_view, clear. destruct priority as [p|]; cbn;
      rewrite unregister_all_rafId; reflexivity.
  - unfold has_work, clear. destruct priority as [p|]; cbn.
    + intros [Hq|Hx]; [left|right; exact Hx].
      intros Hempty. apply Hq. rewrite Hempty. reflexivity.
    + intros [Hq|Hx]; [contradiction | right; exact Hx].
Qed.


Lemma no_work_test (w : World) :
  Nat.ltb 0 (length (Queue.queue (animationQueue w)))
  || Nat.ltb 0 (size (Queue.executing (animationQueue w))) = false ->
  ~ has_work w.
Proof.
  rewrite orb_false_iff. intros [Hq Hx] [Hw|Hw].
  - apply Hw. destruct (Queue.queue (animationQueue w)); [reflexivity|discriminate].
  - apply Hw. apply map_size_empty_inv.
    destruct (size (Queue.executing (animationQueue w))); [reflexivity|discriminate].
Qed.

(** The queue's frame callback: the browser has taken handle [h] off its
    list, [process] runs, and at its end the queue holds a new handle or
    none. *)
Lemma process_frame_frames_ok (h : positive) (w : World) :
  frames_ok w ->
  Browser.frameCallbacks (browser w) !! h = Some ProcessCallback ->
  frames_ok (process (with_browser (Browser.cancelAnimationFrame h) w)).
Proof.
  intros (Hf & Hq & Hm & Hmon & Hp & _) Hh.
  unfold frame_view in *. cbn in Hf, Hq, Hm, Hmon, Hp.
  assert (Hraf : Queue.rafId (animationQueue w) = Some h) by (apply Hq, Hh).
  assert (Hrun : Queue.isRunning (animationQueue w) = true).
  { destruct (Queue.isRunning (animationQueue w)); [reflexivity|].
    rewrite Hp in Hraf by reflexivity. discriminate. }
  unfold process, performance_now, Browser.performance_now.
  cbn [browser with_browser Browser.cancelAnimationFrame Browser.clock
       Browser.clockReads animationQueue with_queue Queue.queue
       Queue.set_frameStartTime].
  match goal with
  | |- context [process_loop ?q ?x] =>
      pose proof (process_loop_scheduling q x) as Hs;
      set (wl := process_loop q x) in *
  end.
  apply scheduling_frame_view in Hs. unfold frame_view in Hs. cbn in Hs.
  injection Hs as Eq Er Ec En Em.
  assert (Hnone : forall h' : positive,
            Browser.frameCallbacks (browser wl) !! h' <> Some ProcessCallback).
  { intros h'. rewrite Ec, lookup_delete.
    destruct (decide (h = h')) as [<-|Hne]; [discriminate|].
    rewrite Hq, Hraf. congruence. }
  assert (Hfresh : forall (h' : positive) (cb : FrameCallback),
            Browser.frameCallbacks (browser wl) !! h' = Some cb ->
            (h' < Browser.nextHandle (browser wl))%positive).
  { intros h' cb. rewrite Ec, En, lookup_delete.
    destruct (decide (h = h')); [discriminate | apply Hf]. }
  assert (Hmeasure : forall h' : positive,
            Browser.frameCallbacks (browser wl) !! h' = Some MeasureCallback
            <-> rafId (monitor wl) = Some h').
  { intros h'. rewrite Ec, Em, lookup_delete.
    destruct (decide (h = h')) as [<-|Hne]; [|apply Hm].
    split; [discriminate|]. intros Hmr. apply Hm in Hmr. congruence. }
  destruct (Nat.ltb 0 (length (Queue.queue (animationQueue wl)))
            || Nat.ltb 0 (size (Queue.executing (animationQueue wl)))) eqn:Htest.
  - apply frames_ok_intro; [|cbn; discriminate].
    unfold view_ok, frame_view. cbn.
    split; [|split; [|split; [|split]]].
    + intros h' cb. rewrite lookup_insert.
      destruct (decide (Browser.nextHandle (browser wl) = h')) as [<-|Hne];
        [intros _; lia|].
      intros H. specialize (Hfresh _ _ H). lia.
    + intros h'. rewrite lookup_insert.
      destruct (decide (Browser.nextHandle (browser wl) = h')) as [<-|Hne];
        [split; reflexivity|].
      split; [intros H; exfalso; exact (Hnone _ H) | congruence].
    + intros h'. rewrite lookup_insert.
      destruct (decide (Browser.nextHandle (browser wl) = h')) as [<-|Hne];
        [|apply Hmeasure].
      split; [discriminate|]. intros H. apply Hmeasure in H.
      specialize (Hfresh _ _ H). lia.
    + rewrite Em. exact Hmon.
    + rewrite Er, Hrun. discriminate.
  - apply frames_ok_intro.
    + unfold view_ok, frame_view. cbn.
      split; [exact Hfresh|]. split; [|split; [exact Hmeasure|split]].
      * intros h'. split; [intros H; exfalso; exact (Hnone _ H) | discriminate].
      * rewrite Em. exact Hmon.
      * reflexivity.
    + intros _ Hwork. exfalso. apply (no_work_test wl Htest). exact Hwork.
Qed.


Lemma call_subscribers_view (P : FrameView -> Prop) metrics
  (subs : list Subscriber) (w : World) :
  (forall v : FrameView, P v -> P (schedule_view v)) ->
  P (frame_view w) -> P (frame_view (foldl (subscriber_effect metrics) w subs)).
Proof.
  intros Hclosed. revert w.
  induction subs as [|s subs IH]; intros w H; [exact H|].
  cbn [foldl]. apply IH. destruct s; [|exact H..].
  unfold subscriber_effect, queue_concurrency.
  repeat match goal with |- context [if ?c then _ else _] => destruct c end;
    rewrite setMaxConcurrent_view; apply Hclosed, H.
Qed.

Lemma call_subscribers_executing metrics (subs : list Subscriber) (w : World) :
  Queue.executing (animationQueue (foldl (subscriber_effect metrics) w subs))
  = Queue.executing (animationQueue w).
Proof.
  revert w. induction subs as [|s subs IH]; intros w; [reflexivity|].
  cbn [foldl]. rewrite IH. destruct s; [|reflexivity..].
  unfold subscriber_effect, queue_concurrency, setMaxConcurrent.
  repeat match goal with |- context [if ?c then _ else _] => destruct c end;
    rewrite ?(proj1 (proj2 (processQueue_queue _))); reflexivity.
Qed.

Lemma adjustQuality_rafId (m : Monitor.t) : rafId (adjustQuality m) = rafId m.
Proof.
  unfold adjustQuality.
  repeat match goal with |- context [if ?c then _ else _] => destruct c end;
    reflexivity.
Qed.

Lemma sampled_rafId (timestamp : Q) (m : Monitor.t) :
  rafId (sampled timestamp m) = rafId m.
Proof. unfold sampled. destruct (JS.Qlt_bool _ _); reflexivity. Qed.

(** The guarded part of [measure] changes the view only by scheduling
    the queue, and leaves the work of the queue as it is. *)
Lemma recorded_view (P : FrameView -> Prop) (timestamp : Q) (w : World) :
  (forall v : FrameView, P v -> P (schedule_view v)) ->
  P (frame_view w) -> P (frame_view (recorded timestamp w)).
Proof.
  intros Hclosed H. unfold recorded. destruct (JS.truthy _); [|exact H].
  destruct (Nat.eqb (length (frameTimings (sampled timestamp (monitor w)))) 60)
    eqn:E.
  - rewrite (record_frame_full _ _ E), notifyCallbacks_called. cbn [fst].
    apply call_subscribers_view; [exact Hclosed|].
    unfold frame_view in *. cbn. rewrite adjustQuality_rafId, sampled_rafId.
    exact H.
  - rewrite (record_frame_partial _ _ E).
    unfold frame_view in *. cbn. rewrite sampled_rafId. exact H.
Qed.

Lemma recorded_work (timestamp : Q) (w : World) :
  Queue.queue (animationQueue (recorded timestamp w)) =
    Queue.queue (animationQueue w) /\
  Queue.executing (animationQueue (recorded timestamp w)) =
    Queue.executing (animationQueue w).
Proof.
  unfold recorded. destruct (JS.truthy _); [|split; reflexivity].
  destruct (Nat.eqb (length (frameTimings (sampled timestamp (monitor w)))) 60)
    eqn:E.
  - rewrite (record_frame_full _ _ E), notifyCallbacks_called. cbn [fst]. split.
    + match goal with
      | |- context [foldl (subscriber_effect ?m) ?x ?l] =>
          destruct (call_subscribers_quiet m l x) as [_ ->]
      end.
      reflexivity.
    + rewrite call_subscribers_executing. reflexivity.
  - rewrite (record_frame_partial _ _ E). split; reflexivity.
Qed.

(** The monitor's frame callback: the browser has taken handle [h] off
    its list and [measure] runs. When it returns, the monitor holds a
    new handle; when a subscriber throws, no callback of the monitor is
    pending any more. *)
Lemma measure_frame_discipline (h : positive) (timestamp : Q) (w : World) :
  frames_ok w ->
  Browser.frameCallbacks (browser w) !! h = Some MeasureCallback ->
  match measure_outcome timestamp
          (with_browser (Browser.cancelAnimationFrame h) w) with
  | Returned =>
      frames_ok
        (measure timestamp (with_browser (Browser.cancelAnimationFrame h) w))
  | Threw _ =>
      frames_stopped
        (measure timestamp (with_browser (Browser.cancelAnimationFrame h) w))
  end.
Proof.
  intros (Hf & Hq & Hm & Hmon & Hp & Hwork) Hh.
  unfold frame_view in *. cbn in Hf, Hq, Hm, Hmon, Hp.
  set (d := with_browser (Browser.cancelAnimationFrame h) w).
  assert (Hmraf : rafId (monitor w) = Some h) by (apply Hm, Hh).
  assert (Hd : measuring (frame_view d)).
  { unfold measuring, frame_view, d. cbn.
    split; [|split; [|split; [exact Hp|]]].
    - intros h' cb. rewrite lookup_delete.
      destruct (decide (h = h')); [discriminate | apply Hf].
    - intros h'. rewrite lookup_delete.
      destruct (decide (h = h')) as [<-|Hne]; [|apply Hq].
      split; [discriminate|]. intros Hqr. apply Hq in Hqr. congruence.
    - intros h'. rewrite lookup_delete.
      destruct (decide (h = h')) as [<-|Hne]; [discriminate|].
      rewrite Hm, Hmraf. congruence. }
  set (P := fun v : FrameView =>
              measuring v /\
              view_running v = Queue.isRunning (animationQueue w) /\
              (Queue.rafId (animationQueue w) <> None -> view_handle v <> None)).
  assert (Hclosed : forall v : FrameView, P v -> P (schedule_view v)).
  { intros v (H1 & H2 & H3). split; [apply schedule_view_measuring, H1|].
    pose proof (schedule_view_running v) as Hr.
    pose proof (schedule_view_keeps v) as Hk.
    destruct v as [[[[qraf running] cbs] next] mraf].
    destruct (schedule_view (qraf, running, cbs, next, mraf))
      as [[[[qraf' running'] cbs'] next'] mraf'].
    cbn in *. destruct Hr as [-> _]. split; [exact H2|].
    intros H. apply Hk, H3, H. }
  assert (HR : P (frame_view (recorded timestamp d))).
  { apply recorded_view; [exact Hclosed|].
    split; [exact Hd|]. split; [reflexivity|]. trivial. }
  destruct (recorded_work timestamp d) as [Equeue Eexec].
  destruct HR as ((Rf & Rq & Rp & Rno) & Rrun & Rkeep).
  assert (Hkept : Queue.isRunning (animationQueue (recorded timestamp d)) = true ->
                  has_work (recorded timestamp d) ->
                  Queue.rafId (animationQueue (recorded timestamp d)) <> None).
  { unfold frame_view in Rrun, Rkeep. cbn in Rrun, Rkeep.
    rewrite Rrun. intros Hrun Hhas. apply Rkeep, Hwork; [exact Hrun|].
    unfold has_work in *. rewrite Equeue, Eexec in Hhas. exact Hhas. }
  destruct (measure_outcome timestamp d) as [|error] eqn:Eo.
  - rewrite (measure_returned _ _ Eo).
    set (r := recorded timestamp d) in *.
    unfold frame_view in Rf, Rq, Rp, Rno. cbn in Rf, Rq, Rp, Rno.
    apply frames_ok_intro; [|exact Hkept].
    unfold view_ok, frame_view. cbn.
    split; [|split; [|split; [|split; [discriminate | exact Rp]]]].
    + intros h' cb. rewrite lookup_insert.
      destruct (decide (Browser.nextHandle (browser r) = h')) as [<-|Hne];
        [intros _; lia|].
      intros H. specialize (Rf _ _ H). lia.
    + intros h'. rewrite lookup_insert.
      destruct (decide (Browser.nextHandle (browser r) = h')) as [<-|Hne];
        [|apply Rq].
      split; [discriminate|]. intros H. apply Rq in H.
      specialize (Rf _ _ H). lia.
    + intros h'. rewrite lookup_insert.
      destruct (decide (Browser.nextHandle (browser r) = h')) as [<-|Hne];
        [split; reflexivity|].
      split; [intros H; exfalso; exact (Rno _ H) | congruence].
  - rewrite (measure_threw _ _ _ Eo).
    exact (conj Rf (conj Rq (conj Rp (conj Rno Hkept)))).
Qed.

(** *** The discipline after an exception *)

Lemma frames_stopped_view (w : World) :
  frames_stopped w -> measuring (frame_view w).
Proof.
  intros (H1 & H2 & H3 & H4 & _).
  exact (conj H1 (conj H2 (conj H3 H4))).
Qed.

Lemma frames_stopped_intro (w : World) :
  measuring (frame_view w) ->
  (Queue.isRunning (animationQueue w) = true -> has_work w ->
   Queue.rafId (animationQueue w) <> None) ->
  frames_stopped w.
Proof.
  intros (H1 & H2 & H3 & H4) H5.
  exact (conj H1 (conj H2 (conj H3 (conj H4 H5)))).
Qed.

Lemma frames_stopped_transfer (w w' : World) :
  frame_view w' = frame_view w -> (has_work w' -> has_work w) ->
  frames_stopped w -> frames_stopped w'.
Proof.
  intros Hv Hw Hok. apply frames_stopped_intro.
  - rewrite Hv. apply frames_stopped_view, Hok.
  - destruct Hok as (_ & _ & _ & _ & Hwork).
    unfold frame_view in Hv. injection Hv as Hq Hr _ _ _.
    rewrite Hq, Hr. intros Hrun Hhas. apply Hwork; [exact Hrun | apply Hw, Hhas].
Qed.

Lemma processQueue_frames_stopped (w : World) :
  measuring (frame_view w) -> frames_stopped (processQueue w).
Proof.
  intros Hv. apply frames_stopped_intro.
  - rewrite processQueue_view. apply schedule_view_measuring, Hv.
  - pose proof (processQueue_view w) as E.
    pose proof (schedule_view_running (frame_view w)) as Hr.
    unfold frame_view in *.
    destruct (schedule_view _) as [[[[qraf' running'] cbs'] next'] mraf'].
    injection E as -> -> _ _ _. destruct Hr as [-> Hr].
    intros Hrun _. apply Hr, Hrun.
Qed.

Lemma add_frames_stopped (item : Item.t) (w : World) :
  frames_stopped w -> frames_stopped (add item w).
Proof.
  intros Hok. unfold add. fold (known w item).
  destruct (known w item); [exact Hok|].
  unfold performance_now, Browser.performance_now.
  cbn [animationQueue with_browser with_queue with_monitor Queue.isRunning
       Queue.set_queue].
  destruct (Queue.isRunning (animationQueue w)) eqn:Hr.
  - apply processQueue_frames_stopped. apply (frames_stopped_view w Hok).
  - apply frames_stopped_intro; [apply (frames_stopped_view w Hok)|].
    cbn. rewrite Hr. discriminate.
Qed.

Lemma addBatch_frames_stopped (items : list Item.t) (w : World) :
  frames_stopped w -> frames_stopped (addBatch items w).
Proof.
  revert w. induction items as [|item rest IH]; intros w H; [exact H|].
  rewrite addBatch_cons. apply IH, add_frames_stopped, H.
Qed.

Lemma start_frames_stopped (w : World) :
  frames_stopped w -> frames_stopped (start w).
Proof.
  intros Hok. unfold start.
  destruct (Queue.isRunning (animationQueue w)) eqn:Hr; [exact Hok|].
  apply processQueue_frames_stopped.
  destruct (frames_stopped_view w Hok) as (H1 & H2 & H3 & H4).
  unfold frame_view in *. cbn in *.
  refine (conj H1 (conj H2 (conj _ H4))). discriminate.
Qed.

Lemma setMaxConcurrent_frames_stopped (max : Q) (w : World) :
  frames_stopped w -> frames_stopped (setMaxConcurrent max w).
Proof.
  intros Hok. unfold setMaxConcurrent.
  cbn [animationQueue with_queue Queue.isRunning Queue.set_maxConcurrent].
  destruct (Queue.isRunning (animationQueue w)) eqn:Hr.
  - apply processQueue_frames_stopped. apply (frames_stopped_view w Hok).
  - apply (frames_stopped_transfer w); [reflexivity | trivial | exact Hok].
Qed.

Lemma pause_frames_stopped (w : World) :
  frames_stopped w -> frames_stopped (pause w).
Proof.
  intros (Hf & Hq & Hp & Hno & _). unfold pause.
  cbn [animationQueue with_queue Queue.rafId Queue.set_isRunning].
  unfold frame_view in *. cbn in Hf, Hq, Hp.
  destruct (Queue.rafId (animationQueue w)) as [h0|] eqn:Hraf.
  - apply frames_stopped_intro; [|cbn; discriminate].
    unfold measuring, frame_view. cbn.
    split; [|split; [|split; [reflexivity|]]].
    + intros h cb. rewrite lookup_delete. destruct (decide (h0 = h)); [discriminate|].
      apply Hf.
    + intros h. rewrite lookup_delete. destruct (decide (h0 = h)) as [<-|Hne].
      * split; discriminate.
      * rewrite Hq. split; [congruence | discriminate].
    + intros h. rewrite lookup_delete.
      destruct (decide (h0 = h)); [discriminate | apply Hno].
  - apply frames_stopped_intro; [|cbn; discriminate].
    unfold measuring, frame_view. cbn. rewrite Hraf.
    refine (conj Hf (conj Hq (conj _ Hno))). reflexivity.
Qed.

Lemma promise_settles_frames_stopped (i : nat) (s : Settlement) (w : World) :
  frames_stopped w -> frames_stopped (promise_settles i s w).
Proof.
  intros Hok. unfold promise_settles.
  destruct (suspended w !! i) as [[item [|]]|]; try exact Hok.
  apply (frames_stopped_transfer w); [| |exact Hok].
  - apply scheduling_frame_view. unfold resume_result.
    destruct s; rewrite ?after_result_scheduling, ?catch_block_scheduling;
      reflexivity.
  - unfold resume_result. destruct s; intros H.
    + apply after_result_work in H. exact H.
    + apply catch_block_work in H. exact H.
Qed.

Lemma timer_fires_frames_stopped (i : nat) (w : World) :
  frames_stopped w -> frames_stopped (timer_fires i w).
Proof.
  intros Hok. unfold timer_fires.
  destruct (suspended w !! i) as [[item [|]]|]; try exact Hok.
  apply (frames_stopped_transfer w); [| |exact Hok].
  - apply scheduling_frame_view. unfold resume_delay.
    rewrite finally_block_scheduling. reflexivity.
  - unfold resume_delay. intros H. apply finally_block_work in H. exact H.
Qed.

Lemma clear_frames_stopped (priority : option Q) (w : World) :
  frames_stopped w -> frames_stopped (clear priority w).
Proof.
  intros Hok. apply (frames_stopped_transfer w); [| |exact Hok].
  - unfold frame_view, clear. destruct priority as [p|]; cbn;
      rewrite unregister_all_rafId; reflexivity.
  - unfold has_work, clear. destruct priority as [p|]; cbn.
    + intros [Hq|Hx]; [left|right; exact Hx].
      intros Hempty. apply Hq. rewrite Hempty. reflexivity.
    + intros [Hq|Hx]; [contradiction | right; exact Hx].
Qed.

Lemma process_frame_frames_stopped (h : positive) (w : World) :
  frames_stopped w ->
  Browser.frameCallbacks (browser w) !! h = Some ProcessCallback ->
  frames_stopped (process (with_browser (Browser.cancelAnimationFrame h) w)).
Proof.
  intros (Hf & Hq & Hp & Hno & _) Hh.
  unfold frame_view in *. cbn in Hf, Hq, Hp.
  assert (Hraf : Queue.rafId (animationQueue w) = Some h) by (apply Hq, Hh).
  assert (Hrun : Queue.isRunning (animationQueue w) = true).
  { destruct (Queue.isRunning (animationQueue w)); [reflexivity|].
    rewrite Hp in Hraf by reflexivity. discriminate. }
  unfold process, performance_now, Browser.performance_now.
  cbn [browser with_browser Browser.cancelAnimationFrame Browser.clock
       Browser.clockReads animationQueue with_queue Queue.queue
       Queue.set_frameStartTime].
  match goal with
  | |- context [process_loop ?q ?x] =>
      pose proof (process_loop_scheduling q x) as Hs;
      set (wl := process_loop q x) in *
  end.
  apply scheduling_frame_view in Hs. unfold frame_view in Hs. cbn in Hs.
  injection Hs as Eq Er Ec En Em.
  assert (Hnone : forall h' : positive,
            Browser.frameCallbacks (browser wl) !! h' <> Some ProcessCallback).
  { intros h'. rewrite Ec, lookup_delete.
    destruct (decide (h = h')) as [<-|Hne]; [discriminate|].
    rewrite Hq, Hraf. congruence. }
  assert (Hfresh : forall (h' : positive) (cb : FrameCallback),
            Browser.frameCallbacks (browser wl) !! h' = Some cb ->
            (h' < Browser.nextHandle (browser wl))%positive).
  { intros h' cb. rewrite Ec, En, lookup_delete.
    destruct (decide (h = h')); [discriminate | apply Hf]. }
  assert (Hmeasure : forall h' : positive,
            Browser.frameCallbacks (browser wl) !! h' <> Some MeasureCallback).
  { intros h'. rewrite Ec, lookup_delete.
    destruct (decide (h = h')); [discriminate | apply Hno]. }
  destruct (Nat.ltb 0 (length (Queue.queue (animationQueue wl)))
            || Nat.ltb 0 (size (Queue.executing (animationQueue wl)))) eqn:Htest.
  - apply frames_stopped_intro; [|cbn; discriminate].
    unfold measuring, frame_view. cbn.
    split; [|split; [|split]].
    + intros h' cb. rewrite lookup_insert.
      destruct (decide (Browser.nextHandle (browser wl) = h')) as [<-|Hne];
        [intros _; lia|].
      intros H. specialize (Hfresh _ _ H). lia.
    + intros h'. rewrite lookup_insert.
      destruct (decide (Browser.nextHandle (browser wl) = h')) as [<-|Hne];
        [split; reflexivity|].
      split; [intros H; exfalso; exact (Hnone _ H) | congruence].
    + rewrite Er, Hrun. discriminate.
    + intros h'. rewrite lookup_insert.
      destruct (decide (Browser.nextHandle (browser wl) = h'));
        [discriminate | apply Hmeasure].
  - apply frames_stopped_intro.
    + unfold measuring, frame_view. cbn.
      split; [exact Hfresh|]. split; [|split; [reflexivity | exact Hmeasure]].
      intros h'. split; [intros H; exfalso; exact (Hnone _ H) | discriminate].
    + intros _ Hwork. exfalso. apply (no_work_test wl Htest). exact Hwork.
Qed.

(** *** Every action of a run *)

Lemma step_frames_ok (a : Action) (w : World) :
  frames_ok w ->
  match step_outcome w a with
  | Returned => frames_ok (step w a)
  | Threw _ => frames_stopped (step w a)
  end.
Proof.
  intros H. destruct a; cbn [step step_outcome].
  - apply add_frames_ok, H.
  - apply addBatch_frames_ok, H.
  - apply start_frames_ok, H.
  - apply pause_frames_ok, H.
  - apply start_frames_ok, H.
  - apply clear_frames_ok, H.
  - apply setMaxConcurrent_frames_ok, H.
  - apply (frames_ok_transfer w); [| |exact H].
    + unfold frame_view, subscribe. cbn. destruct (bool_decide _); reflexivity.
    + trivial.
  - unfold run_frame_callback.
    destruct (Browser.frameCallbacks (browser w) !! h) as [[|]|] eqn:E;
      [| |exact H].
    + apply measure_frame_discipline; assumption.
    + apply process_frame_frames_ok; assumption.
  - apply promise_settles_frames_ok, H.
  - apply timer_fires_frames_ok, H.
Qed.

Lemma step_frames_stopped (a : Action) (w : World) :
  frames_stopped w -> frames_stopped (step w a).
Proof.
  intros H. destruct a; cbn [step].
  - apply add_frames_stopped, H.
  - apply addBatch_frames_stopped, H.
  - apply start_frames_stopped, H.
  - apply pause_frames_stopped, H.
  - apply start_frames_stopped, H.
  - apply clear_frames_stopped, H.
  - apply setMaxConcurrent_frames_stopped, H.
  - apply (frames_stopped_transfer w); [| |exact H].
    + unfold frame_view, subscribe. cbn. destruct (bool_decide _); reflexivity.
    + trivial.
  - unfold run_frame_callback.
    destruct (Browser.frameCallbacks (browser w) !! h) as [[|]|] eqn:E;
      [| |exact H].
    + destruct H as (_ & _ & _ & Hno & _). destruct (Hno h E).
    + apply process_frame_frames_stopped; assumption.
  - apply promise_settles_frames_stopped, H.
  - apply timer_fires_frames_stopped, H.
Qed.

Lemma run_frames_stopped (actions : list Action) (w : World) :
  frames_stopped w -> frames_stopped (run actions w).
Proof.
  unfold run. revert w.
  induction actions as [|a rest IH]; intros w H; [exact H|].
  cbn [foldl]. apply IH, step_frames_stopped, H.
Qed.

(** A run keeps the discipline until an exception leaves the monitor's
    callback, and the discipline of a stopped monitor from then on. *)
Lemma run_frames_ok (actions : list Action) (w : World) :
  frames_ok w ->
  match run_outcome actions w with
  | Returned => frames_ok (run actions w)
  | Threw _ => frames_stopped (run actions w)
  end.
Proof.
  revert w.
  induction actions as [|a rest IH]; intros w H; [exact H|].
  cbn [run_outcome]. pose proof (step_frames_ok a w H) as Hstep.
  change (run (a :: rest) w) with (run rest (step w a)).
  destruct (step_outcome w a) as [|error].
  - apply IH, Hstep.
  - apply run_frames_stopped, Hstep.
Qed.

(** In either case the callbacks of the queue are held, and a pending
    callback of the monitor is under the handle the monitor holds. *)
Lemma run_frames_held (actions : list Action) (w : World) :
  frames_ok w ->
  queue_callback_held (frame_view (run actions w)) /\
  paused_idle (frame_view (run actions w)) /\
  (Queue.isRunning (animationQueue (run actions w)) = true ->
   has_work (run actions w) ->
   Queue.rafId (animationQueue (run actions w)) <> None) /\
  (forall h : positive,
     Browser.frameCallbacks (browser (run actions w)) !! h
     = Some MeasureCallback ->
     rafId (monitor (run actions w)) = Some h).
Proof.
  intros H. pose proof (run_frames_ok actions w H) as Hrun.
  destruct (run_outcome actions w).
  - destruct Hrun as (_ & Hq & Hm & _ & Hp & Hwork).
    split; [exact Hq|]. split; [exact Hp|]. split; [exact Hwork|].
    intros h Hh. apply Hm, Hh.
  - destruct Hrun as (_ & Hq & Hp & Hno & Hwork).
    split; [exact Hq|]. split; [exact Hp|]. split; [exact Hwork|].
    intros h Hh. destruct (Hno h Hh).
Qed.

(** A browser is ready when none of its handles is in use yet. *)
Lemma boot_frames_ok (b : Browser.t) :
  Browser.frameCallbacks b = ∅ -> frames_ok (boot b).
Proof.
  intros Hempty. apply frames_ok_intro; [|cbn; discriminate].
  unfold view_ok, frame_view, boot, startMonitoring. cbn. rewrite Hempty.
  split; [|split; [|split; [|split; [discriminate | reflexivity]]]].
  - intros h cb. rewrite lookup_insert.
    destruct (decide (Browser.nextHandle b = h)) as [<-|Hne];
      [intros _; lia | rewrite lookup_empty; discriminate].
  - intros h. rewrite lookup_insert.
    destruct (decide (Browser.nextHandle b = h)); [split; discriminate|].
    rewrite lookup_empty. split; discriminate.
  - intros h. rewrite lookup_insert.
    destruct (decide (Browser.nextHandle b = h)) as [<-|Hne];
      [split; reflexivity|].
    rewrite lookup_empty. split; [discriminate | congruence].
Qed.

Lemma new_AnimationQueue_frames_ok (options : QueueOptions) (b : Browser.t) :
  Browser.frameCallbacks b = ∅ ->
  frames_ok (new_AnimationQueue options (boot b)).
Proof.
  intros Hempty. pose proof (boot_frames_ok b Hempty) as Hboot.
  assert (Hfresh : frames_ok (with_queue (fun _ => Queue.fresh options) (boot b))).
  { apply frames_ok_intro; [|cbn; discriminate].
    apply (frames_ok_view _ Hboot). }
  unfold new_AnimationQueue.
  destruct (optAutoStart options) as [[|]|];
    [apply start_frames_ok, Hfresh | exact Hfresh | apply start_frames_ok, Hfresh].
Qed.

(** X8. In every run of a page that started with no frame callback
    registered, the queue's frame callback is pending under exactly the
    handle the queue holds and under no other, so it is never scheduled
    twice; a queue that is not running has none pending; and a running
    queue with an item queued or executing always has one pending. *)
Theorem queue_frames_disciplined
  (b : Browser.t) (options : QueueOptions) (actions : list Action) :
  Browser.frameCallbacks b = ∅ ->
  let w := run actions (new_AnimationQueue options (boot b)) in
  (forall h : positive,
     Browser.frameCallbacks (browser w) !! h = Some ProcessCallback <->
     Queue.rafId (animationQueue w) = Some h) /\
  (Queue.isRunning (animationQueue w) = false ->
   forall h : positive,
     Browser.frameCallbacks (browser w) !! h <> Some ProcessCallback) /\
  (Queue.isRunning (animationQueue w) = true -> has_work w ->
   exists h : positive,
     Queue.rafId (animationQueue w) = Some h /\
     Browser.frameCallbacks (browser w) !! h = Some ProcessCallback).
Proof.
  intros Hempty. cbv zeta.
  pose proof (run_frames_held actions _
                (new_AnimationQueue_frames_ok options b Hempty))
    as (Hq & Hp & Hwork & _).
  unfold frame_view in *. cbn in Hq, Hp.
  split; [exact Hq|]. split.
  - intros Hrun h Hh. apply Hq in Hh. rewrite Hp in Hh by exact Hrun.
    discriminate.
  - intros Hrun Hhas. specialize (Hwork Hrun Hhas).
    destruct (Queue.rafId _) as [h|] eqn:E; [|contradiction].
    exists h. split; [reflexivity|]. apply Hq. reflexivity.
Qed.

Lemma queue_frames_disciplined_witness :
  let w := run [CallAddBatch page_batch; CallPause; CallResume;
                CallSetMaxConcurrent 1]
             (new_AnimationQueue
                {| optMaxConcurrent := None; optAutoStart := None;
                   optFrameBudget := None |}
                (boot ticking_browser)) in
  Queue.rafId (animationQueue w) = Some 3%positive /\
  (forall h : positive,
     Browser.frameCallbacks (browser w) !! h = Some ProcessCallback <->
     h = 3%positive).
Proof.
  cbv zeta.
  destruct (queue_frames_disciplined ticking_browser
              {| optMaxConcurrent := None; optAutoStart := None;
                 optFrameBudget := None |}
              [CallAddBatch page_batch; CallPause; CallResume;
               CallSetMaxConcurrent 1] eq_refl) as (Hq & _).
  assert (Hraf : Queue.rafId
                   (animationQueue
                      (run [CallAddBatch page_batch; CallPause; CallResume;
                            CallSetMaxConcurrent 1]
                         (new_AnimationQueue
                            {| optMaxConcurrent := None; optAutoStart := None;
                               optFrameBudget := None |}
                            (boot ticking_browser))))
                 = Some 3%positive) by (vm_compute; reflexivity).
  split; [exact Hraf|].
  intros h. rewrite Hq, Hraf. split; congruence.
Defined.

End FrameDiscipline.

(** ** The concurrency the global queue is given *)

Section GlobalQueueConcurrency.

Import Monitor.

Lemma setMaxConcurrent_maxConcurrent (max : Q) (w : World) :
  Queue.maxConcurrent (animationQueue (setMaxConcurrent max w)) = max.
Proof.
  unfold setMaxConcurrent, processQueue.
  cbn [animationQueue with_queue Queue.isRunning Queue.set_maxConcurrent].
  destruct (Queue.isRunning (animationQueue w)); [|reflexivity].
  cbn [negb]. unfold has_rafId. cbn.
  destruct (Queue.rafId (animationQueue w)); reflexivity.
Qed.

Lemma call_subscribers_maxConcurrent metrics (subs : list Subscriber)
  (w : World) :
  Queue.maxConcurrent (animationQueue (foldl (subscriber_effect metrics) w subs))
  = if bool_decide (QueueConcurrencySubscriber ∈ subs)
    then concurrency_for (fps metrics)
    else Queue.maxConcurrent (animationQueue w).
Proof.
  revert w. induction subs as [|s subs IH]; intros w; [reflexivity|].
  cbn [foldl]. rewrite IH.
  destruct (bool_decide (QueueConcurrencySubscriber ∈ subs)) eqn:E.
  - apply bool_decide_eq_true in E.
    rewrite bool_decide_eq_true_2 by (apply list_elem_of_further, E).
    reflexivity.
  - apply bool_decide_eq_false in E. destruct s.
    + rewrite bool_decide_eq_true_2 by apply list_elem_of_here.
      unfold subscriber_effect, queue_concurrency, concurrency_for.
      repeat match goal with |- context [if ?c then _ else _] => destruct c end;
        apply setMaxConcurrent_maxConcurrent.
    + rewrite bool_decide_eq_false_2; [reflexivity|].
      intros H. apply elem_of_cons in H as [H|H];
        [discriminate | contradiction].
    + rewrite bool_decide_eq_false_2; [reflexivity|].
      intros H. apply elem_of_cons in H as [H|H];
        [discriminate | contradiction].
Qed.

(** The subscribers a walk reaches are those with no thrower ahead of
    them. *)
Lemma called_reached (s : Subscriber) (subs : list Subscriber) :
  s ∈ called subs <->
  exists ahead behind : list Subscriber,
    subs = ahead ++ s :: behind /\ walk_outcome ahead = Returned.
Proof.
  induction subs as [|s0 subs IH].
  - split; [intros H; inversion H|].
    intros (ahead & behind & H & _). destruct ahead; discriminate.
  - cbn [called]. split.
    + intros H. destruct (subscriber_outcome s0) eqn:E.
      * apply elem_of_cons in H as [->|H].
        -- exists [], subs. split; reflexivity.
        -- apply IH in H as (ahead & behind & -> & Hw).
           exists (s0 :: ahead), behind. split; [reflexivity|].
           cbn [walk_outcome]. rewrite E. exact Hw.
      * apply list_elem_of_singleton in H as ->.
        exists [], subs. split; reflexivity.
    + intros (ahead & behind & H & Hw). destruct ahead as [|a ahead].
      * injection H as -> ->.
        destruct (subscriber_outcome s); apply list_elem_of_here.
      * injection H as -> ->. cbn [walk_outcome] in Hw.
        destruct (subscriber_outcome a); [|discriminate].
        apply list_elem_of_further, IH. exists ahead, behind.
        split; [reflexivity | exact Hw].
Qed.

(** X10. A frame that completes a window sets the queue's
    [maxConcurrent] from the rounded frame rate of the window (1 below
    30 frames per second, 2 below 45, 3 otherwise) when the subscriber
    of [getGlobalAnimationQueue] is reached, that is when it is
    subscribed and no subscriber ahead of it throws; otherwise the frame
    leaves the limit alone, as does every frame that completes no
    window. *)
Theorem concurrency_follows_frame_rate (timestamp : Q) (w : World) :
  let subs := callbacks (monitor w) in
  (completes_window timestamp w = true ->
   QueueConcurrencySubscriber ∈ called subs ->
   Queue.maxConcurrent (animationQueue (measure timestamp w)) =
   concurrency_for
     (getCurrentFPS (adjustQuality (sampled timestamp (monitor w))))) /\
  (completes_window timestamp w = true ->
   QueueConcurrencySubscriber ∉ called subs ->
   Queue.maxConcurrent (animationQueue (measure timestamp w)) =
   Queue.maxConcurrent (animationQueue w)) /\
  (completes_window timestamp w = false ->
   Queue.maxConcurrent (animationQueue (measure timestamp w)) =
   Queue.maxConcurrent (animationQueue w)) /\
  (QueueConcurrencySubscriber ∈ called subs <->
   exists ahead behind : list Subscriber,
     subs = ahead ++ QueueConcurrencySubscriber :: behind /\
     walk_outcome ahead = Returned) /\
  (QueueConcurrencySubscriber ∈ subs -> walk_outcome subs = Returned ->
   QueueConcurrencySubscriber ∈ called subs).
Proof.
  cbv zeta.
  assert (Hfull : completes_window timestamp w = true ->
            Queue.maxConcurrent (animationQueue (measure timestamp w)) =
            if bool_decide
                 (QueueConcurrencySubscriber ∈ called (callbacks (monitor w)))
            then concurrency_for
                   (getCurrentFPS
                      (adjustQuality (sampled timestamp (monitor w))))
            else Queue.maxConcurrent (animationQueue w)).
  { unfold completes_window. rewrite andb_true_iff. intros [Ht Hfull].
    rewrite measure_animationQueue.
    unfold recorded. rewrite Ht, (record_frame_full _ _ Hfull).
    rewrite notifyCallbacks_called. cbn [fst].
    rewrite call_subscribers_maxConcurrent.
    cbn [monitor with_monitor browser].
    rewrite adjustQuality_callbacks.
    destruct (sampled_quality timestamp (monitor w)) as (_ & _ & ->).
    reflexivity. }
  split; [|split; [|split; [|split]]].
  - intros Hc Hsub. rewrite (Hfull Hc).
    rewrite bool_decide_eq_true_2 by exact Hsub. reflexivity.
  - intros Hc Hsub. rewrite (Hfull Hc).
    rewrite bool_decide_eq_false_2 by exact Hsub. reflexivity.
  - intros H. destruct (measure_partial timestamp w H) as (_ & _ & _ & ->).
    reflexivity.
  - apply called_reached.
  - intros Hsub Hw. rewrite (called_all _ Hw). exact Hsub.
Qed.

(** A window of sixty frames at 25 frames per second. With the queue's
    subscriber alone the limit goes from 3 to 1; with a subscriber ahead
    of it that throws the limit stays 3. *)
Lemma concurrency_follows_frame_rate_witness :
  let slow := steady_frames 1000 40 60 in
  let w := measure_all slow (getGlobalAnimationQueue (boot ticking_browser)) in
  let w' := measure_all slow
              (getGlobalAnimationQueue
                 (with_monitor (subscribe (ThrowingSubscriber 7 "boom"))
                    (boot ticking_browser))) in
  Queue.maxConcurrent (animationQueue w) = 3 /\
  Queue.maxConcurrent (animationQueue (measure 3400 w)) = 1 /\
  Queue.maxConcurrent (animationQueue w') = 3 /\
  measure_outcome 3400 w' = Threw "boom" /\
  Queue.maxConcurrent (animationQueue (measure 3400 w')) = 3.
Proof.
  cbv zeta.
  split; [vm_compute; reflexivity|]. split; [|split; [|split]].
  - rewrite (proj1 (concurrency_follows_frame_rate 3400 _)).
    + vm_compute. reflexivity.
    + vm_compute. reflexivity.
    + apply (bool_decide_unpack _). vm_compute. exact I.
  - vm_compute. reflexivity.
  - vm_compute. reflexivity.
  - rewrite (proj1 (proj2 (concurrency_follows_frame_rate 3400 _))).
    + vm_compute. reflexivity.
    + vm_compute. reflexivity.
    + apply (bool_decide_unpack _). vm_compute. exact I.
Defined.

End GlobalQueueConcurrency.

(** ** Destroying the queue *)

Section Destroying.

Import Monitor.

Lemma destroy_executing_frame (items : list Item.t) (w : World) :
  animationQueue (fst (destroy_executing items w)) = animationQueue w /\
  suspended (fst (destroy_executing items w)) = suspended w /\
  Browser.frameCallbacks (browser (fst (destroy_executing items w))) =
    Browser.frameCallbacks (browser w).
Proof.
  revert w. induction items as [|item rest IH]; intros w; [repeat split|].
  cbn [destroy_executing].
  destruct (Item.cleanup item) as [[|error]|]; [| repeat split |].
  - destruct (IH (with_monitor (unregisterAnimation (Item.id item))
                    (emit (CleanupCalled (Item.id item)) w))) as (-> & -> & ->).
    repeat split.
  - destruct (IH (with_monitor (unregisterAnimation (Item.id item)) w))
      as (-> & -> & ->).
    repeat split.
Qed.

Lemma destroy_executing_returns (items : list Item.t) (w : World) :
  Forall cleanup_returns items ->
  snd (destroy_executing items w) = Returned /\
  activeAnimations (monitor (fst (destroy_executing items w))) =
  activeAnimations (monitor w) ∖ list_to_set (map Item.id items).
Proof.
  intros Hall. revert w.
  induction Hall as [|item rest Hitem _ IH]; intros w.
  - split; [reflexivity|]. cbn. apply leibniz_equiv.
    rewrite difference_empty. reflexivity.
  - cbn [destroy_executing map list_to_set].
    destruct Hitem as [E|E]; rewrite E.
    + destruct (IH (with_monitor (unregisterAnimation (Item.id item)) w))
        as [-> ->].
      split; [reflexivity|]. cbn. apply leibniz_equiv. intros x.
      rewrite !elem_of_difference, elem_of_union, elem_of_singleton. tauto.
    + destruct (IH (with_monitor (unregisterAnimation (Item.id item))
                      (emit (CleanupCalled (Item.id item)) w))) as [-> ->].
      split; [reflexivity|]. cbn. apply leibniz_equiv. intros x.
      rewrite !elem_of_difference, elem_of_union, elem_of_singleton. tauto.
Qed.

Lemma destroy_executing_throws (items : list Item.t) (w : World) :
  Exists (fun item => exists error : string,
            Item.cleanup item = Some (CleanupThrows error)) items ->
  exists error : string, snd (destroy_executing items w) = Threw error.
Proof.
  intros Hex. revert w.
  induction Hex as [item rest (error & E) | item rest _ IH]; intros w.
  - exists error. cbn [destroy_executing]. rewrite E. reflexivity.
  - cbn [destroy_executing].
    destruct (Item.cleanup item) as [[|error]|];
      [apply IH | exists error; reflexivity | apply IH].
Qed.

Lemma pause_clear_fields (w : World) :
  let w' := clear None (pause w) in
  Queue.queue (animationQueue w') = [] /\
  Queue.isRunning (animationQueue w') = false /\
  Queue.rafId (animationQueue w') = None /\
  Queue.executing (animationQueue w') = Queue.executing (animationQueue w) /\
  Queue.completedAnimations (animationQueue w') =
    Queue.completedAnimations (animationQueue w) /\
  suspended w' = suspended w /\
  activeAnimations (monitor w') =
    activeAnimations (monitor w)
    ∖ list_to_set (map Item.id (Queue.queue (animationQueue w))).
Proof.
  cbv zeta. unfold clear, pause.
  cbn [animationQueue with_queue Queue.rafId Queue.set_isRunning].
  destruct (Queue.rafId (animationQueue w)) eqn:Hraf;
    cbn [animationQueue monitor suspended with_queue with_monitor with_browser
         Queue.queue Queue.isRunning Queue.rafId Queue.executing
         Queue.completedAnimations Queue.set_queue Queue.set_rafId
         Queue.set_isRunning];
    rewrite unregister_all_active; repeat split; exact Hraf.
Qed.

(** X11. In whichever order the executing map is walked: when the
    cleanup of every executing item returns, [destroy] returns and
    leaves the queue stopped and empty: no item queued, none executing,
    no id completed, no frame callback held, and every id that was
    queued or executing unregistered from the monitor. When the cleanup
    of some executing item throws, [destroy] throws: the queue is
    stopped and emptied, but the executing map and the completed set are
    left as they were. In both cases the executions suspended at an
    [await] are not cancelled. *)
Theorem destroy_outcomes (order : list Item.t) (w : World) :
  walk_of_executing order w ->
  let executing := Queue.executing (animationQueue w) in
  ((forall (key : string) (item : Item.t),
      executing !! key = Some item -> cleanup_returns item) ->
   snd (destroy order w) = Returned /\
   Queue.queue (animationQueue (fst (destroy order w))) = [] /\
   Queue.executing (animationQueue (fst (destroy order w))) = ∅ /\
   Queue.completedAnimations (animationQueue (fst (destroy order w))) = ∅ /\
   Queue.isRunning (animationQueue (fst (destroy order w))) = false /\
   Queue.rafId (animationQueue (fst (destroy order w))) = None /\
   (forall item : Item.t,
      item ∈ Queue.queue (animationQueue w) ->
      Item.id item ∉ activeAnimations (monitor (fst (destroy order w)))) /\
   (forall (key : string) (item : Item.t),
      executing !! key = Some item ->
      Item.id item ∉ activeAnimations (monitor (fst (destroy order w)))) /\
   suspended (fst (destroy order w)) = suspended w) /\
  ((exists (key : string) (item : Item.t) (error : string),
      executing !! key = Some item /\
      Item.cleanup item = Some (CleanupThrows error)) ->
   (exists error : string, snd (destroy order w) = Threw error) /\
   Queue.queue (animationQueue (fst (destroy order w))) = [] /\
   Queue.isRunning (animationQueue (fst (destroy order w))) = false /\
   Queue.executing (animationQueue (fst (destroy order w))) = executing /\
   Queue.completedAnimations (animationQueue (fst (destroy order w))) =
     Queue.completedAnimations (animationQueue w) /\
   suspended (fst (destroy order w)) = suspended w).
Proof.
  intros Hwalk. cbv zeta.
  destruct (pause_clear_fields w) as (Hq & Hr & Hraf & He & Hc & Hs & Ha).
  cbv zeta in Hq, Hr, Hraf, He, Hc, Hs, Ha.
  set (w1 := clear None (pause w)) in *.
  destruct (destroy_executing_frame order w1) as (Fq & Fs & _).
  assert (Hd : destroy order w =
               match snd (destroy_executing order w1) with
               | Threw error => (fst (destroy_executing order w1), Threw error)
               | Returned =>
                   (with_queue (Queue.set_completedAnimations ∅)
                      (with_queue (Queue.set_executing ∅)
                         (fst (destroy_executing order w1))), Returned)
               end).
  { unfold destroy. fold w1.
    destruct (destroy_executing order w1) as [w2 [|error]]; reflexivity. }
  assert (Hitems : forall item : Item.t,
            item ∈ order <->
            exists key : string,
              Queue.executing (animationQueue w) !! key = Some item).
  { intros item. unfold walk_of_executing in Hwalk.
    rewrite Hwalk, list_elem_of_fmap. split.
    - intros ([key item'] & -> & Hin). exists key.
      apply elem_of_map_to_list in Hin. exact Hin.
    - intros (key & Hk). exists (key, item). split; [reflexivity|].
      apply elem_of_map_to_list. exact Hk. }
  split.
  - intros Hall.
    assert (Hforall : Forall cleanup_returns order).
    { apply Forall_forall. intros item Hin. apply Hitems in Hin as (key & Hk).
      exact (Hall key item Hk). }
    destruct (destroy_executing_returns order w1 Hforall) as [Hout Hact].
    rewrite Hd, Hout. cbn [fst snd].
    split; [reflexivity|].
    cbn [animationQueue with_queue Queue.queue Queue.executing
         Queue.completedAnimations Queue.isRunning Queue.rafId
         Queue.set_executing Queue.set_completedAnimations monitor suspended].
    rewrite Fq, Fs, Hact, Ha. repeat split; try assumption.
    + intros item Hin. rewrite !elem_of_difference, !elem_of_list_to_set.
      intros [[_ Hno] _]. apply Hno. apply list_elem_of_fmap.
      exists item. split; [reflexivity | exact Hin].
    + intros key item Hk. rewrite !elem_of_difference, !elem_of_list_to_set.
      intros [_ Hno]. apply Hno. apply list_elem_of_fmap.
      exists item. split; [reflexivity|]. apply Hitems. exists key. exact Hk.
  - intros (key & item & error & Hk & Hthrow).
    assert (Hex : Exists (fun item => exists error : string,
                            Item.cleanup item = Some (CleanupThrows error))
                    order).
    { apply Exists_exists. exists item. split; [|exists error; exact Hthrow].
      apply Hitems. exists key. exact Hk. }
    destruct (destroy_executing_throws order w1 Hex) as (e & He').
    rewrite Hd, He'. cbn [fst snd].
    split; [exists e; reflexivity|].
    rewrite Fq, Fs. repeat split; assumption.
Qed.

(** On the page with a fading animation [destroy] returns; the fade is
    still suspended, and when its timer fires its cleanup is called a
    second time and its id is completed again. On the page where "late"
    was inserted before "early", whose cleanup throws, the cleanup of
    "late" is called first and "late" is unregistered before [destroy]
    throws. *)
Lemma destroy_outcomes_witness :
  let fade := [Item.set_timestamp (Some 0) fading_item] in
  snd (destroy fade fading_page) = Returned /\
  Queue.executing (animationQueue (fst (destroy fade fading_page))) = ∅ /\
  Browser.trace (browser (fst (destroy fade fading_page))) =
    [ExecuteCalled "fade"; CleanupCalled "fade"] /\
  Browser.trace (browser (timer_fires 0 (fst (destroy fade fading_page)))) =
    [ExecuteCalled "fade"; CleanupCalled "fade"; CleanupCalled "fade"] /\
  (exists error : string,
     snd (destroy (map fst (suspended failing_page)) failing_page)
     = Threw error) /\
  Browser.trace
    (browser (fst (destroy (map fst (suspended failing_page)) failing_page))) =
    [ExecuteCalled "late"; ExecuteCalled "early";
     CleanupCalled "late"; CleanupCalled "early"].
Proof.
  cbv zeta.
  assert (Hwalk : walk_of_executing
                    [Item.set_timestamp (Some 0) fading_item] fading_page)
    by (vm_compute; reflexivity).
  destruct (proj1 (destroy_outcomes _ fading_page Hwalk))
    as (Hout & _ & Hex & _).
  - intros key item Hk.
    destruct (decide (key = "fade")) as [->|Hne].
    + vm_compute in Hk. injection Hk as <-. right. reflexivity.
    + exfalso. revert Hk.
      replace (Queue.executing (animationQueue fading_page))
        with (<["fade" := Item.set_timestamp (Some 0) fading_item]>
                (∅ : gmap string Item.t)) by (vm_compute; reflexivity).
      rewrite lookup_insert_ne by congruence. rewrite lookup_empty. discriminate.
  - split; [exact Hout|]. split; [exact Hex|].
    split; [vm_compute; reflexivity|]. split; [vm_compute; reflexivity|].
    split; [|vm_compute; reflexivity].
    assert (Hwalk' : walk_of_executing
                       (map fst (suspended failing_page)) failing_page).
    { unfold walk_of_executing. vm_compute.
      apply Permutation_swap. }
    apply (proj2 (destroy_outcomes _ failing_page Hwalk')).
    exists "early". eexists. exists "tooltip gone". split; vm_compute; reflexivity.
Defined.

End Destroying.

(** ** Memoized functions *)

Section MemoizedFunctions.

Import Memoize.

Context {A R : Type}.
Variable fn : A -> R.
Variable getKey : option (A -> string).
Variable stringify : A -> string.





End MemoizedFunctions.


(** ** A crowded queue *)

Section CrowdedQueue.

Import Monitor.

Lemma unregistered_size (id : string) (X : gset string) :
  (size X <= S (size (X ∖ {[ id ]})))%nat.
Proof.
  transitivity (size ({[ id ]} ∪ X)).
  - apply subseteq_size. apply union_subseteq_r.
  - rewrite size_union_alt, size_singleton. reflexivity.
Qed.

Lemma process_loop_discards (head rest : list Item.t) (w : World) :
  Queue.queue (animationQueue w) = head ++ rest ->
  Forall (fun item => AnimationPriority.MEDIUM <= Item.priority item) head ->
  (getMaxConcurrentAnimations (monitor w) + length head
   <= S (size (activeAnimations (monitor w))))%nat ->
  can_execute_more w = true ->
  (forall k : nat,
     (k < length head)%nat ->
     Browser.clock (browser w) (Browser.clockReads (browser w) + k)
     - Queue.frameStartTime (animationQueue w) < adjustedBudget w) ->
  process_loop (head ++ rest) w = process_loop rest (discarded head rest w).
Proof.
  revert w. induction head as [|item head IH]; intros w Hq Hprio Hcrowd Hmore Hbudget.
  - destruct w as [m [] b s]. cbn in Hq. subst. destruct b.
    unfold discarded. cbn. rewrite Nat.add_0_r. reflexivity.
  - cbn [app process_loop]. rewrite Hmore.
    unfold hasFrameBudget, performance_now, Browser.performance_now.
    cbn [fst snd].
    assert (Hb : JS.Qlt_bool
                   (Browser.clock (browser w) (Browser.clockReads (browser w))
                    - Queue.frameStartTime (animationQueue w))
                   (adjustedBudget w) = true).
    { apply JSFacts.Qlt_bool_iff.
      specialize (Hbudget 0%nat ltac:(cbn; lia)).
      rewrite Nat.add_0_r in Hbudget. exact Hbudget. }
    change (adjustedBudget (with_browser _ w)) with (adjustedBudget w).
    cbn [with_browser animationQueue]. rewrite Hb.
    unfold loop_body.
    assert (Hskip : shouldSkipAnimation (Item.priority item) (monitor w) = true).
    { unfold shouldSkipAnimation. cbv zeta.
      replace (getMaxConcurrentAnimations (monitor w)
               <=? size (activeAnimations (monitor w)))%nat with true
        by (symmetry; apply Nat.leb_le; cbn [length] in Hcrowd; lia).
      apply Qle_bool_iff. inversion Hprio; assumption. }
    change (monitor (with_queue _ (with_browser _ w))) with (monitor w).
    rewrite Hskip.
    rewrite IH.
    + f_equal. destruct w as [m [] b s]. destruct b.
      unfold discarded. cbn. rewrite <- Nat.add_succ_comm. reflexivity.
    + reflexivity.
    + inversion Hprio; assumption.
    + cbn [length] in Hcrowd.
      pose proof (unregistered_size (Item.id item)
                    (activeAnimations (monitor w))) as Hsz.
      match goal with
      | |- (getMaxConcurrentAnimations ?m + _ <= S (size (activeAnimations ?m)))%nat =>
          change (getMaxConcurrentAnimations m)
            with (getMaxConcurrentAnimations (monitor w));
          change (activeAnimations m)
            with (activeAnimations (monitor w) ∖ {[ Item.id item ]})
      end.
      lia.
    + exact Hmore.
    + intros k Hk. specialize (Hbudget (S k) ltac:(cbn; lia)).
      rewrite <- Nat.add_succ_comm in Hbudget. exact Hbudget.
Qed.

(** X13. Queued animations count as active in the monitor, so a long
    queue crowds itself out: while the animations registered are at least
    as many as the quality level admits, the frame loop takes every item
    of priority MEDIUM or lower off the front of the queue and
    unregisters it without calling its [execute]. The loop then goes on
    with the rest as if those items had never been queued, the clock
    readings apart. *)
Theorem crowded_queue_drops_head (head rest : list Item.t) (w : World) :
  Queue.queue (animationQueue w) = head ++ rest ->
  Forall (fun item => AnimationPriority.MEDIUM <= Item.priority item) head ->
  (getMaxConcurrentAnimations (monitor w) + length head
   <= S (getActiveAnimationCount (monitor w)))%nat ->
  can_execute_more w = true ->
  (forall k : nat,
     (k < length head)%nat ->
     Browser.clock (browser w) (Browser.clockReads (browser w) + k)
     - Queue.frameStartTime (animationQueue w) < adjustedBudget w) ->
  process_loop (head ++ rest) w = process_loop rest (discarded head rest w) /\
  Browser.trace (browser (discarded head rest w)) = Browser.trace (browser w) /\
  Queue.executing (animationQueue (discarded head rest w))
  = Queue.executing (animationQueue w) /\
  Queue.completedAnimations (animationQueue (discarded head rest w))
  = Queue.completedAnimations (animationQueue w) /\
  (forall item : Item.t,
     item ∈ head ->
     Item.id item ∉ activeAnimations (monitor (discarded head rest w))).
Proof.
  intros Hq Hprio Hcrowd Hmore Hbudget.
  split; [apply process_loop_discards; assumption|].
  split; [reflexivity|]. split; [reflexivity|]. split; [reflexivity|].
  intros item Hin. cbn [discarded monitor].
  rewrite unregister_all_active, elem_of_difference, elem_of_list_to_set.
  intros [_ Hn]. apply Hn.
  apply list_elem_of_In, in_map, list_elem_of_In, Hin.
Qed.

End CrowdedQueue.

(** Eight cards queued at level [high], which admits seven animations:
    the first two are dropped, three of the others start. *)
Lemma crowded_queue_drops_head_witness :
  let w := with_queue (Queue.set_frameStartTime 1000)
             (snd (performance_now cards_page)) in
  let queued := Queue.queue (animationQueue cards_page) in
  map Item.id (take 2 queued) = ["card-0"; "card-1"] /\
  process_loop (take 2 queued ++ drop 2 queued) w
  = process_loop (drop 2 queued)
      (discarded (take 2 queued) (drop 2 queued) w) /\
  Browser.trace (browser (run [Frame 2 1016] cards_page))
  = [ExecuteCalled "card-2"; ExecuteCalled "card-3"; ExecuteCalled "card-4"] /\
  map Item.id (Queue.queue (animationQueue (run [Frame 2 1016] cards_page)))
  = ["card-5"; "card-6"; "card-7"].
Proof.
  cbv zeta. split; [vm_compute; reflexivity|].
  split; [|split; vm_compute; reflexivity].
  apply crowded_queue_drops_head.
  - vm_compute. reflexivity.
  - repeat constructor; vm_compute; discriminate.
  - vm_compute. lia.
  - vm_compute. reflexivity.
  - intros k _. vm_compute. reflexivity.
Defined.

(** ** The will-change manager *)

Section WillChangeHints.

Import WillChange.

Ltac fields :=
  cbn [set_elements set_willChange clearTimeout setTimeout set_timeouts
         elements timeouts style nextTimer timers].

Lemma set_add_NoDup (prop : string) (s : list string) :
  NoDup s -> NoDup (set_add prop s).
Proof.
  intros H. unfold set_add. case_bool_decide as Hin; [exact H|].
  apply NoDup_app. split; [exact H|]. split; [|apply NoDup_singleton].
  intros x Hx Hx'. apply list_elem_of_singleton in Hx'. subst x. contradiction.
Qed.

Lemma set_add_all_NoDup (props s : list string) :
  NoDup s -> NoDup (foldl (fun set prop => set_add prop set) s props).
Proof.
  revert s. induction props as [|p props IH]; intros s H; [exact H|].
  cbn [foldl]. apply IH, set_add_NoDup, H.
Qed.

Lemma set_add_all_elem (props s : list string) (x : string) :
  x ∈ foldl (fun set prop => set_add prop set) s props <-> x ∈ s \/ x ∈ props.
Proof.
  revert s. induction props as [|p props IH]; intros s.
  - cbn. rewrite elem_of_nil. tauto.
  - cbn [foldl]. rewrite IH, elem_of_cons. unfold set_add.
    case_bool_decide as Hin.
    + split; [tauto|]. intros [H|[->|H]]; tauto.
    + rewrite elem_of_app, list_elem_of_singleton. tauto.
Qed.

Lemma clear_styles (l : list positive) (s : t) :
  let s' := foldr (fun element s => set_willChange element "auto" s) s l in
  elements s' = elements s /\ timeouts s' = timeouts s /\
  nextTimer s' = nextTimer s /\ timers s' = timers s /\
  (forall e : positive,
     style s' !! e = if bool_decide (e ∈ l) then Some "auto" else style s !! e).
Proof.
  cbv zeta. induction l as [|x l IH].
  - cbn. repeat split; reflexivity.
  - cbn [foldr]. destruct IH as (He & Ht & Hn & Htm & Hs).
    fields. repeat (split; [assumption|]).
    intros e. rewrite lookup_insert. destruct (decide (x = e)) as [->|Hne].
    + rewrite bool_decide_eq_true_2; [reflexivity | apply list_elem_of_here].
    + rewrite Hs. apply (f_equal (fun b : bool => if b then _ else _)).
      apply bool_decide_ext. rewrite elem_of_cons.
      split; [auto | intros [E|E]; [congruence | exact E]].
Qed.

Lemma clear_timers (l : list positive) (s : t) :
  let s' := foldr clearTimeout s l in
  elements s' = elements s /\ timeouts s' = timeouts s /\
  nextTimer s' = nextTimer s /\ style s' = style s /\
  (forall h : positive,
     timers s' !! h = if bool_decide (h ∈ l) then None else timers s !! h).
Proof.
  cbv zeta. induction l as [|x l IH].
  - cbn. repeat split; reflexivity.
  - cbn [foldr]. destruct IH as (He & Ht & Hn & Hst & Hs).
    fields. repeat (split; [assumption|]).
    intros h. rewrite lookup_delete. destruct (decide (x = h)) as [->|Hne].
    + rewrite bool_decide_eq_true_2; [reflexivity | apply list_elem_of_here].
    + rewrite Hs. apply (f_equal (fun b : bool => if b then _ else _)).
      apply bool_decide_ext. rewrite elem_of_cons.
      split; [auto | intros [E|E]; [congruence | exact E]].
Qed.

Lemma initial_hints_timed : hints_timed initial.
Proof.
  unfold hints_timed, initial. cbn.
  repeat split; intros *; rewrite ?lookup_empty;
    try (intros [? H]; discriminate H); try discriminate.
Qed.

Lemma add_hints_timed (element : positive) (properties : list string) (s : t) :
  hints_timed s -> hints_timed (add element properties s).
Proof.
  intros (Hdom & Hpend & Hfresh & Hstyle & Hauto).
  assert (Hnew : timers s !! nextTimer s = None).
  { destruct (timers s !! nextTimer s) eqn:E; [|reflexivity].
    specialize (Hfresh (nextTimer s) (mk_is_Some _ _ E)). lia. }
  assert (Hnd : NoDup (default [] (elements s !! element))).
  { destruct (elements s !! element) as [props|] eqn:E; cbn.
    - apply (Hstyle _ _ E).
    - constructor. }
  unfold add. cbv zeta.
  fields. set (existing := foldl _ _ properties).
  destruct (timeouts s !! element) as [old|] eqn:Eold;
    unfold hints_timed; fields.
  - assert (Hold : timers s !! old = Some element) by (apply Hpend, Eold).
    split; [|split; [|split; [|split]]].
    + intros e. rewrite !lookup_insert. destruct (decide (element = e)); [|apply Hdom].
      split; intros _; eexists; reflexivity.
    + intros e h. rewrite !lookup_insert.
      destruct (decide (element = e)) as [<-|Hne];
        destruct (decide (nextTimer s = h)) as [<-|Hnh].
      * tauto.
      * rewrite lookup_delete. destruct (decide (old = h)) as [<-|Hoh].
        -- split; [intros [= E]; contradiction | discriminate].
        -- split; [intros [= E]; contradiction|].
           intros E. apply Hpend in E. congruence.
      * split; [|intros [= E]; contradiction].
        intros E. apply Hpend in E. congruence.
      * rewrite lookup_delete. destruct (decide (old = h)) as [<-|Hoh].
        -- split; [|discriminate]. intros E. apply Hpend in E. congruence.
        -- apply Hpend.
    + intros h. rewrite lookup_insert. destruct (decide (nextTimer s = h)) as [<-|Hnh];
        [intros _; lia|].
      rewrite lookup_delete. destruct (decide (old = h)); [intros [? H]; discriminate H|].
      intros H. specialize (Hfresh h H). lia.
    + intros e props. rewrite !lookup_insert. destruct (decide (element = e)).
      * intros [= <-]. split; [|reflexivity]. apply set_add_all_NoDup, Hnd.
      * apply Hstyle.
    + intros e v. rewrite !lookup_insert. destruct (decide (element = e));
        [discriminate | apply Hauto].
  - split; [|split; [|split; [|split]]].
    + intros e. rewrite !lookup_insert. destruct (decide (element = e)); [|apply Hdom].
      split; intros _; eexists; reflexivity.
    + intros e h. rewrite !lookup_insert.
      destruct (decide (element = e)) as [<-|Hne];
        destruct (decide (nextTimer s = h)) as [<-|Hnh].
      * tauto.
      * split; [intros [= E]; contradiction|].
        intros E. apply Hpend in E. congruence.
      * split; [|intros [= E]; contradiction].
        intros E. apply Hpend in E. congruence.
      * apply Hpend.
    + intros h. rewrite lookup_insert. destruct (decide (nextTimer s = h)) as [<-|Hnh];
        [intros _; lia|].
      intros H. specialize (Hfresh h H). lia.
    + intros e props. rewrite !lookup_insert. destruct (decide (element = e)).
      * intros [= <-]. split; [|reflexivity]. apply set_add_all_NoDup, Hnd.
      * apply Hstyle.
    + intros e v. rewrite !lookup_insert. destruct (decide (element = e));
        [discriminate | apply Hauto].
Qed.

Lemma remove_hints_timed (element : positive) (s : t) :
  hints_timed s -> hints_timed (remove element s).
Proof.
  intros (Hdom & Hpend & Hfresh & Hstyle & Hauto).
  unfold remove. cbv zeta.
  fields.
  destruct (timeouts s !! element) as [old|] eqn:Eold;
    unfold hints_timed; fields.
  - assert (Hold : timers s !! old = Some element) by (apply Hpend, Eold).
    split; [|split; [|split; [|split]]].
    + intros e. rewrite !lookup_delete. destruct (decide (element = e)) as [<-|Hne].
      * split; intros [? H]; discriminate H.
      * apply Hdom.
    + intros e h. rewrite !lookup_delete.
      destruct (decide (element = e)) as [<-|Hne];
        destruct (decide (old = h)) as [<-|Hoh].
      * split; discriminate.
      * split; [discriminate|]. intros E. apply Hpend in E. congruence.
      * split; [|discriminate]. intros E. apply Hpend in E. congruence.
      * apply Hpend.
    + intros h. rewrite lookup_delete. destruct (decide (old = h));
        [intros [? H]; discriminate H | apply Hfresh].
    + intros e props. rewrite lookup_delete, lookup_insert.
      destruct (decide (element = e)); [discriminate | apply Hstyle].
    + intros e v. rewrite lookup_delete, lookup_insert.
      destruct (decide (element = e)) as [<-|Hne]; [intros _ [= <-]; reflexivity|].
      apply Hauto.
  - assert (Hnone : elements s !! element = None).
    { destruct (elements s !! element) eqn:E; [|reflexivity].
      destruct (proj1 (Hdom element) (mk_is_Some _ _ E)) as [? H]. congruence. }
    split; [|split; [|split; [|split]]].
    + intros e. rewrite lookup_delete. destruct (decide (element = e)) as [<-|Hne].
      * rewrite Eold. split; intros [? H]; discriminate H.
      * apply Hdom.
    + apply Hpend.
    + apply Hfresh.
    + intros e props. rewrite lookup_delete, lookup_insert.
      destruct (decide (element = e)); [discriminate | apply Hstyle].
    + intros e v. rewrite lookup_delete, lookup_insert.
      destruct (decide (element = e)) as [<-|Hne]; [intros _ [= <-]; reflexivity|].
      apply Hauto.
Qed.

(** The callback of a pending timer does what a call of [remove] for
    its element does. *)
Lemma timer_fires_remove (h element : positive) (s : t) :
  hints_timed s ->
  timers s !! h = Some element ->
  timer_fires h s = remove element s.
Proof.
  intros (_ & Hpend & _) Hh. unfold timer_fires. rewrite Hh.
  apply Hpend in Hh. unfold remove. cbv zeta.
  fields. rewrite Hh.
  unfold set_timeouts, clearTimeout, set_elements, set_willChange. fields.
  rewrite delete_delete_eq. reflexivity.
Qed.

Lemma keys_of_map {V : Type} (m : gmap positive V) (k : positive) :
  k ∈ (map_to_list m).*1 <-> is_Some (m !! k).
Proof.
  rewrite list_elem_of_fmap. split.
  - intros ([k' v] & -> & Hin). apply elem_of_map_to_list in Hin.
    exists v. exact Hin.
  - intros [v Hv]. exists (k, v). split; [reflexivity|].
    apply elem_of_map_to_list, Hv.
Qed.

Lemma values_of_map (m : gmap positive positive) (v : positive) :
  v ∈ (map_to_list m).*2 <-> exists k : positive, m !! k = Some v.
Proof.
  rewrite list_elem_of_fmap. split.
  - intros ([k v'] & -> & Hin). apply elem_of_map_to_list in Hin.
    exists k. exact Hin.
  - intros [k Hk]. exists (k, v). split; [reflexivity|].
    apply elem_of_map_to_list, Hk.
Qed.

Lemma clear_hints_timed (s : t) : hints_timed s -> hints_timed (clear s).
Proof.
  intros (Hdom & Hpend & Hfresh & Hstyle & Hauto).
  unfold clear. cbv zeta.
  destruct (clear_styles (map_to_list (elements s)).*1 s)
    as (He1 & Ht1 & Hn1 & Htm1 & Hs1).
  set (s1 := foldr _ s (map_to_list (elements s)).*1) in *.
  destruct (clear_timers (map_to_list (timeouts s1)).*2 s1)
    as (He2 & Ht2 & Hn2 & Hst2 & Hs2).
  set (s2 := foldr clearTimeout s1 _) in *.
  unfold hints_timed, set_timeouts, set_elements. fields.
  split; [|split; [|split; [|split]]].
  - intros e. rewrite !lookup_empty. split; intros [? H]; discriminate H.
  - intros e h. rewrite lookup_empty, Hs2. split; [discriminate|].
    case_bool_decide as Hin; [discriminate|].
    rewrite Htm1. intros E. exfalso. apply Hin, values_of_map.
    exists e. rewrite Ht1. apply Hpend, E.
  - intros h. rewrite Hs2, Hn2, Hn1, Htm1. case_bool_decide;
      [intros [? Hx]; discriminate Hx | apply Hfresh].
  - intros e props. rewrite lookup_empty. discriminate.
  - intros e v _. rewrite Hst2, Hs1. case_bool_decide as Hin.
    + intros [= <-]. reflexivity.
    + apply Hauto. destruct (elements s !! e) eqn:E; [|reflexivity].
      exfalso. apply Hin, keys_of_map. eexists. exact E.
Qed.

Lemma step_hints_timed (a : Action) (s : t) :
  hints_timed s -> hints_timed (step s a).
Proof.
  intros H. destruct a as [element properties|element| |h]; cbn [step].
  - apply add_hints_timed, H.
  - apply remove_hints_timed, H.
  - apply clear_hints_timed, H.
  - destruct (timers s !! h) as [element|] eqn:E.
    + rewrite (timer_fires_remove h element s H E).
      apply remove_hints_timed, H.
    + unfold timer_fires. rewrite E. exact H.
Qed.

Lemma run_hints_timed (actions : list Action) (s : t) :
  hints_timed s -> hints_timed (run actions s).
Proof.
  revert s. induction actions as [|a actions IH]; intros s H; [exact H|].
  cbn [run foldl]. apply IH, step_hints_timed, H.
Qed.

(** X14. Whatever is called on a will-change manager, and whichever of
    its timers fire: an element has a hint exactly when a timer is
    pending that will remove it, and no other timer of the manager is
    pending, so a hint is never dropped by the timer of an earlier [add]
    and never kept without a timer; the [will-change] style of an element
    with a hint is the list of its properties, each once, joined by
    commas; an element whose hint is gone has the style [auto]; a timer
    that fires does exactly what [remove] does; and [add] gives the
    element the properties it had together with the new ones, and one
    timer. *)
Theorem will_change_hints_timed (actions : list Action) :
  let s := run actions initial in
  hints_timed s /\
  (forall h element : positive,
     timers s !! h = Some element -> timer_fires h s = remove element s) /\
  (forall (element : positive) (properties : list string),
     let s' := add element properties s in
     exists props : list string,
       elements s' !! element = Some props /\
       (forall p : string,
          p ∈ props <->
          p ∈ default [] (elements s !! element) \/ p ∈ properties) /\
       exists h : positive,
         timeouts s' !! element = Some h /\
         (forall h' : positive, timers s' !! h' = Some element <-> h' = h)).
Proof.
  cbv zeta.
  pose proof (run_hints_timed actions initial initial_hints_timed) as H.
  split; [exact H|]. split.
  - intros h element E. apply timer_fires_remove; assumption.
  - intros element properties.
    pose proof (add_hints_timed element properties _ H) as (_ & Hpend & _).
    set (s := run actions initial) in *.
    assert (He : elements (add element properties s) !! element
                 = Some (foldl (fun set prop => set_add prop set)
                           (default [] (elements s !! element)) properties)).
    { unfold add. cbv zeta. fields.
      destruct (timeouts s !! element); fields; rewrite lookup_insert_eq;
        reflexivity. }
    assert (Ht : timeouts (add element properties s) !! element
                 = Some (nextTimer s)).
    { unfold add. cbv zeta. fields.
      destruct (timeouts s !! element); fields; rewrite lookup_insert_eq;
        reflexivity. }
    eexists. split; [exact He|]. split; [apply set_add_all_elem|].
    exists (nextTimer s). split; [exact Ht|].
    intros h'. rewrite <- Hpend, Ht. split; congruence.
Qed.

End WillChangeHints.

(** Two calls of [add] for one element, then the timer of the first
    call, which was cleared and runs nothing. *)
Lemma will_change_hints_timed_witness :
  let s := WillChange.run
             [WillChange.Add 1 ["transform"];
              WillChange.Add 1 ["opacity"; "transform"];
              WillChange.TimerFires 1] WillChange.initial in
  WillChange.style s !! 1%positive = Some "transform, opacity" /\
  WillChange.timers s !! 1%positive = None /\
  WillChange.timers s !! 2%positive = Some 1%positive /\
  hints_timed s.
Proof.
  cbv zeta. repeat (split; [vm_compute; reflexivity|]).
  apply will_change_hints_timed.
Defined.

(** ** The DOM batcher *)

Section DOMBatching.

Import DOMBatcher.

Lemma read_scheduled (fn : Task) (s : t) :
  scheduled s = true ->
  read fn s = {| reads := reads s ++ [fn]; writes := writes s;
                 scheduled := true; frames := frames s; log := log s |}.
Proof. intros H. unfold read, schedule. cbn. rewrite H. reflexivity. Qed.

Lemma write_scheduled (fn : Task) (s : t) :
  scheduled s = true ->
  write fn s = {| reads := reads s; writes := writes s ++ [fn];
                  scheduled := true; frames := frames s; log := log s |}.
Proof. intros H. unfold write, schedule. cbn. rewrite H. reflexivity. Qed.

Lemma queued_by_cons (k : Kind) (fn : Task) (fns : list Task) :
  queued_by k (fn :: fns) = queued_by k [fn] ++ queued_by k fns.
Proof. unfold queued_by. cbn. rewrite app_nil_r. reflexivity. Qed.

(** While a flush is under way, the calls a callback makes only queue. *)
Lemma calls_scheduled (cs : list Call) (s : t) :
  scheduled s = true ->
  let s' := foldl (fun s c =>
                     match c with
                     | Queue Read fn' => read fn' s
                     | Queue Write fn' => write fn' s
                     end) s cs in
  scheduled s' = true /\ frames s' = frames s /\ log s' = log s /\
  reads s' = reads s ++ queued_by Read [MkTask "" cs false] /\
  writes s' = writes s ++ queued_by Write [MkTask "" cs false].
Proof.
  cbv zeta. revert s. induction cs as [|[k fn] cs IH]; intros s Hs.
  - unfold queued_by. cbn. rewrite !app_nil_r. auto.
  - cbn [foldl]. destruct k.
    + rewrite (read_scheduled fn s Hs).
      match goal with
      | |- context [foldl _ ?x cs] =>
          destruct (IH x eq_refl) as (H1 & H2 & H3 & H4 & H5)
      end.
      rewrite H1, H2, H3, H4, H5. unfold queued_by. cbn.
      rewrite !app_nil_r, <- !app_assoc. auto.
    + rewrite (write_scheduled fn s Hs).
      match goal with
      | |- context [foldl _ ?x cs] =>
          destruct (IH x eq_refl) as (H1 & H2 & H3 & H4 & H5)
      end.
      rewrite H1, H2, H3, H4, H5. unfold queued_by. cbn.
      rewrite !app_nil_r, <- !app_assoc. auto.
Qed.

Lemma call_scheduled (fn : Task) (s : t) :
  scheduled s = true ->
  scheduled (fst (call fn s)) = true /\
  frames (fst (call fn s)) = frames s /\
  log (fst (call fn s)) = log s ++ [name fn] /\
  reads (fst (call fn s)) = reads s ++ queued_by Read [fn] /\
  writes (fst (call fn s)) = writes s ++ queued_by Write [fn] /\
  snd (call fn s) = throws fn.
Proof.
  intros Hs. unfold call. cbv zeta. cbn [fst snd].
  match goal with
  | |- context [foldl _ ?x (calls fn)] =>
      destruct (calls_scheduled (calls fn) x Hs) as (H1 & H2 & H3 & H4 & H5)
  end.
  rewrite H1, H2, H3, H4, H5. destruct fn as [n cs th]. cbn.
  repeat split; reflexivity.
Qed.

Lemma forEach_call_scheduled (fns : list Task) (s : t) :
  scheduled s = true ->
  scheduled (fst (forEach_call fns s)) = true /\
  frames (fst (forEach_call fns s)) = frames s /\
  (Forall returns fns ->
   snd (forEach_call fns s) = false /\
   log (fst (forEach_call fns s)) = log s ++ map name fns /\
   reads (fst (forEach_call fns s)) = reads s ++ queued_by Read fns /\
   writes (fst (forEach_call fns s)) = writes s ++ queued_by Write fns) /\
  (Exists (fun fn => throws fn = true) fns -> snd (forEach_call fns s) = true).
Proof.
  revert s. induction fns as [|fn fns IH]; intros s Hs.
  - cbn. split; [exact Hs|]. split; [reflexivity|]. split.
    + intros _. unfold queued_by. cbn. rewrite !app_nil_r. auto.
    + intros H. inversion H.
  - cbn [forEach_call].
    destruct (call_scheduled fn s Hs) as (H1 & H2 & H3 & H4 & H5 & H6).
    destruct (call fn s) as [s1 threw]. cbn [fst snd] in *. subst threw.
    destruct (throws fn) eqn:Hth.
    + cbn [fst snd]. split; [exact H1|]. split; [exact H2|]. split.
      * intros H. inversion H as [|? ? Hr _]. unfold returns in Hr. congruence.
      * reflexivity.
    + destruct (IH s1 H1) as (I1 & I2 & I3 & I4).
      split; [exact I1|]. split; [congruence|]. split.
      * intros H. inversion H as [|? ? _ Hrest]. subst.
        destruct (I3 Hrest) as (J1 & J2 & J3 & J4).
        split; [exact J1|].
        rewrite J2, J3, J4, H3, H4, H5, (queued_by_cons Read fn fns),
          (queued_by_cons Write fn fns).
        cbn [map]. rewrite <- !app_assoc. auto.
      * intros H. inversion H as [? ? Hx|? ? Hx]; subst; [congruence|].
        apply I4, Hx.
Qed.

(** At most one flush is pending, and only while [scheduled] is set. *)
Lemma step_one_flush (a : Action) (s : t) :
  frames s = 0%nat \/ frames s = 1%nat /\ scheduled s = true ->
  frames (step s a) = 0%nat \/
  frames (step s a) = 1%nat /\ scheduled (step s a) = true.
Proof.
  intros H. destruct a as [fn|fn|]; cbn [step].
  - unfold read, schedule. cbn [scheduled].
    destruct (scheduled s) eqn:E; cbn [frames scheduled].
    + destruct H as [H|[H _]]; [left; exact H | right; auto].
    + destruct H as [H|[_ H]]; [right; rewrite H; auto | discriminate].
  - unfold write, schedule. cbn [scheduled].
    destruct (scheduled s) eqn:E; cbn [frames scheduled].
    + destruct H as [H|[H _]]; [left; exact H | right; auto].
    + destruct H as [H|[_ H]]; [right; rewrite H; auto | discriminate].
  - unfold flush. destruct H as [H|[H Hs]]; rewrite H; [left; exact H|].
    cbv zeta. left.
    match goal with
    | |- context [forEach_call (reads s) ?x] =>
        destruct (forEach_call_scheduled (reads s) x Hs) as (H1 & H2 & _)
    end.
    destruct (forEach_call (reads s) _) as [s1 threw1]. cbn [fst snd] in *.
    destruct threw1; [exact H2|].
    destruct (forEach_call_scheduled (writes s) s1 H1) as (I1 & I2 & _).
    destruct (forEach_call (writes s) s1) as [s2 threw2]. cbn [fst snd] in *.
    cbn [frames] in *. destruct threw2; cbn [frames]; congruence.
Qed.

Lemma run_one_flush (actions : list Action) (s : t) :
  frames s = 0%nat \/ frames s = 1%nat /\ scheduled s = true ->
  frames (run actions s) = 0%nat \/
  frames (run actions s) = 1%nat /\ scheduled (run actions s) = true.
Proof.
  revert s. induction actions as [|a actions IH]; intros s H; [exact H|].
  cbn [run foldl]. apply IH, step_one_flush, H.
Qed.

Lemma step_stuck (a : Action) (s : t) :
  stuck s -> stuck (step s a) /\ log (step s a) = log s.
Proof.
  intros [Hs Hf]. destruct a as [fn|fn|]; cbn [step].
  - rewrite (read_scheduled fn s Hs). unfold stuck. cbn. auto.
  - rewrite (write_scheduled fn s Hs). unfold stuck. cbn. auto.
  - unfold flush. rewrite Hf. unfold stuck. auto.
Qed.

Lemma run_stuck (actions : list Action) (s : t) :
  stuck s -> stuck (run actions s) /\ log (run actions s) = log s.
Proof.
  revert s. induction actions as [|a actions IH]; intros s H; [auto|].
  cbn [run foldl]. destruct (step_stuck a s H) as [H1 H2].
  destruct (IH _ H1) as [I1 I2].
  split; [exact I1 | etransitivity; [exact I2 | exact H2]].
Qed.

(** X15. A DOM batcher never has more than one flush pending. A flush
    in which every callback returns calls the reads in the order they
    were queued and then the writes; what those callbacks queue
    themselves is not called in that flush and no frame is requested for
    it, so it waits until [read] or [write] is next called from outside.
    A flush in which a callback throws leaves the batcher waiting for a
    frame that is not coming: from then on no callback is ever called
    again, whatever is queued. *)
Theorem batcher_flush (actions : list Action) :
  let s := run actions initial in
  (frames s = 0%nat \/ frames s = 1%nat /\ scheduled s = true) /\
  (frames s = 1%nat ->
   Forall returns (reads s ++ writes s) ->
   log (flush s) = log s ++ map name (reads s) ++ map name (writes s) /\
   reads (flush s) = queued_by Read (reads s ++ writes s) /\
   writes (flush s) = queued_by Write (reads s ++ writes s) /\
   scheduled (flush s) = false /\ frames (flush s) = 0%nat) /\
  (frames s = 1%nat ->
   Exists (fun fn => throws fn = true) (reads s ++ writes s) ->
   stuck (flush s)) /\
  (stuck s -> forall more : list Action, log (run more s) = log s).
Proof.
  cbv zeta.
  pose proof (run_one_flush actions initial (or_introl eq_refl)) as Hone.
  set (s := run actions initial) in *.
  split; [exact Hone|].
  assert (Hsched : frames s = 1%nat -> scheduled s = true).
  { intros Hf. destruct Hone as [H|[_ H]]; [congruence | exact H]. }
  split; [|split].
  - intros Hf Hret. apply Forall_app in Hret as [Hr Hw].
    specialize (Hsched Hf). unfold flush. rewrite Hf. cbv zeta.
    match goal with
    | |- context [forEach_call (reads s) ?x] =>
        destruct (forEach_call_scheduled (reads s) x Hsched)
          as (H1 & H2 & H3 & _)
    end.
    destruct (H3 Hr) as (J1 & J2 & J3 & J4).
    destruct (forEach_call (reads s) _) as [s1 threw1]. cbn [fst snd] in *.
    subst threw1.
    destruct (forEach_call_scheduled (writes s) s1 H1) as (I1 & I2 & I3 & _).
    destruct (I3 Hw) as (K1 & K2 & K3 & K4).
    destruct (forEach_call (writes s) s1) as [s2 threw2]. cbn [fst snd] in *.
    subst threw2. cbn [log reads writes scheduled frames].
    rewrite K2, K3, K4, J2, J3, J4, I2, H2.
    unfold queued_by. rewrite !flat_map_app, <- !app_assoc. cbn. auto.
  - intros Hf Hex. specialize (Hsched Hf). unfold flush. rewrite Hf. cbv zeta.
    match goal with
    | |- context [forEach_call (reads s) ?x] =>
        destruct (forEach_call_scheduled (reads s) x Hsched)
          as (H1 & H2 & H3 & H4)
    end.
    destruct (forEach_call (reads s) _) as [s1 threw1].
    cbn [fst snd frames] in *.
    destruct threw1; [split; assumption|].
    destruct (forEach_call_scheduled (writes s) s1 H1) as (I1 & I2 & I3 & I4).
    destruct (forEach_call (writes s) s1) as [s2 threw2]. cbn [fst snd] in *.
    destruct threw2; [split; [exact I1 | congruence]|].
    exfalso. apply Exists_app in Hex as [Hex|Hex].
    + specialize (H4 Hex). discriminate H4.
    + specialize (I4 Hex). discriminate I4.
  - intros Hstuck more. apply run_stuck, Hstuck.
Qed.

End DOMBatching.

(** A read that queues a write during the flush: the write is left
    behind with no frame requested. Then a callback that throws: the
    write queued after it is never called. *)
Lemma batcher_flush_witness :
  let s := DOMBatcher.run
             [DOMBatcher.CallWrite (plain_task "paint");
              DOMBatcher.CallRead measure_then_move]
             DOMBatcher.initial in
  let s' := DOMBatcher.run
              [DOMBatcher.CallRead failing_task; DOMBatcher.FrameFires]
              DOMBatcher.initial in
  (DOMBatcher.log (DOMBatcher.flush s) = ["measure"; "paint"] /\
   map DOMBatcher.name (DOMBatcher.writes (DOMBatcher.flush s)) = ["move"] /\
   DOMBatcher.scheduled (DOMBatcher.flush s) = false /\
   DOMBatcher.frames (DOMBatcher.flush s) = 0%nat) /\
  DOMBatcher.log
    (DOMBatcher.run
       [DOMBatcher.CallWrite (plain_task "paint"); DOMBatcher.FrameFires] s')
  = ["fail"].
Proof.
  cbv zeta. split.
  - destruct (proj1 (proj2
                (batcher_flush
                   [DOMBatcher.CallWrite (plain_task "paint");
                    DOMBatcher.CallRead measure_then_move]))
                eq_refl)
      as (H1 & H2 & H3 & H4 & H5).
    + repeat constructor.
    + rewrite H1, H3. repeat split; try assumption; reflexivity.
  - apply (proj2 (proj2 (proj2
             (batcher_flush
                [DOMBatcher.CallRead failing_task; DOMBatcher.FrameFires])))).
    split; reflexivity.
Defined.

(** ** Debounced functions *)

Section DebouncedFunctions.

Import Debounce.

Context {A : Type}.

Lemma debounce_step (actions : list (Action A)) (a : Action A) (s : t A) :
  debounce_settled (asked actions) s \/ debounce_waiting (asked actions) s ->
  debounce_settled (asked (actions ++ [a])) (step s a) \/
  debounce_waiting (asked (actions ++ [a])) (step s a).
Proof.
  unfold asked. rewrite omap_app. fold (asked actions).
  intros [(Ht & Hsub & Hlast)|(h & args & earlier & Ht & Hid & Hask & Hsub)];
    destruct a as [x|h']; cbn [omap step]; rewrite ?app_nil_r.
  - right. exists (nextTimer s), x, (asked actions).
    unfold debounced. cbn [timers timeoutId calls]. rewrite Ht.
    split; [|split; [reflexivity|split; [reflexivity | exact Hsub]]].
    destruct (timeoutId s); rewrite ?delete_empty; reflexivity.
  - left. unfold timer_fires. rewrite Ht, lookup_empty.
    split; [exact Ht|]. split; assumption.
  - right. exists (nextTimer s), x, (asked actions).
    unfold debounced. cbn [timers timeoutId calls]. rewrite Ht, Hid.
    rewrite delete_singleton_eq.
    split; [reflexivity|]. split; [reflexivity|]. split; [reflexivity|].
    rewrite Hask. apply sublist_inserts_r, Hsub.
  - unfold timer_fires. rewrite Ht.
    destruct ({[h := args]} !! h') as [args'|] eqn:E.
    + apply lookup_singleton_Some in E as [<- <-].
      left. unfold debounce_settled. cbn [timers calls].
      rewrite delete_singleton_eq, Hask, !last_snoc.
      split; [reflexivity|]. split; [|reflexivity].
      apply sublist_app; [exact Hsub | reflexivity].
    + right. exists h, args, earlier. auto.
Qed.

Lemma debounce_run (actions : list (Action A)) :
  debounce_settled (asked actions) (run actions initial) \/
  debounce_waiting (asked actions) (run actions initial).
Proof.
  induction actions as [|a actions IH] using rev_ind.
  - left. unfold debounce_settled. cbn. auto.
  - unfold run. rewrite foldl_app. cbn [foldl].
    apply debounce_step, IH.
Qed.

(** X16. A debounced function never has more than one timer pending,
    and that timer carries the arguments of the most recent call; once
    it has fired, the last call [func] received had those arguments.
    [func] is only ever called with arguments that were passed to the
    debounced function, in the order they were passed and each call's
    arguments at most once, and never at the time of the call itself. *)
Theorem debounce_delivers_latest (actions : list (Action A)) :
  let s := run actions initial in
  (debounce_settled (asked actions) s \/ debounce_waiting (asked actions) s) /\
  (size (timers s) <= 1)%nat /\
  sublist (calls s) (asked actions) /\
  (forall args : A, calls (debounced args s) = calls s) /\
  (forall args : A,
     calls (timer_fires (nextTimer s) (debounced args s)) = calls s ++ [args]).
Proof.
  cbv zeta. pose proof (debounce_run actions) as H.
  split; [exact H|]. split; [|split; [|split]].
  - destruct H as [(Ht & _)|(h & args & earlier & Ht & _)]; rewrite Ht.
    + rewrite map_size_empty. lia.
    + rewrite map_size_singleton. lia.
  - destruct H as [(_ & Hsub & _)|(h & args & earlier & _ & _ & Hask & Hsub)];
      [exact Hsub|].
    rewrite Hask. apply sublist_inserts_r, Hsub.
  - reflexivity.
  - intros args. unfold timer_fires, debounced. cbn [timers calls].
    rewrite lookup_insert_eq. reflexivity.
Qed.

End DebouncedFunctions.

(** ** Throttled functions *)

Section ThrottledFunctions.

Import Throttle.

Context {A : Type}.
Variable delay : Q.






End ThrottledFunctions.


(** ** The monitor after [destroy] *)

Section MonitorDestroyed.

Import Monitor.

Ltac silence :=
  split;
  [ unfold readings, notified; cbn; rewrite ?omap_app; cbn;
    rewrite ?app_nil_r; reflexivity
  | let h' := fresh "h" in
    intros h'; cbn; rewrite ?lookup_insert, ?lookup_delete;
    repeat case_decide; congruence ].

Lemma silent_refl (w : World) : silent w w.
Proof. split; [reflexivity | auto]. Qed.

Lemma silent_trans (w1 w2 w3 : World) :
  silent w1 w2 -> silent w2 w3 -> silent w1 w3.
Proof.
  intros [H1 H2] [H3 H4]. split; [congruence|].
  intros h H. apply H2, H4, H.
Qed.

Lemma processQueue_silent (w : World) : silent w (processQueue w).
Proof.
  unfold processQueue, requestAnimationFrame, Browser.requestAnimationFrame.
  destruct (negb _); [apply silent_refl|].
  destruct (negb _); [|apply silent_refl]. silence.
Qed.

Lemma add_silent (item : Item.t) (w : World) : silent w (add item w).
Proof.
  unfold add. destruct (_ || _); [apply silent_refl|].
  unfold performance_now, Browser.performance_now.
  match goal with
  | |- silent w (if _ then processQueue ?x else _) =>
      assert (H : silent w x) by silence;
      destruct (Queue.isRunning _);
      [exact (silent_trans _ _ _ H (processQueue_silent x)) | exact H]
  end.
Qed.

Lemma addBatch_silent (items : list Item.t) (w : World) :
  silent w (addBatch items w).
Proof.
  revert w. induction items as [|item rest IH]; intros w; [apply silent_refl|].
  rewrite addBatch_cons.
  exact (silent_trans _ _ _ (add_silent item w) (IH _)).
Qed.

Lemma start_silent (w : World) : silent w (start w).
Proof.
  unfold start. destruct (Queue.isRunning _); [apply silent_refl|].
  refine (silent_trans _ _ _ _ (processQueue_silent _)). silence.
Qed.

Lemma pause_silent (w : World) : silent w (pause w).
Proof.
  unfold pause. cbn [animationQueue with_queue Queue.rafId Queue.set_isRunning].
  destruct (Queue.rafId (animationQueue w)); silence.
Qed.

Lemma setMaxConcurrent_silent (max : Q) (w : World) :
  silent w (setMaxConcurrent max w).
Proof.
  unfold setMaxConcurrent.
  cbn [animationQueue with_queue Queue.isRunning Queue.set_maxConcurrent].
  destruct (Queue.isRunning (animationQueue w)).
  - refine (silent_trans _ _ _ _ (processQueue_silent _)). silence.
  - silence.
Qed.

Lemma unregister_all_sampling (items : list Item.t) (m : Monitor.t) :
  frameTimings (unregister_all items m) = frameTimings m /\
  lastFrameTime (unregister_all items m) = lastFrameTime m /\
  droppedFrames (unregister_all items m) = droppedFrames m /\
  qualityLevel (unregister_all items m) = qualityLevel m /\
  animationBudget (unregister_all items m) = animationBudget m.
Proof.
  revert m. induction items as [|item rest IH]; intros m;
    [repeat split; reflexivity|].
  cbn [unregister_all foldl]. apply (IH (unregisterAnimation (Item.id item) m)).
Qed.

Lemma clear_silent (priority : option Q) (w : World) :
  silent w (clear priority w).
Proof.
  unfold clear. destruct priority as [p|]; cbv zeta.
  - destruct (unregister_all_sampling
                (filter (fun i => Qeq_bool (Item.priority i) p = true)
                   (Queue.queue (animationQueue w))) (monitor w))
      as (H1 & H2 & H3 & H4 & H5).
    split; [|auto]. unfold readings. cbn. rewrite H1, H2, H3, H4, H5.
    reflexivity.
  - destruct (unregister_all_sampling (Queue.queue (animationQueue w))
                (monitor w)) as (H1 & H2 & H3 & H4 & H5).
    split; [|auto]. unfold readings. cbn. rewrite H1, H2, H3, H4, H5.
    reflexivity.
Qed.

Lemma finally_block_silent (item : Item.t) (w : World) :
  silent w (finally_block item w).
Proof.
  unfold finally_block, mark_completed, run_cleanup.
  destruct (Item.cleanup item) as [[|error]|]; cbv zeta;
    match goal with
    | |- context [if ?c then _ else _] => destruct c
    end; silence.
Qed.

Lemma catch_block_silent (item : Item.t) (error : string) (w : World) :
  silent w (catch_block item error w).
Proof.
  unfold catch_block.
  refine (silent_trans _ _ _ _ (finally_block_silent _ _)). silence.
Qed.

Lemma after_result_silent (item : Item.t) (w : World) :
  silent w (after_result item w).
Proof.
  unfold after_result. destruct (JS.truthy_opt _);
    [silence | apply finally_block_silent].
Qed.

Lemma executeAnimation_silent (item : Item.t) (w : World) :
  silent w (executeAnimation item w).
Proof.
  unfold executeAnimation. cbv zeta.
  match goal with
  | |- silent w (match _ with
                 | ReturnsVoid => after_result item ?x
                 | _ => _
                 end) =>
      assert (H : silent w x) by silence
  end.
  destruct (Item.execute item).
  - exact (silent_trans _ _ _ H (after_result_silent _ _)).
  - exact (silent_trans _ _ _ H (catch_block_silent _ _ _)).
  - refine (silent_trans _ _ _ H _). silence.
Qed.

Lemma loop_body_silent (item : Item.t) (w : World) :
  silent w (loop_body item w).
Proof.
  unfold loop_body. destruct (shouldSkipAnimation _ _);
    [silence | apply executeAnimation_silent].
Qed.

Lemma process_loop_silent (q : list Item.t) (w : World) :
  silent w (process_loop q w).
Proof.
  revert w. induction q as [|item rest IH]; intros w; [apply silent_refl|].
  cbn [process_loop]. destruct (can_execute_more w); [|apply silent_refl].
  unfold hasFrameBudget, performance_now, Browser.performance_now.
  destruct (JS.Qlt_bool _ _); [|silence].
  refine (silent_trans _ _ _ _ (IH _)).
  refine (silent_trans _ _ _ _ (loop_body_silent _ _)). silence.
Qed.

Lemma process_silent (w : World) : silent w (process w).
Proof.
  unfold process, performance_now, Browser.performance_now. cbv zeta.
  match goal with
  | |- context [process_loop ?q ?x] =>
      assert (H : silent w (process_loop q x))
        by (refine (silent_trans _ _ _ _ (process_loop_silent _ _)); silence);
      set (w1 := process_loop q x) in *
  end.
  destruct (_ || _);
    unfold requestAnimationFrame, Browser.requestAnimationFrame;
    refine (silent_trans _ _ _ H _); silence.
Qed.

Lemma promise_settles_silent (i : nat) (s : Settlement) (w : World) :
  silent w (promise_settles i s w).
Proof.
  unfold promise_settles.
  destruct (suspended w !! i) as [[item [|]]|]; try apply silent_refl.
  unfold resume_result. destruct s as [|error].
  - refine (silent_trans _ _ _ _ (after_result_silent _ _)). silence.
  - refine (silent_trans _ _ _ _ (catch_block_silent _ _ _)). silence.
Qed.

Lemma timer_fires_silent (i : nat) (w : World) : silent w (timer_fires i w).
Proof.
  unfold timer_fires.
  destruct (suspended w !! i) as [[item [|]]|]; try apply silent_refl.
  unfold resume_delay.
  refine (silent_trans _ _ _ _ (finally_block_silent _ _)). silence.
Qed.

Lemma step_silent (a : Action) (w : World) :
  unmeasured w -> silent w (step w a).
Proof.
  intros Hun. destruct a; cbn [step].
  - apply add_silent.
  - apply addBatch_silent.
  - apply start_silent.
  - apply pause_silent.
  - apply start_silent.
  - apply clear_silent.
  - apply setMaxConcurrent_silent.
  - unfold with_monitor, subscribe.
    destruct (bool_decide _); silence.
  - unfold run_frame_callback.
    destruct (Browser.frameCallbacks (browser w) !! h) as [[|]|] eqn:E.
    + destruct (Hun h E).
    + refine (silent_trans _ _ _ _ (process_silent _)). silence.
    + apply silent_refl.
  - apply promise_settles_silent.
  - apply timer_fires_silent.
Qed.

Lemma silent_unmeasured (w w' : World) :
  silent w w' -> unmeasured w -> unmeasured w'.
Proof. intros [_ H] Hun h E. exact (Hun h (H h E)). Qed.

Lemma run_silent (actions : list Action) (w : World) :
  unmeasured w -> silent w (run actions w).
Proof.
  revert w. induction actions as [|a rest IH]; intros w Hun;
    [apply silent_refl|].
  cbn [run foldl]. pose proof (step_silent a w Hun) as Hs.
  exact (silent_trans _ _ _ Hs (IH _ (silent_unmeasured _ _ Hs Hun))).
Qed.

(** X18. [destroy] of the monitor ends the monitoring for good: in
    every run that follows, no frame callback of the monitor is pending
    any more, so the frame timings, the count of dropped frames, the
    quality level and the animation budget stay what they were when
    [destroy] was called, and no subscriber is notified again, the ones
    subscribed afterwards included. [destroy] itself forgets every
    subscriber and every registered animation. *)
Theorem monitoring_ends_with_destroy
  (b : Browser.t) (options : QueueOptions) (actions more : list Action) :
  Browser.frameCallbacks b = ∅ ->
  let w := destroy_monitor (run actions (new_AnimationQueue options (boot b))) in
  let w' := run more w in
  callbacks (monitor w) = [] /\
  activeAnimations (monitor w) = ∅ /\
  unmeasured w' /\
  readings w' = readings w.
Proof.
  intros Hempty. cbv zeta.
  pose proof (run_frames_held actions _
                (new_AnimationQueue_frames_ok options b Hempty))
    as (_ & _ & _ & Hm).
  set (w0 := run actions _) in *.
  assert (Hun : unmeasured (destroy_monitor w0)).
  { intros h. unfold destroy_monitor.
    destruct (rafId (monitor w0)) as [h0|] eqn:E; cbn.
    - rewrite lookup_delete. case_decide as Hh; [discriminate|].
      intros Hc. apply Hm in Hc. congruence.
    - intros Hc. apply Hm in Hc. discriminate. }
  split; [reflexivity|]. split; [reflexivity|].
  pose proof (run_silent more _ Hun) as Hs.
  split; [exact (silent_unmeasured _ _ Hs Hun) | apply Hs].
Qed.

End MonitorDestroyed.

(** The monitor is destroyed while its callback is pending under the
    handle 3: the frames that follow run nothing of the monitor, and the
    subscriber that joins is never told anything. *)
Lemma monitoring_ends_with_destroy_witness :
  let options := {| optMaxConcurrent := None; optAutoStart := None;
                    optFrameBudget := None |} in
  let w := destroy_monitor
             (run [Frame 1 1000; Frame 2 1040]
                (new_AnimationQueue options (boot ticking_browser))) in
  readings (run [Frame 3 1050; CallSubscribe (OpaqueSubscriber 7);
                 Frame 3 1060; Frame 4 1070] w) = readings w.
Proof.
  cbv zeta.
  apply (monitoring_ends_with_destroy ticking_browser
           {| optMaxConcurrent := None; optAutoStart := None;
              optFrameBudget := None |}
           [Frame 1 1000; Frame 2 1040]
           [Frame 3 1050; CallSubscribe (OpaqueSubscriber 7);
            Frame 3 1060; Frame 4 1070]).
  reflexivity.
Defined.

(** ** The monitor until a subscriber throws *)

Section MonitorStopped.

Import Monitor.

(** X9. The monitor keeps measuring until an exception leaves its frame
    callback, and never measures again afterwards. In every run of a
    page that started with no frame callback registered: a frame
    callback of the monitor is only ever pending under the handle the
    monitor holds; as long as no exception has left the monitor's
    callback, exactly one is pending; once one has, none is pending,
    and in whatever follows none is pending again and the readings of
    the monitor stay what they were. The exception is that of the first
    subscriber that throws, on a frame that completes a window; no other
    frame throws. *)
Theorem monitor_keeps_measuring
  (b : Browser.t) (options : QueueOptions) (actions : list Action) :
  Browser.frameCallbacks b = ∅ ->
  let page := new_AnimationQueue options (boot b) in
  let w := run actions page in
  (forall h : positive,
     Browser.frameCallbacks (browser w) !! h = Some MeasureCallback ->
     rafId (monitor w) = Some h) /\
  (run_outcome actions page = Returned ->
   exists h : positive,
     rafId (monitor w) = Some h /\
     forall h' : positive,
       Browser.frameCallbacks (browser w) !! h' = Some MeasureCallback <->
       h' = h) /\
  (forall error : string,
     run_outcome actions page = Threw error ->
     forall more : list Action,
       unmeasured (run more w) /\ readings (run more w) = readings w) /\
  (forall (timestamp : Q) (w0 : World),
     measure_outcome timestamp w0 =
     if completes_window timestamp w0
     then walk_outcome (callbacks (monitor w0)) else Returned).
Proof.
  intros Hempty. cbv zeta.
  pose proof (new_AnimationQueue_frames_ok options b Hempty) as Hpage.
  split; [apply (run_frames_held actions _ Hpage)|].
  pose proof (run_frames_ok actions _ Hpage) as Hrun.
  split; [|split; [|apply measure_outcome_window]].
  - intros Ho. rewrite Ho in Hrun.
    destruct Hrun as (_ & _ & Hm & Hmon & _).
    unfold frame_view in *. cbn in Hm, Hmon.
    destruct (rafId _) as [h|] eqn:E; [|contradiction].
    exists h. split; [reflexivity|].
    intros h'. rewrite Hm. split; congruence.
  - intros error Ho more. rewrite Ho in Hrun.
    destruct Hrun as (_ & _ & _ & Hno & _).
    pose proof (run_silent more _ Hno) as Hs.
    split; [exact (silent_unmeasured _ _ Hs Hno) | apply Hs].
Qed.

(** Sixty-one frames at 25 frames per second on a page whose queue is
    stopped. Without a subscriber the monitor ends with its callback
    pending; with a subscriber that throws, the exception leaves the
    sixty-first frame, and the frame that follows measures nothing. *)
Lemma monitor_keeps_measuring_witness :
  let options := {| optMaxConcurrent := None; optAutoStart := Some false;
                    optFrameBudget := None |} in
  let page := new_AnimationQueue options (boot ticking_browser) in
  let frames := monitor_frames 1000 40 61 in
  let thrown := CallSubscribe (ThrowingSubscriber 7 "boom") :: frames in
  (exists h : positive,
     rafId (monitor (run frames page)) = Some h /\
     Browser.frameCallbacks (browser (run frames page)) !! h
     = Some MeasureCallback) /\
  run_outcome thrown page = Threw "boom" /\
  unmeasured (run [Frame 61 3440; Frame 62 3440] (run thrown page)) /\
  readings (run [Frame 61 3440; Frame 62 3440] (run thrown page))
  = readings (run thrown page).
Proof.
  cbv zeta.
  pose proof (monitor_keeps_measuring ticking_browser
                {| optMaxConcurrent := None; optAutoStart := Some false;
                   optFrameBudget := None |}
                (monitor_frames 1000 40 61) eq_refl) as (_ & Hkeeps & _).
  pose proof (monitor_keeps_measuring ticking_browser
                {| optMaxConcurrent := None; optAutoStart := Some false;
                   optFrameBudget := None |}
                (CallSubscribe (ThrowingSubscriber 7 "boom")
                 :: monitor_frames 1000 40 61) eq_refl)
    as (_ & _ & Hstops & _).
  cbv zeta in Hkeeps, Hstops.
  assert (Ho : run_outcome
                 (CallSubscribe (ThrowingSubscriber 7 "boom")
                  :: monitor_frames 1000 40 61)
                 (new_AnimationQueue
                    {| optMaxConcurrent := None; optAutoStart := Some false;
                       optFrameBudget := None |}
                    (boot ticking_browser))
               = Threw "boom") by (vm_compute; reflexivity).
  split; [|split; [exact Ho | exact (Hstops _ Ho _)]].
  destruct Hkeeps as (h & Hh & Hpending); [vm_compute; reflexivity|].
  exists h. split; [exact Hh | apply Hpending; reflexivity].
Defined.

End MonitorStopped.

(** ** The frame counter *)

Section FrameCounting.

Import Monitor FrameCounter.






End FrameCounting.

